(** * I18nProjectManager: a shallow embedding of [src/i18nProjectManager.ts]

    The class [I18nProjectManager] classifies the location of a translation
    file ([detectProjectStructure]), lists the sibling languages found on
    disk ([detectLanguagesFromProject]), validates and normalises language
    codes ([validateLanguageCode], [normalizeLanguageCode]) and computes a
    collision-free destination path ([generateTargetFilePath],
    [getUniqueFilePath]).

    JavaScript strings are modelled as [string]; a character is one code
    unit.  The only characters the program ever inspects are the ASCII
    letters, digits, [-], [.], [/], the space and the parentheses; all the
    other code units are carried along unchanged.  The functions of Node's
    [path] module are those of [path.posix]. *)

From Stdlib Require Import String Ascii List ZArith Lia Bool Arith.
From Stdlib Require Import Sorting.Sorted DecimalString.
Import ListNotations.

Open Scope list_scope.
Open Scope string_scope.

(** ** Completion records

    A JavaScript call either returns normally or throws. *)

Inductive JSError : Type :=
| TypeError (msg : string)
| SystemError (code : string).

Inductive Completion (A : Type) : Type :=
| Normal (a : A)
| Throw (e : JSError).

Arguments Normal {A} a.
Arguments Throw {A} e.

Definition bindC {A B : Type} (c : Completion A) (f : A -> Completion B)
  : Completion B :=
  match c with
  | Normal a => f a
  | Throw e => Throw e
  end.

Notation "x <- c ;; k" := (bindC c (fun x => k))
  (at level 61, c at next level, right associativity).

(** ** Strings *)

Module JSString.

Definition inRange (lo hi c : ascii) : bool :=
  (Ascii.leb lo c && Ascii.leb c hi)%bool.

Definition isLower (c : ascii) : bool := inRange "a" "z" c.
Definition isUpper (c : ascii) : bool := inRange "A" "Z" c.
Definition isLetter (c : ascii) : bool := (isLower c || isUpper c)%bool.
Definition isDigit (c : ascii) : bool := inRange "0" "9" c.

(** [toUpperCase] and [toLowerCase] on one code unit.  The program applies
    them to capture groups of [languageCodeRegex] only, which hold ASCII
    letters and digits. *)
Definition upperChar (c : ascii) : ascii :=
  if isLower c then ascii_of_nat (nat_of_ascii c - 32) else c.

Definition lowerChar (c : ascii) : ascii :=
  if isUpper c then ascii_of_nat (nat_of_ascii c + 32) else c.

Fixpoint mapChars (f : ascii -> ascii) (s : string) : string :=
  match s with
  | EmptyString => EmptyString
  | String c s' => String (f c) (mapChars f s')
  end.

Definition toUpperCase (s : string) : string := mapChars upperChar s.
Definition toLowerCase (s : string) : string := mapChars lowerChar s.

(** [s.slice(from, to)] for [0 <= from]; an empty string when
    [to <= from]. *)
Definition slice (s : string) (from to : nat) : string :=
  substring from (to - from) s.

(** [s.slice(from)] *)
Definition sliceFrom (s : string) (from : nat) : string :=
  substring from (String.length s - from) s.

(** [s.charAt(i)]: the empty string out of range. *)
Definition charAt (s : string) (i : nat) : string :=
  match String.get i s with
  | Some c => String c EmptyString
  | None => EmptyString
  end.

Fixpoint forallChars (p : ascii -> bool) (s : string) : bool :=
  match s with
  | EmptyString => true
  | String c s' => (p c && forallChars p s')%bool
  end.

(** [s.endsWith(suffix)] *)
Definition endsWith (s suffix : string) : bool :=
  (String.length suffix <=? String.length s)%nat &&
  String.eqb (sliceFrom s (String.length s - String.length suffix)) suffix.

(** Truthiness of a string. *)
Definition truthy (s : string) : bool := negb (String.eqb s "").

End JSString.

Import JSString.

(** ** Regular expressions

    A backtracking matcher in continuation-passing style for the fragment
    of ECMAScript patterns that [languageCodeRegex] uses: assertions [^]
    and [$], characters, classes of ranges, sequence, alternation, greedy
    bounded quantifiers and (named) groups. *)

Module RegExp.

Inductive Regex : Type :=
| Empty
| AssertStart
| AssertEnd
| Chr (c : ascii)
| Cls (ranges : list (ascii * ascii))
| Seq (r1 r2 : Regex)
| Alt (r1 r2 : Regex)
| Quant (r : Regex) (min extra : nat)
| Group (name : option string) (r : Regex).

Definition range (lo hi : ascii) : ascii * ascii := (lo, hi).

Record t : Type := mk { pattern : Regex; ignoreCase : bool }.

(** The values of the named groups, [match.groups]; a group that did not
    take part in the match has no entry ([undefined]). *)
Definition Captures : Type := list (string * string).

Fixpoint lookup (name : string) (caps : Captures) : option string :=
  match caps with
  | [] => None
  | (n, v) :: caps' => if String.eqb n name then Some v else lookup name caps'
  end.

Definition setCapture (name : option string) (v : string) (caps : Captures)
  : Captures :=
  match name with
  | Some n => (n, v) :: caps
  | None => caps
  end.

(** Canonicalize of the specification, without the [u] flag: with [i] a
    code unit is compared through its upper-case form, and a code unit
    above 127 is never mapped to an ASCII one. *)
Definition canonicalize (ic : bool) (c : ascii) : ascii :=
  if ic then upperChar c else c.

Definition charMatches (ic : bool) (c d : ascii) : bool :=
  Ascii.eqb (canonicalize ic c) (canonicalize ic d).

Definition rangeChars (lo hi : ascii) : list ascii :=
  map ascii_of_nat
      (seq (nat_of_ascii lo) (S (nat_of_ascii hi) - nat_of_ascii lo)).

(** A class matches [d] when one of its members has the same canonical
    form as [d]. *)
Definition classMatches (ic : bool) (ranges : list (ascii * ascii))
           (d : ascii) : bool :=
  existsb (fun r => existsb (fun a => charMatches ic a d)
                            (rangeChars (fst r) (snd r))) ranges.

Definition Cont : Type := nat -> string -> Captures -> option Captures.

(** [matchRegex ic input r pos rest caps k]: match [r] at offset [pos] of
    [input], where [rest] is the input from [pos] on, then continue with
    [k]; [None] makes the caller backtrack. *)
Fixpoint matchRegex (ic : bool) (input : string) (r : Regex)
         (pos : nat) (rest : string) (caps : Captures) (k : Cont)
         {struct r} : option Captures :=
  match r with
  | Empty => k pos rest caps
  | AssertStart => if (pos =? 0)%nat then k pos rest caps else None
  | AssertEnd =>
      match rest with
      | EmptyString => k pos rest caps
      | String _ _ => None
      end
  | Chr c =>
      match rest with
      | String d rest' =>
          if charMatches ic c d then k (S pos) rest' caps else None
      | EmptyString => None
      end
  | Cls ranges =>
      match rest with
      | String d rest' =>
          if classMatches ic ranges d then k (S pos) rest' caps else None
      | EmptyString => None
      end
  | Seq r1 r2 =>
      matchRegex ic input r1 pos rest caps
        (fun pos' rest' caps' => matchRegex ic input r2 pos' rest' caps' k)
  | Alt r1 r2 =>
      match matchRegex ic input r1 pos rest caps k with
      | Some m => Some m
      | None => matchRegex ic input r2 pos rest caps k
      end
  | Quant r1 min extra =>
      let optional :=
        fix optional (m : nat) (pos : nat) (rest : string)
            (caps : Captures) {struct m} : option Captures :=
          match m with
          | O => k pos rest caps
          | S m' =>
              match matchRegex ic input r1 pos rest caps (optional m') with
              | Some x => Some x
              | None => k pos rest caps
              end
          end in
      let mandatory :=
        fix mandatory (n : nat) (pos : nat) (rest : string)
            (caps : Captures) {struct n} : option Captures :=
          match n with
          | O => optional extra pos rest caps
          | S n' => matchRegex ic input r1 pos rest caps (mandatory n')
          end in
      mandatory min pos rest caps
  | Group name r1 =>
      matchRegex ic input r1 pos rest caps
        (fun pos' rest' caps' =>
           k pos' rest'
             (setCapture name (slice input pos pos') caps'))
  end.

(** RegExpBuiltinExec without the [g] and [y] flags: the match is tried
    at every offset from 0 on. *)
Fixpoint execFrom (ic : bool) (input : string) (r : Regex)
         (pos : nat) (rest : string) : option Captures :=
  match matchRegex ic input r pos rest [] (fun _ _ caps => Some caps) with
  | Some caps => Some caps
  | None =>
      match rest with
      | String _ rest' => execFrom ic input r (S pos) rest'
      | EmptyString => None
      end
  end.

(** [input.match(re)] for a pattern without the [g] flag; [None] is
    [null]. *)
Definition exec (re : t) (input : string) : option Captures :=
  execFrom (ignoreCase re) input (pattern re) 0 input.

(** [re.test(input)] *)
Definition test (re : t) (input : string) : bool :=
  match exec re input with
  | Some _ => true
  | None => false
  end.

End RegExp.

Import RegExp.

(** ** The language code pattern

    [/^(?<language>[a-z]{2,3})(-(?<script>[A-Z][a-z]{3}))?(-(?<region>[A-Z]{2,3}|[0-9]{3}))?$/i] *)

Definition languageCodePattern : Regex :=
  Seq AssertStart
 (Seq (Group (Some "language") (Quant (Cls [range "a" "z"]) 2 1))
 (Seq (Quant (Group None
         (Seq (Chr "-")
              (Group (Some "script")
                 (Seq (Cls [range "A" "Z"]) (Quant (Cls [range "a" "z"]) 3 0)))))
         0 1)
 (Seq (Quant (Group None
         (Seq (Chr "-")
              (Group (Some "region")
                 (Alt (Quant (Cls [range "A" "Z"]) 2 1)
                      (Quant (Cls [range "0" "9"]) 3 0)))))
         0 1)
      AssertEnd))).

Definition languageCodeRegex : RegExp.t :=
  {| pattern := languageCodePattern; ignoreCase := true |}.

(** ** [normalizeLanguageCode] and [validateLanguageCode] *)

(** Reading a property of [undefined] throws a [TypeError]. *)
Definition required (o : option string) : Completion string :=
  match o with
  | Some s => Normal s
  | None => Throw (TypeError "Cannot read properties of undefined")
  end.

(** An optional string in a condition: [undefined] and the empty string
    are falsy. *)
Definition whenTruthy (o : option string) : option string :=
  match o with
  | Some s => if truthy s then Some s else None
  | None => None
  end.

Definition normalizeLanguageCode (code : string) : Completion string :=
  match exec languageCodeRegex code with
  | None => Normal code
  | Some groups =>
      let language := lookup "language" groups in
      let script := lookup "script" groups in
      let region := lookup "region" groups in
      language <- required language ;;
      let normalized := toLowerCase language in
      let normalized :=
        match whenTruthy script with
        | Some script =>
            normalized ++ "-" ++ toUpperCase (charAt script 0)
                       ++ toLowerCase (sliceFrom script 1)
        | None => normalized
        end in
      let normalized :=
        match whenTruthy region with
        | Some region => normalized ++ "-" ++ toUpperCase region
        | None => normalized
        end in
      Normal normalized
  end.

Definition validateLanguageCode (code : string) : bool :=
  truthy code && test languageCodeRegex code.

(** ** The grammar of language tags

    The shape of the strings [languageCodeRegex] accepts, written without
    the matcher: a language of two or three letters, then optionally a
    hyphen and a script of four letters, then optionally a hyphen and a
    region of two or three letters or of three digits. *)

Module LanguageTag.

Definition isLanguage (l : string) : bool :=
  (2 <=? String.length l)%nat && (String.length l <=? 3)%nat
  && forallChars isLetter l.

Definition isScript (sc : string) : bool :=
  (String.length sc =? 4)%nat && forallChars isLetter sc.

Definition isRegion (rg : string) : bool :=
  ((2 <=? String.length rg)%nat && (String.length rg <=? 3)%nat
   && forallChars isLetter rg)
  || ((String.length rg =? 3)%nat && forallChars isDigit rg).

Definition optional (p : string -> bool) (o : option string) : bool :=
  match o with
  | Some s => p s
  | None => true
  end.

Definition subtag (o : option string) : string :=
  match o with
  | Some s => "-" ++ s
  | None => ""
  end.

Definition assemble (l : string) (sc rg : option string) : string :=
  l ++ subtag sc ++ subtag rg.

Definition wellFormed (l : string) (sc rg : option string) : bool :=
  isLanguage l && optional isScript sc && optional isRegion rg.

(** The canonical casing of the three subtags. *)
Definition canonLanguage (l : string) : string := toLowerCase l.

Definition canonScript (sc : string) : string :=
  toUpperCase (charAt sc 0) ++ toLowerCase (sliceFrom sc 1).

Definition canonRegion (rg : string) : string := toUpperCase rg.

(** The canonical casing of a tag, subtag by subtag. *)
Definition canonical (l : string) (sc rg : option string) : string :=
  assemble (canonLanguage l) (option_map canonScript sc)
           (option_map canonRegion rg).

(** What the canonical casing looks like, character by character. *)
Definition lowercased (s : string) : bool := forallChars isLower s.

Definition capitalized (s : string) : bool :=
  match s with
  | String c s' => isUpper c && forallChars isLower s'
  | EmptyString => false
  end.

Definition uppercased (s : string) : bool :=
  forallChars (fun c => isUpper c || isDigit c) s.

End LanguageTag.

Import LanguageTag.

(** ** Node's [path.posix] *)

Module Path.

Definition slash : ascii := "/".
Definition dot : ascii := ".".

(** [s.charCodeAt(i)]; [None] is [NaN]. *)
Definition charCodeAt (s : string) (i : nat) : option ascii :=
  String.get i s.

Definition codeIs (code : option ascii) (c : ascii) : bool :=
  match code with
  | Some d => Ascii.eqb d c
  | None => false
  end.

(** [===] on two char codes: [NaN] equals nothing. *)
Definition codeEq (a b : option ascii) : bool :=
  match a, b with
  | Some x, Some y => Ascii.eqb x y
  | _, _ => false
  end.

Definition len (s : string) : Z := Z.of_nat (String.length s).

(** A string without separator, and the name of a directory entry: a
    non-empty string without separator. *)
Definition slashFree (s : string) : bool :=
  forallChars (fun c => negb (Ascii.eqb c slash)) s.

Definition isFileName (s : string) : bool := truthy s && slashFree s.

(** [s.slice(from, to)] with integer arguments that are not negative. *)
Definition sliceZ (s : string) (from to : Z) : string :=
  slice s (Z.to_nat from) (Z.to_nat to).

(** [s.lastIndexOf(c)], [-1] when [c] does not occur. *)
Fixpoint lastIndexOfFrom (s : string) (c : ascii) (i acc : Z) : Z :=
  match s with
  | EmptyString => acc
  | String d s' =>
      lastIndexOfFrom s' c (i + 1) (if Ascii.eqb d c then i else acc)
  end.

Definition lastIndexOf (s : string) (c : ascii) : Z :=
  lastIndexOfFrom s c 0 (-1).

(** *** [dirname] *)

(** The loop [for (i = path.length - 1; i >= 1; --i)], entered at [i];
    the result is [end], [-1] when no separator ends the loop. *)
Fixpoint dirnameLoop (path : string) (i : nat) (matchedSlash : bool) : Z :=
  match i with
  | O => -1
  | S j =>
      if codeIs (charCodeAt path i) slash then
        if negb matchedSlash then Z.of_nat i
        else dirnameLoop path j matchedSlash
      else dirnameLoop path j false
  end.

Definition dirname (path : string) : string :=
  if (String.length path =? 0)%nat then "."
  else
    let hasRoot := codeIs (charCodeAt path 0) slash in
    let end_ := dirnameLoop path (String.length path - 1) true in
    if (end_ =? -1)%Z then (if hasRoot then "/" else ".")
    else if hasRoot && (end_ =? 1)%Z then "//"
    else sliceZ path 0 end_.

(** *** [basename] *)

Record BaseState : Type := mkBase {
  bStart : Z;
  bEnd : Z;
  bMatchedSlash : bool;
  bFirstNonSlashEnd : Z;
  bExtIdx : Z
}.

(** The loop of [basename(path, suffix)], [for (i = n - 1; i >= 0; --i)]. *)
Fixpoint basenameSuffixLoop (path suffix : string) (n : nat)
         (st : BaseState) : BaseState :=
  match n with
  | O => st
  | S i =>
      let code := charCodeAt path i in
      if codeIs code slash then
        if negb (bMatchedSlash st) then
          mkBase (Z.of_nat i + 1) (bEnd st) (bMatchedSlash st)
                 (bFirstNonSlashEnd st) (bExtIdx st)
        else basenameSuffixLoop path suffix i st
      else
        let st1 :=
          if (bFirstNonSlashEnd st =? -1)%Z then
            mkBase (bStart st) (bEnd st) false (Z.of_nat i + 1) (bExtIdx st)
          else st in
        let st2 :=
          if (0 <=? bExtIdx st1)%Z then
            if codeEq code (charCodeAt suffix (Z.to_nat (bExtIdx st1))) then
              let extIdx := (bExtIdx st1 - 1)%Z in
              if (extIdx =? -1)%Z then
                mkBase (bStart st1) (Z.of_nat i) (bMatchedSlash st1)
                       (bFirstNonSlashEnd st1) extIdx
              else
                mkBase (bStart st1) (bEnd st1) (bMatchedSlash st1)
                       (bFirstNonSlashEnd st1) extIdx
            else
              mkBase (bStart st1) (bFirstNonSlashEnd st1)
                     (bMatchedSlash st1) (bFirstNonSlashEnd st1) (-1)
          else st1 in
        basenameSuffixLoop path suffix i st2
  end.

(** The loop of [basename(path)]; the state is
    [(start, end, matchedSlash)]. *)
Fixpoint basenameLoop (path : string) (n : nat) (st : Z * Z * bool)
  : Z * Z * bool :=
  match n with
  | O => st
  | S i =>
      let '(start, end_, matchedSlash) := st in
      if codeIs (charCodeAt path i) slash then
        if negb matchedSlash then (Z.of_nat i + 1, end_, matchedSlash)%Z
        else basenameLoop path i st
      else if (end_ =? -1)%Z then
        basenameLoop path i (start, Z.of_nat i + 1, false)%Z
      else basenameLoop path i st
  end.

(** [basename(path, suffix)]; [suffix = None] is the call with one
    argument. *)
Definition basename (path : string) (suffix : option string) : string :=
  let plain :=
    let '(start, end_, _) :=
      basenameLoop path (String.length path) (0, -1, true)%Z in
    if (end_ =? -1)%Z then "" else sliceZ path start end_ in
  match suffix with
  | Some suffix =>
      if (0 <? String.length suffix)%nat
         && (String.length suffix <=? String.length path)%nat then
        if String.eqb suffix path then ""
        else
          let st :=
            basenameSuffixLoop path suffix (String.length path)
              (mkBase 0 (-1) true (-1) (len suffix - 1)) in
          let end_ :=
            if (bStart st =? bEnd st)%Z then bFirstNonSlashEnd st
            else if (bEnd st =? -1)%Z then len path
            else bEnd st in
          sliceZ path (bStart st) end_
      else plain
  | None => plain
  end.

(** *** [extname] *)

Record ExtState : Type := mkExt {
  eStartDot : Z;
  eStartPart : Z;
  eEnd : Z;
  eMatchedSlash : bool;
  ePreDotState : Z
}.

Fixpoint extnameLoop (path : string) (n : nat) (st : ExtState) : ExtState :=
  match n with
  | O => st
  | S i =>
      let code := charCodeAt path i in
      if codeIs code slash then
        if negb (eMatchedSlash st) then
          mkExt (eStartDot st) (Z.of_nat i + 1) (eEnd st)
                (eMatchedSlash st) (ePreDotState st)
        else extnameLoop path i st
      else
        let st1 :=
          if (eEnd st =? -1)%Z then
            mkExt (eStartDot st) (eStartPart st) (Z.of_nat i + 1) false
                  (ePreDotState st)
          else st in
        let st2 :=
          if codeIs code dot then
            if (eStartDot st1 =? -1)%Z then
              mkExt (Z.of_nat i) (eStartPart st1) (eEnd st1)
                    (eMatchedSlash st1) (ePreDotState st1)
            else if negb (ePreDotState st1 =? 1)%Z then
              mkExt (eStartDot st1) (eStartPart st1) (eEnd st1)
                    (eMatchedSlash st1) 1
            else st1
          else if negb (eStartDot st1 =? -1)%Z then
            mkExt (eStartDot st1) (eStartPart st1) (eEnd st1)
                  (eMatchedSlash st1) (-1)
          else st1 in
        extnameLoop path i st2
  end.

Definition extname (path : string) : string :=
  let st := extnameLoop path (String.length path)
              (mkExt (-1) 0 (-1) true 0) in
  if (eStartDot st =? -1)%Z
     || (eEnd st =? -1)%Z
     || (ePreDotState st =? 0)%Z
     || ((ePreDotState st =? 1)%Z
         && (eStartDot st =? eEnd st - 1)%Z
         && (eStartDot st =? eStartPart st + 1)%Z)
  then ""
  else sliceZ path (eStartDot st) (eEnd st).

(** *** [normalize] and [join] *)

Record NormState : Type := mkNorm {
  res : string;
  lastSegmentLength : Z;
  lastSlash : Z;
  dots : Z
}.

(** The body of the loop of [normalizeString] at a separator, at
    index [i]. *)
Definition normSeparator (path : string) (allowAboveRoot : bool) (i : Z)
           (st : NormState) : NormState :=
  let r := res st in
  let aboveRoot :=
    if allowAboveRoot then
      mkNorm (if (0 <? len r)%Z then r ++ "/.." else "..") 2 i 0
    else mkNorm r (lastSegmentLength st) i 0 in
  if (lastSlash st =? i - 1)%Z || (dots st =? 1)%Z then
    mkNorm r (lastSegmentLength st) i 0
  else if (dots st =? 2)%Z then
    if (len r <? 2)%Z
       || negb (lastSegmentLength st =? 2)%Z
       || negb (codeIs (charCodeAt r (String.length r - 1)) dot)
       || negb (codeIs (charCodeAt r (String.length r - 2)) dot)
    then
      if (2 <? len r)%Z then
        let lastSlashIndex := lastIndexOf r slash in
        if (lastSlashIndex =? -1)%Z then mkNorm "" 0 i 0
        else
          let r' := sliceZ r 0 lastSlashIndex in
          mkNorm r' (len r' - 1 - lastIndexOf r' slash) i 0
      else if negb (len r =? 0)%Z then mkNorm "" 0 i 0
      else aboveRoot
    else aboveRoot
  else
    let segment := sliceZ path (lastSlash st + 1) i in
    mkNorm (if (0 <? len r)%Z then r ++ "/" ++ segment else segment)
           (i - lastSlash st - 1) i 0.

Definition normStep (path : string) (allowAboveRoot : bool) (i : Z)
           (code : ascii) (st : NormState) : NormState :=
  if Ascii.eqb code slash then normSeparator path allowAboveRoot i st
  else if Ascii.eqb code dot && negb (dots st =? -1)%Z then
    mkNorm (res st) (lastSegmentLength st) (lastSlash st) (dots st + 1)
  else mkNorm (res st) (lastSegmentLength st) (lastSlash st) (-1).

(** The loop [for (i = 0; i <= path.length; ++i)]: [rest] is the path
    from [i] on and [code] the char code left by the previous round. *)
Fixpoint normLoop (path : string) (allowAboveRoot : bool) (rest : string)
         (i : Z) (code : ascii) (st : NormState) : NormState :=
  match rest with
  | String c rest' =>
      normLoop path allowAboveRoot rest' (i + 1) c
               (normStep path allowAboveRoot i c st)
  | EmptyString =>
      if Ascii.eqb code slash then st
      else normStep path allowAboveRoot i slash st
  end.

(** The state of the same loop after the characters of [a], read from
    index [i] on. *)
Fixpoint normPrefix (path : string) (allowAboveRoot : bool) (a : string)
         (i : Z) (st : NormState) : NormState :=
  match a with
  | String c a' =>
      normPrefix path allowAboveRoot a' (i + 1)
                 (normStep path allowAboveRoot i c st)
  | EmptyString => st
  end.

(** The value of [dots] after the characters of a segment. *)
Fixpoint dotsAfter (a : string) (d : Z) : Z :=
  match a with
  | String c a' =>
      dotsAfter a' (if Ascii.eqb c dot && negb (d =? -1)%Z
                    then (d + 1)%Z else (-1)%Z)
  | EmptyString => d
  end.

Fixpoint lastChar (a : string) (default : ascii) : ascii :=
  match a with
  | String c a' => lastChar a' c
  | EmptyString => default
  end.

Definition normalizeString (path : string) (allowAboveRoot : bool)
  : string :=
  res (normLoop path allowAboveRoot path 0 zero (mkNorm "" 0 (-1) 0)).

Definition normalize (path : string) : string :=
  if (String.length path =? 0)%nat then "."
  else
    let isAbsolute := codeIs (charCodeAt path 0) slash in
    let trailingSeparator :=
      codeIs (charCodeAt path (String.length path - 1)) slash in
    let path := normalizeString path (negb isAbsolute) in
    if (String.length path =? 0)%nat then
      if isAbsolute then "/"
      else if trailingSeparator then "./" else "."
    else
      let path := if trailingSeparator then path ++ "/" else path in
      if isAbsolute then "/" ++ path else path.

Fixpoint joinArgs (joined : option string) (args : list string)
  : option string :=
  match args with
  | [] => joined
  | arg :: args' =>
      if (0 <? String.length arg)%nat then
        match joined with
        | None => joinArgs (Some arg) args'
        | Some j => joinArgs (Some (j ++ "/" ++ arg)) args'
        end
      else joinArgs joined args'
  end.

Definition join (args : list string) : string :=
  match joinArgs None args with
  | None => "."
  | Some joined => normalize joined
  end.

(** A path segment that [normalize] keeps: a file name other than [.]
    and [..]. *)
Definition isSegment (s : string) : bool :=
  isFileName s && negb (String.eqb s ".") && negb (String.eqb s "..").

(** What [normalizeString] holds in [res]: a stack of segments, the last
    one first, written with separators between them. *)
Fixpoint joinSegments (stack : list string) : string :=
  match stack with
  | [] => ""
  | s :: rest =>
      match rest with
      | [] => s
      | _ :: _ => joinSegments rest ++ "/" ++ s
      end
  end.

Definition topLength (stack : list string) : Z :=
  match stack with
  | [] => 0
  | s :: _ => len s
  end.

(** The stacks that [normalizeString] builds: kept segments above [..]
    segments, the latter only when the path may rise above its root. *)
Fixpoint normalStack (allowAboveRoot : bool) (stack : list string) : bool :=
  match stack with
  | [] => true
  | s :: rest =>
      if isSegment s then normalStack allowAboveRoot rest
      else String.eqb s ".." && allowAboveRoot
           && forallb (fun t => String.eqb t "..") rest
  end.

(** The effect of a separator that ends the segment [seg]. *)
Definition endSegment (allowAboveRoot : bool) (seg : string)
           (stack : list string) : list string :=
  if String.eqb seg "" || String.eqb seg "." then stack
  else if String.eqb seg ".." then
    match stack with
    | [] => if allowAboveRoot then [".."] else []
    | s :: rest =>
        if String.eqb s ".."
        then (if allowAboveRoot then ".." :: stack else stack)
        else rest
    end
  else seg :: stack.

(** The segments of a stack, each followed by a separator. *)
Fixpoint segmentsText (stack : list string) : string :=
  match stack with
  | [] => ""
  | s :: rest => segmentsText rest ++ s ++ "/"
  end.

(** The normalised directory [d] with its trailing separator, as a
    prefix of the paths below it: empty for the current directory. *)
Definition dirPrefix (d : string) : string :=
  let isAbsolute := codeIs (charCodeAt d 0) slash in
  let r := normalizeString (d ++ "/") (negb isAbsolute) in
  (if isAbsolute then "/" else "")
  ++ (if (String.length r =? 0)%nat then "" else r ++ "/").

End Path.

(** ** The file system

    The capabilities of Node's [fs] module that the class uses, over an
    abstract state of the disk. *)

Record Dirent : Type := mkDirent {
  name : string;
  isDirectory : bool;
  isFile : bool
}.

Class FileSystem (FS : Type) : Type := {
  (** [fs.existsSync(path)]: never throws. *)
  existsSync : FS -> string -> bool;
  (** [fs.readdirSync(path, { withFileTypes: true })] *)
  readdirSync : FS -> string -> Completion (list Dirent);
  (** [fs.mkdirSync(path, { recursive: true })] *)
  mkdirSync : FS -> string -> Completion FS
}.

(** ** [Set<string>]: the elements in insertion order, without
    duplicates. *)

Module StringSet.

Definition t : Type := list string.

Definition empty : t := [].

Definition has (s : t) (x : string) : bool := existsb (String.eqb x) s.

Definition add (s : t) (x : string) : t :=
  if has s x then s else (s ++ [x])%list.

Definition delete (s : t) (x : string) : t :=
  filter (fun y => negb (String.eqb y x)) s.

(** [Array.from(set)] *)
Definition toArray (s : t) : list string := s.

End StringSet.

(** ** [Array.prototype.sort] with a comparator

    The sort is stable; with a consistent comparator the result does not
    depend on the algorithm, here an insertion sort. *)

Fixpoint insertSorted (cmp : string -> string -> Z) (x : string)
         (l : list string) : list string :=
  match l with
  | [] => [x]
  | y :: l' =>
      if (cmp x y <=? 0)%Z then x :: l else y :: insertSorted cmp x l'
  end.

Fixpoint sortWith (cmp : string -> string -> Z) (l : list string)
  : list string :=
  match l with
  | [] => []
  | x :: l' => insertSorted cmp x (sortWith cmp l')
  end.

(** [a.localeCompare(b, undefined, { sensitivity: "base" })] depends on the
    collation of the host's default locale. *)
Class Collator : Type := {
  localeCompare : string -> string -> Z
}.

(** The comparator is consistent: it orders any two strings one way or the
    other, transitively. *)
Definition consistent (cmp : string -> string -> Z) : Prop :=
  (forall a b, (cmp a b <= 0)%Z \/ (cmp b a <= 0)%Z) /\
  (forall a b c, (cmp a b <= 0)%Z -> (cmp b c <= 0)%Z -> (cmp a c <= 0)%Z).

(** The root collation at primary strength on letters, digits and hyphens:
    case is ignored and a hyphen sorts before the digits, the digits before
    the letters, which is the order of the lower-cased code units. *)
Fixpoint compareChars (a b : string) : Z :=
  match a, b with
  | EmptyString, EmptyString => 0
  | EmptyString, String _ _ => -1
  | String _ _, EmptyString => 1
  | String x a', String y b' =>
      let x' := nat_of_ascii (lowerChar x) in
      let y' := nat_of_ascii (lowerChar y) in
      if (x' <? y')%nat then -1
      else if (y' <? x')%nat then 1
      else compareChars a' b'
  end.

Definition rootCollator : Collator := {| localeCompare := compareChars |}.

(** ** The class [I18nProjectManager] *)

Inductive ProjectStructureType : Type :=
| FolderBased
| FileBased
| Unknown.

Record ProjectStructureInfo : Type := mkInfo {
  type : ProjectStructureType;
  basePath : string;
  sourceLanguage : option string
}.

(** A call of [console.warn(message, error)]. *)
Definition Warning : Type := (string * JSError)%type.

(** The counter of [getUniqueFilePath] is a JavaScript number: an integer
    up to [2^53] is exact and prints in decimal, and [counter++] no longer
    changes [2^53]. *)
Definition maxExact : N := 9007199254740992.

Definition increment (counter : N) : N :=
  if (counter <? maxExact)%N then (counter + 1)%N else counter.

Definition numberToString (n : N) : string :=
  NilZero.string_of_uint (N.to_uint n).

Definition detectProjectStructure (sourceFilePath : string)
  : ProjectStructureInfo :=
  let sourceDir := Path.dirname sourceFilePath in
  let sourceFileName := Path.basename sourceFilePath (Some ".json") in
  let parentDirName := Path.basename sourceDir None in
  if test languageCodeRegex parentDirName then
    {| type := FolderBased;
       basePath := Path.dirname sourceDir;
       sourceLanguage := Some parentDirName |}
  else if test languageCodeRegex sourceFileName then
    {| type := FileBased;
       basePath := sourceDir;
       sourceLanguage := Some sourceFileName |}
  else
    {| type := Unknown; basePath := sourceDir; sourceLanguage := None |}.

Section Manager.

Context {FS : Type} {fsOps : FileSystem FS} {collator : Collator}.

(** The body of the loop over the entries of a folder-based project. *)
Definition addLanguageDirectory (languageCodes : StringSet.t)
           (entry : Dirent) : StringSet.t :=
  if isDirectory entry && test languageCodeRegex (name entry)
  then StringSet.add languageCodes (name entry)
  else languageCodes.

(** The body of the loop over the entries of a file-based project. *)
Definition addLanguageFile (languageCodes : StringSet.t)
           (entry : Dirent) : StringSet.t :=
  if isFile entry && endsWith (name entry) ".json" then
    let fileName := Path.basename (name entry) (Some ".json") in
    if test languageCodeRegex fileName
    then StringSet.add languageCodes fileName
    else languageCodes
  else languageCodes.

(** The set of language codes after the scan, with the warnings that
    the [catch] blocks print. *)
Definition scanLanguages (fs : FS) (structureInfo : ProjectStructureInfo)
  : StringSet.t * list Warning :=
  match type structureInfo with
  | FolderBased =>
      match readdirSync fs (basePath structureInfo) with
      | Normal entries =>
          (fold_left addLanguageDirectory entries StringSet.empty, [])
      | Throw error =>
          (StringSet.empty,
           [("Error scanning for language directories:", error)])
      end
  | FileBased =>
      match readdirSync fs (basePath structureInfo) with
      | Normal entries =>
          (fold_left addLanguageFile entries StringSet.empty, [])
      | Throw error =>
          (StringSet.empty,
           [("Error scanning for language files:", error)])
      end
  | Unknown => (StringSet.empty, [])
  end.

(** The result is the completion of the call together with the warnings
    printed on the console. *)
Definition detectLanguagesFromProject (fs : FS) (sourceFilePath : string)
  : Completion (list string) * list Warning :=
  let structureInfo := detectProjectStructure sourceFilePath in
  let sourceLanguage := sourceLanguage structureInfo in
  let '(languageCodes, warnings) := scanLanguages fs structureInfo in
  let languageCodes :=
    match whenTruthy sourceLanguage with
    | Some sourceLanguage => StringSet.delete languageCodes sourceLanguage
    | None => languageCodes
    end in
  (Normal (sortWith localeCompare (StringSet.toArray languageCodes)),
   warnings).

(** The [do ... while] loop of [getUniqueFilePath], entered with
    [counter]; [None] when [fuel] rounds do not reach a free path. *)
Fixpoint probeUniquePath (fs : FS) (dir baseName ext : string)
         (fuel : nat) (counter : N) : option string :=
  match fuel with
  | O => None
  | S fuel' =>
      let uniquePath :=
        Path.join
          [dir; baseName ++ " (" ++ numberToString counter ++ ")" ++ ext] in
      if existsSync fs uniquePath
      then probeUniquePath fs dir baseName ext fuel' (increment counter)
      else Some uniquePath
  end.

Definition getUniqueFilePath (fuel : nat) (fs : FS) (filePath : string)
  : option string :=
  if negb (existsSync fs filePath) then Some filePath
  else
    let dir := Path.dirname filePath in
    let ext := Path.extname filePath in
    let baseName := Path.basename filePath (Some ext) in
    probeUniquePath fs dir baseName ext fuel 1.

(** The directory that [generateTargetFilePath] creates when it is
    absent: the target directory of a folder-based project. *)
Definition targetDirectory (sourceFilePath targetLanguage : string)
  : option string :=
  let structureInfo := detectProjectStructure sourceFilePath in
  match type structureInfo with
  | FolderBased => Some (Path.join [basePath structureInfo; targetLanguage])
  | _ => None
  end.

(** The value of [targetFilePath] in the three cases of
    [generateTargetFilePath], which is then handed to
    [getUniqueFilePath]. *)
Definition targetFilePath (sourceFilePath targetLanguage : string)
  : string :=
  let structureInfo := detectProjectStructure sourceFilePath in
  let sourceFileName := Path.basename sourceFilePath (Some ".json") in
  match type structureInfo with
  | FolderBased =>
      let targetDir :=
        Path.join [basePath structureInfo; targetLanguage] in
      Path.join [targetDir; sourceFileName ++ ".json"]
  | FileBased =>
      Path.join [basePath structureInfo; targetLanguage ++ ".json"]
  | Unknown =>
      let sourceDir := Path.dirname sourceFilePath in
      Path.join
        [sourceDir; sourceFileName ++ "." ++ targetLanguage ++ ".json"]
  end.

(** The result is the disk after the call and the path returned, [None]
    when the numbering loop does not end within [fuel] rounds. *)
Definition generateTargetFilePath (fuel : nat) (fs : FS)
           (sourceFilePath targetLanguage : string)
  : Completion (FS * option string) :=
  fs' <- match targetDirectory sourceFilePath targetLanguage with
         | Some targetDir =>
             if negb (existsSync fs targetDir)
             then mkdirSync fs targetDir
             else Normal fs
         | None => Normal fs
         end ;;
  Normal (fs',
          getUniqueFilePath fuel fs'
            (targetFilePath sourceFilePath targetLanguage)).

End Manager.

(** ** A disk held in memory

    The paths that exist, each with its kind; [true] is a directory. *)

Definition MemFS : Type := list (string * bool).

Definition memLookup (fs : MemFS) (p : string) : option bool :=
  option_map snd (find (fun e => String.eqb (fst e) p) fs).

Definition memEntries (fs : MemFS) (dir : string) : list Dirent :=
  map (fun e => mkDirent (Path.basename (fst e) None) (snd e) (negb (snd e)))
      (filter (fun e => String.eqb (Path.dirname (fst e)) dir
                        && negb (String.eqb (fst e) dir)) fs).

Fixpoint memMkdir (fuel : nat) (fs : MemFS) (p : string) : Completion MemFS :=
  match memLookup fs p with
  | Some true => Normal fs
  | Some false => Throw (SystemError "EEXIST")
  | None =>
      match fuel with
      | O => Normal ((fs ++ [(p, true)])%list)
      | S fuel' =>
          fs' <- memMkdir fuel' fs (Path.dirname p) ;;
          Normal ((fs' ++ [(p, true)])%list)
      end
  end.

#[global] Instance memFileSystem : FileSystem MemFS := {|
  existsSync fs p :=
    match memLookup fs p with Some _ => true | None => false end;
  readdirSync fs p :=
    match memLookup fs p with
    | Some true => Normal (memEntries fs p)
    | Some false => Throw (SystemError "ENOTDIR")
    | None => Throw (SystemError "ENOENT")
    end;
  mkdirSync fs p := memMkdir (String.length p) fs p
|}.

(** ** Paths rebuilt from a detection result

    The path of [file] in the directory of language [lang] under
    [basePath], and the path of the file of language [lang] in
    [basePath]. *)

Definition folderBasedPath (basePath lang file : string) : string :=
  basePath ++ "/" ++ lang ++ "/" ++ file.

Definition fileBasedPath (basePath lang : string) : string :=
  basePath ++ "/" ++ lang ++ ".json".

(** ** Notions used to state the properties of the enumerator *)

(** Equality of two strings when case is ignored. *)
Definition equalsIgnoreCase (a b : string) : bool :=
  String.eqb (toLowerCase a) (toLowerCase b).

(** [x], as it is written, is on the disk: among the [entries] of the base
    path it is the name of a directory (folder-based), or the name of a
    file without its [.json] (file-based). *)
Definition onDisk (entries : list Dirent) (kind : ProjectStructureType)
           (x : string) : Prop :=
  exists entry,
    In entry entries /\
    match kind with
    | FolderBased => isDirectory entry = true /\ name entry = x
    | FileBased => isFile entry = true /\ name entry = x ++ ".json"
    | Unknown => False
    end.

(** The order that a comparator induces. *)
Definition ordered (cmp : string -> string -> Z) (a b : string) : Prop :=
  (cmp a b <= 0)%Z.

(** A disk with two files whose names differ by case only. *)
Definition twoCasings : MemFS :=
  [("i18n", true); ("i18n/EN.json", false); ("i18n/en.json", false);
   ("i18n/de.json", false)].

(** The disks of the test suite. *)
Definition mixedCase : MemFS :=
  [("i18n", true); ("i18n/EN.json", false); ("i18n/RU.json", false);
   ("i18n/Fr.json", false); ("i18n/de.json", false)].

Definition localesDisk : MemFS :=
  [("locales", true); ("locales/en", true); ("locales/fr", true);
   ("locales/de", true); ("locales/en/common.json", false);
   ("locales/fr/common.json", false); ("locales/de/common.json", false)].

Definition numbered : MemFS :=
  [("i18n", true); ("i18n/en.json", false); ("i18n/fr.json", false);
   ("i18n/fr (1).json", false)].

(** ** Notions used to state the properties of the path generator *)

(** [filePath] with the counter in parentheses before its extension, as
    [getUniqueFilePath] builds it. *)
Definition numberedPath (filePath : string) (counter : N) : string :=
  Path.join
    [Path.dirname filePath;
     Path.basename filePath (Some (Path.extname filePath))
       ++ " (" ++ numberToString counter ++ ")" ++ Path.extname filePath].

(** The scheme of the specification: the target path built from the base
    path, the target language, and the stem and the extension of the
    source file. *)
Definition sourceExtension (sourceFilePath : string) : string :=
  Path.extname sourceFilePath.

Definition sourceStem (sourceFilePath : string) : string :=
  Path.basename sourceFilePath (Some (Path.extname sourceFilePath)).

Definition schemePath (sourceFilePath targetLanguage : string) : string :=
  let info := detectProjectStructure sourceFilePath in
  match type info with
  | FolderBased =>
      Path.join
        [Path.join [basePath info; targetLanguage];
         sourceStem sourceFilePath ++ sourceExtension sourceFilePath]
  | FileBased =>
      Path.join
        [basePath info; targetLanguage ++ sourceExtension sourceFilePath]
  | Unknown =>
      Path.join
        [basePath info;
         sourceStem sourceFilePath ++ "." ++ targetLanguage
           ++ sourceExtension sourceFilePath]
  end.

(** The target path written out, with the target language as it is given,
    for a target language that is a path segment. *)
Definition literalPath (sourceFilePath targetLanguage : string) : string :=
  let info := detectProjectStructure sourceFilePath in
  let stem := Path.basename sourceFilePath (Some ".json") in
  match type info with
  | FolderBased =>
      Path.dirPrefix (basePath info) ++ targetLanguage ++ "/" ++ stem
        ++ ".json"
  | FileBased =>
      Path.dirPrefix (basePath info) ++ targetLanguage ++ ".json"
  | Unknown =>
      Path.dirPrefix (basePath info) ++ stem ++ "." ++ targetLanguage
        ++ ".json"
  end.

(** The state of [normalizeString] stands for a stack of segments. *)
Definition stackState (allowAboveRoot : bool) (st : Path.NormState)
           (stack : list string) : Prop :=
  Path.res st = Path.joinSegments stack /\
  Path.lastSegmentLength st = Path.topLength stack /\
  Path.normalStack allowAboveRoot stack = true.

(** ** The cases of the test suite

    The disks that [src/test/translationCommand.test.ts] sets up under its
    temporary directory, here [/tmp/t]. *)

Definition returnedPath {FS : Type} (c : Completion (FS * option string))
  : option string :=
  match c with
  | Normal (_, r) => r
  | Throw _ => None
  end.

Definition folderDisk : MemFS :=
  [("/tmp/t", true); ("/tmp/t/locales", true); ("/tmp/t/locales/en", true);
   ("/tmp/t/locales/en/common.json", false)].

Definition fileDisk : MemFS :=
  [("/tmp/t", true); ("/tmp/t/i18n", true); ("/tmp/t/i18n/en.json", false)].

Definition unknownDisk : MemFS :=
  [("/tmp/t", true); ("/tmp/t/translations", true);
   ("/tmp/t/translations/messages.json", false)].

Definition conflictDisk : MemFS :=
  [("/tmp/t", true); ("/tmp/t/i18n", true); ("/tmp/t/i18n/en.json", false);
   ("/tmp/t/i18n/fr.json", false); ("/tmp/t/i18n/fr (1).json", false)].

Definition scriptDisk : MemFS :=
  [("/tmp/t", true); ("/tmp/t/locales", true);
   ("/tmp/t/locales/zh-Hans-CN", true);
   ("/tmp/t/locales/zh-Hans-CN/app.json", false)].

Definition foldersDisk : MemFS :=
  [("/tmp/t", true); ("/tmp/t/locales", true);
   ("/tmp/t/locales/en", true); ("/tmp/t/locales/en/common.json", false);
   ("/tmp/t/locales/fr", true); ("/tmp/t/locales/fr/common.json", false);
   ("/tmp/t/locales/de", true); ("/tmp/t/locales/de/common.json", false);
   ("/tmp/t/locales/zh-Hans-CN", true);
   ("/tmp/t/locales/zh-Hans-CN/common.json", false)].

Definition filesDisk : MemFS :=
  [("/tmp/t", true); ("/tmp/t/i18n", true); ("/tmp/t/i18n/en.json", false);
   ("/tmp/t/i18n/fr.json", false); ("/tmp/t/i18n/de.json", false);
   ("/tmp/t/i18n/ja.json", false)].

(** ** Notions used to state further properties of language codes *)

(** The characters of a language code: letters, digits and the hyphen. *)
Definition tagChar (c : ascii) : bool :=
  isLetter c || isDigit c || Ascii.eqb c "-".

(** * The extension around the project manager

    The rest of the extension calls the class from the editor:
    [src/translationCommand.ts] runs the translate command,
    [src/languageSelector.ts] asks for the target language,
    [src/apiKeyManager.ts] keeps the key of the translation service and
    [src/translationService.ts] calls the service.  These functions are
    asynchronous and act on the editor, the disk and the network, which
    make up the world, [W].  Each of them is given its collaborators, as
    in the source, where they are the arguments of the function or of the
    constructor of its class.

    The messages are the strings of the source; a pictograph in a message
    is written with the bytes of its UTF-8 encoding, and no function looks
    into it. *)

Module Async.

(** A thrown value, as a [catch] block looks at it: an instance of [Error]
    with its message, or any other value. *)
Inductive Exception : Type :=
| ErrorObject (message : string)
| OtherValue.

(** The completion of a call; [Unfinished] stands for a loop that did not
    end within the rounds it was given. *)
Inductive Outcome (R : Type) : Type :=
| Returned (r : R)
| Thrown (e : Exception)
| Unfinished.

Arguments Returned {R} r.
Arguments Thrown {R} e.
Arguments Unfinished {R}.

(** A function that acts on the world, awaited by its caller. *)
Definition Task (W R : Type) : Type := W -> Outcome R * W.

Definition ret {W R : Type} (r : R) : Task W R := fun w => (Returned r, w).

Definition bind {W A B : Type} (t : Task W A) (k : A -> Task W B)
  : Task W B :=
  fun w =>
    match t w with
    | (Returned a, w') => k a w'
    | (Thrown e, w') => (Thrown e, w')
    | (Unfinished, w') => (Unfinished, w')
    end.

(** [try { t } catch (error) { handler(error) }] *)
Definition tryCatch {W R : Type} (t : Task W R)
           (handler : Exception -> Task W R) : Task W R :=
  fun w =>
    match t w with
    | (Thrown e, w') => handler e w'
    | other => other
    end.

(** A call whose promise is not awaited: the call is made, its result and
    its rejection are dropped. *)
Definition unawaited {W R : Type} (t : Task W R) : Task W unit :=
  fun w => (Returned tt, snd (t w)).

(** A synchronous read of the world, and a synchronous change of it. *)
Definition reading {W R : Type} (f : W -> R) : Task W R :=
  fun w => (Returned (f w), w).

Definition effect {W : Type} (f : W -> W) : Task W unit :=
  fun w => (Returned tt, f w).

(** [error instanceof Error ? error.message : "Unknown error"] *)
Definition errorText (error : Exception) : string :=
  match error with
  | ErrorObject message => message
  | OtherValue => "Unknown error"
  end.

(** [action === item] for the answer to a message with items. *)
Definition chose (action : option string) (item : string) : bool :=
  match action with
  | Some a => String.eqb a item
  | None => false
  end.

(** Truthiness of a value of type [string | undefined]. *)
Definition truthyOption (o : option string) : bool :=
  match o with
  | Some s => truthy s
  | None => false
  end.

End Async.

Import Async.

Notation "x <~ t ;; k" := (bind t (fun x => k))
  (at level 61, t at next level, right associativity).

Notation "t ;;; k" := (bind t (fun _ => k))
  (at level 61, right associativity).

(** ** The editor

    The part of the API of the editor that the extension calls.  A call
    that returns a promise is a task. *)

Record InputBoxOptions : Type := mkInputBox {
  prompt : string;
  placeHolder : string;
  password : bool;
  ignoreFocusOut : bool
}.

Record QuickPickItem : Type := mkItem {
  label : string;
  description : string
}.

Record QuickPickOptions : Type := mkPick {
  pickPlaceHolder : string;
  matchOnDescription : bool
}.

Class Editor (W : Type) : Type := {
  (** [context.secrets.get(key)], [store(key, value)] and [delete(key)] *)
  secretsGet : string -> Task W (option string);
  secretsStore : string -> string -> Task W unit;
  secretsDelete : string -> Task W unit;
  (** [vscode.workspace.getConfiguration(section)]: [get<string>(key)],
      [get(key, defaultValue)] with a boolean default, and
      [update(key, undefined, vscode.ConfigurationTarget.Global)] *)
  configGet : string -> string -> W -> option string;
  configGetBoolean : string -> string -> bool -> W -> bool;
  configRemoveGlobal : string -> string -> Task W unit;
  (** [vscode.window.showInformationMessage(message, ...items)] and its
      siblings *)
  showInformationMessage : string -> list string -> Task W (option string);
  showWarningMessage : string -> list string -> Task W (option string);
  showErrorMessage : string -> list string -> Task W (option string);
  showInputBox : InputBoxOptions -> Task W (option string);
  showQuickPick :
    list QuickPickItem -> QuickPickOptions -> Task W (option QuickPickItem);
  (** [vscode.window.activeTextEditor?.document.uri], by its [fsPath] *)
  activeDocument : W -> option string;
  (** [vscode.window.withProgress(options, task)] for a notification
      with the given title that cannot be cancelled, and
      [progress.report({ message })] *)
  withProgress : string -> Task W unit -> Task W unit;
  progressReport : string -> W -> W;
  (** [vscode.workspace.openTextDocument(path)] followed by
      [vscode.window.showTextDocument(doc)] *)
  TextDocument : Type;
  openTextDocument : string -> Task W TextDocument;
  showTextDocument : TextDocument -> Task W unit;
  (** [vscode.env.openExternal(vscode.Uri.parse(url))] *)
  openExternal : string -> Task W bool;
  (** [setTimeout(callback, delay)] and [console.warn(message, error)] *)
  setTimeout : Task W unit -> N -> W -> W;
  consoleWarn : string -> JSError -> W -> W
}.

(** [fs.readFileSync(path, "utf8")] and
    [fs.writeFileSync(path, data, "utf8")] *)
Class FileContents (W : Type) : Type := {
  readFileSync : W -> string -> Completion string;
  writeFileSync : W -> string -> string -> Completion W
}.

(** The errors of Node are instances of [Error]; their messages are not
    modelled. *)
Class ErrorMessages : Type := {
  messageOf : JSError -> string
}.

(** A synchronous call of Node in an asynchronous function. *)
Definition fromCompletion {W R : Type} `{ErrorMessages} (c : Completion R)
  : Task W R :=
  fun w =>
    match c with
    | Normal r => (Returned r, w)
    | Throw e => (Thrown (ErrorObject (messageOf e)), w)
    end.

(** ** [src/constants.ts] *)

Module CONFIG.
Definition SECTION : string := "l10n-translate-i18n".
Module KEYS.
Definition API_KEY : string := "apiKey".
Definition USE_CONTRACTIONS : string := "useContractions".
Definition USE_SHORTENING : string := "useShortening".
Definition GENERATE_PLURAL_FORMS : string := "generatePluralForms".
End KEYS.
End CONFIG.

Module URLS.
Definition BASE : string := "https://l10n.dev".
Definition API_BASE : string := "https://l10n.dev/api".
Definition API_KEYS : string := "https://l10n.dev/ws/keys".
Definition PRICING : string := "https://l10n.dev/#pricing".
End URLS.

(** ** [src/apiKeyManager.ts] *)

(** The white space and the line terminators that [trim] removes, among
    the code units of this model: the characters 9 to 13, the space and
    the no-break space. *)
Definition isWhiteSpace (c : ascii) : bool :=
  let n := nat_of_ascii c in
  ((9 <=? n) && (n <=? 13))%nat || (n =? 32)%nat || (n =? 160)%nat.

(** [s.trim()] is the empty string. *)
Definition blank (s : string) : bool := forallChars isWhiteSpace s.

Module ApiKeyManager.

Section ApiKeyManager.

Context {W : Type} {editor : Editor W}.

Definition SECRET_KEY : string := CONFIG.SECTION ++ "." ++ CONFIG.KEYS.API_KEY.

(** [configApiKey && configApiKey.trim()] as a condition *)
Definition usable (configApiKey : option string) : option string :=
  match configApiKey with
  | Some key => if truthy key && negb (blank key) then Some key else None
  | None => None
  end.

(** [configApiKey !== secureApiKey] *)
Definition differs (configApiKey : string) (secureApiKey : option string)
  : bool :=
  match secureApiKey with
  | Some key => negb (String.eqb configApiKey key)
  | None => true
  end.

Definition getApiKey : Task W (option string) :=
  secureApiKey <~ secretsGet SECRET_KEY ;;
  configApiKey <~ reading (configGet CONFIG.SECTION CONFIG.KEYS.API_KEY) ;;
  match usable configApiKey with
  | Some key =>
      (if differs key secureApiKey then
         secretsStore SECRET_KEY key ;;;
         configRemoveGlobal CONFIG.SECTION CONFIG.KEYS.API_KEY ;;;
         if truthyOption secureApiKey then
           unawaited
             (showInformationMessage
                "API Key updated and moved to secure storage! 🔐" [])
         else
           unawaited
             (showInformationMessage
                "API Key migrated to secure storage for better security! 🔐"
                [])
       else ret tt) ;;;
      ret configApiKey
  | None => ret secureApiKey
  end.

Definition setApiKey : Task W (option string) :=
  apiKey <~ showInputBox
              {| prompt := "Enter your l10n.dev API Key";
                 placeHolder := "Get your API Key from " ++ URLS.API_KEYS;
                 password := true;
                 ignoreFocusOut := true |} ;;
  match whenTruthy apiKey with
  | Some key =>
      secretsStore SECRET_KEY key ;;;
      unawaited (showInformationMessage "API Key saved securely! 🔐" []) ;;;
      ret apiKey
  | None => ret apiKey
  end.

Definition ensureApiKey : Task W (option string) :=
  apiKey <~ getApiKey ;;
  if negb (truthyOption apiKey) then
    action <~ showWarningMessage
                "API Key not configured. Please set your l10n.dev API Key first."
                ["Set API Key"; "Get API Key"] ;;
    if chose action "Set API Key" then setApiKey
    else if chose action "Get API Key" then
      unawaited (openExternal URLS.API_KEYS) ;;;
      ret apiKey
    else ret apiKey
  else ret apiKey.

Definition clearApiKey : Task W unit :=
  secretsDelete SECRET_KEY ;;;
  configRemoveGlobal CONFIG.SECTION CONFIG.KEYS.API_KEY ;;;
  unawaited
    (showInformationMessage
       "API Key cleared. You can set a new one in the extension settings or using the 'Set API Key' command."
       []).

End ApiKeyManager.

End ApiKeyManager.

(** ** [src/translationService.ts]: the types of the service *)

Module Service.

Record Language : Type := mkLanguage {
  code : string;
  name : string
}.

(** [string | Record<string, any>], over the type of the records. *)
Inductive SourceStrings (JsonRecord : Type) : Type :=
| Text (s : string)
| Strings (r : JsonRecord).

Arguments Text {JsonRecord} s.
Arguments Strings {JsonRecord} r.

Record TranslationRequest (JsonRecord : Type) : Type := mkRequest {
  sourceStrings : SourceStrings JsonRecord;
  targetLanguageCode : string;
  useContractions : option bool;
  useShortening : option bool
}.

Arguments mkRequest {JsonRecord}.
Arguments sourceStrings {JsonRecord}.
Arguments targetLanguageCode {JsonRecord}.
Arguments useContractions {JsonRecord}.
Arguments useShortening {JsonRecord}.

Inductive FinishReason : Type :=
| stop
| length
| contentFilter
| insufficientBalance
| error.

Record TranslationUsage : Type := mkUsage {
  charsUsed : option N
}.

(** [resultLanguageCode] is the field [targetLanguageCode] of the
    result. *)
Record TranslationResult (JsonRecord : Type) : Type := mkResult {
  resultLanguageCode : string;
  translations : option JsonRecord;
  usage : TranslationUsage;
  finishReason : option FinishReason;
  completedChunks : N;
  totalChunks : N
}.

Arguments mkResult {JsonRecord}.
Arguments resultLanguageCode {JsonRecord}.
Arguments translations {JsonRecord}.
Arguments usage {JsonRecord}.
Arguments finishReason {JsonRecord}.
Arguments completedChunks {JsonRecord}.
Arguments totalChunks {JsonRecord}.

End Service.

(** ** [src/languageSelector.ts] *)

(** [s.startsWith(prefix)] *)
Definition startsWith (s prefix : string) : bool :=
  String.eqb (substring 0 (String.length prefix) s) prefix.

(** [s] between double quotes. *)
Definition quoted (s : string) : string :=
  String "034" (s ++ String "034" "").

Module LanguageSelector.

(** A result of type [string | null | undefined]. *)
Inductive Choice : Type :=
| Null
| Undefined
| Label (s : string).

Definition chosen (result : Choice) : option string :=
  match result with
  | Label s => Some s
  | _ => None
  end.

Section LanguageSelector.

Context {W : Type} {editor : Editor W}.

(** [this.translationService.predictLanguages(searchInput)] *)
Variable predictLanguages : string -> Task W (list Service.Language).

Definition detectedOptions (detectedLanguages : list string)
  : list QuickPickItem :=
  (map (fun lang =>
          {| label := lang; description := "Detected in project" |})
       detectedLanguages
   ++ [{| label := "$(search) Search for language...";
          description := "Type to select target language" |}])%list.

Definition showDetectedLanguagesQuickPick (detectedLanguages : list string)
  : Task W Choice :=
  selection <~ showQuickPick (detectedOptions detectedLanguages)
                 {| pickPlaceHolder := "Select target language";
                    matchOnDescription := true |} ;;
  match selection with
  | None => ret Null
  | Some selection =>
      if startsWith (label selection) "$(search)" then ret Undefined
      else ret (Label (label selection))
  end.

Definition showLanguageSearchInput : Task W Choice :=
  searchInput <~ showInputBox
                   {| prompt := "Type to select target language";
                      placeHolder :=
                        "e.g., " ++ quoted "spanish" ++ ", " ++ quoted "es"
                          ++ ", " ++ quoted "zh-CN";
                      password := false;
                      ignoreFocusOut := false |} ;;
  match whenTruthy searchInput with
  | None => ret Null
  | Some searchInput =>
      tryCatch
        (predictedLanguages <~ predictLanguages searchInput ;;
         match predictedLanguages with
         | [] =>
             unawaited
               (showWarningMessage "No languages found for your search." []) ;;;
             ret Undefined
         | _ :: _ =>
             let languageOptions :=
               map (fun lang =>
                      {| label := Service.code lang;
                         description := Service.name lang |})
                   predictedLanguages in
             languageSelection <~ showQuickPick languageOptions
                                    {| pickPlaceHolder :=
                                         "Select target language";
                                       matchOnDescription := false |} ;;
             match languageSelection with
             | None => ret Null
             | Some languageSelection => ret (Label (label languageSelection))
             end
         end)
        (fun error =>
           unawaited
             (showErrorMessage
                ("Failed to search languages: " ++ errorText error) []) ;;;
           ret Undefined)
  end.

Definition showManualLanguageInput : Task W (option string) :=
  showInputBox
    {| prompt := "Enter target language code (BCP-47 format)";
       placeHolder :=
         "e.g., " ++ quoted "es" ++ ", " ++ quoted "fr" ++ ", "
           ++ quoted "zh-CN" ++ ", " ++ quoted "en-US";
       password := false;
       ignoreFocusOut := false |}.

(** Step 3 of [selectTargetLanguage]. *)
Definition manualStep (targetLanguage : option string)
  : Task W (option string) :=
  if negb (truthyOption targetLanguage) then showManualLanguageInput
  else ret targetLanguage.

(** Steps 2 and 3 of [selectTargetLanguage]. *)
Definition searchStep (targetLanguage : option string)
  : Task W (option string) :=
  if negb (truthyOption targetLanguage) then
    result <~ showLanguageSearchInput ;;
    match result with
    | Null => ret None
    | _ => manualStep (chosen result)
    end
  else manualStep targetLanguage.

Definition selectTargetLanguage (detectedLanguages : list string)
  : Task W (option string) :=
  if (0 <? List.length detectedLanguages)%nat then
    result <~ showDetectedLanguagesQuickPick detectedLanguages ;;
    match result with
    | Null => ret None
    | _ => searchStep (chosen result)
    end
  else searchStep None.

End LanguageSelector.

End LanguageSelector.

(** ** [src/translationCommand.ts] *)

Module TranslationCommand.

Section TranslationCommand.

Context {W : Type} {fsOps : FileSystem W} {files : FileContents W}
        {editor : Editor W} {collator : Collator} {errors : ErrorMessages}.

(** The translations are a [Record<string, any>];
    [stringify] is [JSON.stringify(translations, null, 2)]. *)
Context {JsonRecord : Type}.
Variable stringify : JsonRecord -> string.

(** The collaborators handed to the command: [apiKeyManager.ensureApiKey],
    [languageSelector.selectTargetLanguage] and
    [translationService.translateJson]. *)
Variable ensureApiKey : Task W (option string).
Variable selectTargetLanguage : list string -> Task W (option string).
Variable translateJson :
  Service.TranslationRequest JsonRecord ->
  Task W (Service.TranslationResult JsonRecord).

(** [i18nProjectManager.detectLanguagesFromProject(path)], with its
    warnings on the console. *)
Definition detecting (path : string) : Task W (list string) :=
  fun w =>
    let '(languages, warnings) := detectLanguagesFromProject w path in
    fromCompletion languages
      (fold_left (fun w warning => consoleWarn (fst warning) (snd warning) w)
                 warnings w).

(** [i18nProjectManager.generateTargetFilePath(path, targetLanguage)] *)
Definition generating (fuel : nat) (path targetLanguage : string)
  : Task W string :=
  fun w =>
    match generateTargetFilePath fuel w path targetLanguage with
    | Normal (w', Some outputPath) => (Returned outputPath, w')
    | Normal (w', None) => (Unfinished, w')
    | Throw e => (Thrown (ErrorObject (messageOf e)), w)
    end.

(** The callback that [showTranslationSuccess] hands to [setTimeout]. *)
Definition successCallback (result : Service.TranslationResult JsonRecord)
           (outputPath : string) : Task W unit :=
  let charsUsed :=
    match Service.charsUsed (Service.usage result) with
    | Some n => n
    | None => 0%N
    end in
  let message :=
    "âœ… Translation completed! Used " ++ numberToString charsUsed
      ++ " characters. File saved as " ++ Path.basename outputPath None in
  action <~ showInformationMessage message ["Open File"] ;;
  if chose action "Open File" then
    doc <~ openTextDocument outputPath ;;
    showTextDocument doc
  else ret tt.

Definition showTranslationSuccess
           (result : Service.TranslationResult JsonRecord)
           (outputPath : string) : Task W unit :=
  effect (setTimeout (successCallback result outputPath) 100).

(** The task that [performTranslation] hands to [withProgress]. *)
Definition translationTask (fuel : nat) (fsPath targetLanguage : string)
  : Task W unit :=
  tryCatch
    (effect (progressReport "Sending translation request...") ;;;
     fileContent <~ (fun w => fromCompletion (readFileSync w fsPath) w) ;;
     normalizedTargetLanguage <~
       fromCompletion (normalizeLanguageCode targetLanguage) ;;
     useContractions <~
       reading (configGetBoolean CONFIG.SECTION CONFIG.KEYS.USE_CONTRACTIONS
                                 true) ;;
     useShortening <~
       reading (configGetBoolean CONFIG.SECTION CONFIG.KEYS.USE_SHORTENING
                                 false) ;;
     let request :=
       {| Service.sourceStrings := Service.Text fileContent;
          Service.targetLanguageCode := normalizedTargetLanguage;
          Service.useContractions := Some useContractions;
          Service.useShortening := Some useShortening |} in
     result <~ translateJson request ;;
     match Service.translations result with
     | None =>
         unawaited (showErrorMessage "No translation results received." [])
     | Some translations =>
         effect (progressReport "Saving translated file...") ;;;
         outputPath <~ generating fuel fsPath targetLanguage ;;
         let translatedContent := stringify translations in
         (fun w =>
            match writeFileSync w outputPath translatedContent with
            | Normal w' => (Returned tt, w')
            | Throw e => (Thrown (ErrorObject (messageOf e)), w)
            end) ;;;
         showTranslationSuccess result outputPath
     end)
    (fun error =>
       unawaited
         (showErrorMessage ("Translation failed: " ++ errorText error) [])).

Definition performTranslation (fuel : nat) (fsPath targetLanguage : string)
  : Task W unit :=
  withProgress ("Translating to " ++ targetLanguage ++ "...")
               (translationTask fuel fsPath targetLanguage).

(** [uri || vscode.window.activeTextEditor?.document.uri], by its
    [fsPath] *)
Definition fileUri (uri : option string) (w : W) : option string :=
  match uri with
  | Some u => Some u
  | None => activeDocument w
  end.

(** What [handleTranslateCommand] does once it has a target language. *)
Definition translateTo (fuel : nat) (fsPath targetLanguage : string)
  : Task W unit :=
  if validateLanguageCode targetLanguage then
    unawaited
      (showErrorMessage
         "Invalid language code format. Please use BCP-47 format." [])
  else performTranslation fuel fsPath targetLanguage.

Definition handleTranslateCommand (fuel : nat) (uri : option string)
  : Task W unit :=
  tryCatch
    (apiKey <~ ensureApiKey ;;
     if negb (truthyOption apiKey) then ret tt
     else
       fileUri <~ reading (fileUri uri) ;;
       match fileUri with
       | Some fsPath =>
           if endsWith fsPath ".json" then
             detectedLanguages <~ detecting fsPath ;;
             targetLanguage <~ selectTargetLanguage detectedLanguages ;;
             match whenTruthy targetLanguage with
             | Some targetLanguage => translateTo fuel fsPath targetLanguage
             | None => ret tt
             end
           else
             unawaited
               (showErrorMessage "Please select a JSON file to translate." [])
       | None =>
           unawaited
             (showErrorMessage "Please select a JSON file to translate." [])
       end)
    (fun error =>
       unawaited (showErrorMessage ("Error: " ++ errorText error) [])).

End TranslationCommand.

End TranslationCommand.

(** ** A world held in memory

    A disk with the contents of its files, the secret storage, the value
    of the setting [apiKey], the answers that the user will give to the
    prompts, in order, and the journal of what the editor was asked to
    show. *)

Record Desk : Type := mkDesk {
  disk : MemFS;
  texts : list (string * string);
  vault : list (string * string);
  setting : option string;
  answers : list (option string);
  journal : list string
}.

Definition written (d : Desk) (entry : string) : Desk :=
  mkDesk (disk d) (texts d) (vault d) (setting d) (answers d)
         (journal d ++ [entry])%list.

(** The next answer of the user; no answer when none is left. *)
Definition answered (d : Desk) : option string * Desk :=
  match answers d with
  | a :: rest =>
      (a, mkDesk (disk d) (texts d) (vault d) (setting d) rest (journal d))
  | [] => (None, d)
  end.

(** A message without items is shown; one with items waits for the
    answer. *)
Definition deskMessage (message : string) (items : list string)
  : Task Desk (option string) :=
  fun d =>
    match items with
    | [] => (Returned None, written d message)
    | _ :: _ =>
        let '(a, d') := answered (written d message) in (Returned a, d')
    end.

Definition deskLookup (k : string) (l : list (string * string))
  : option string :=
  option_map snd (find (fun e => String.eqb (fst e) k) l).

Definition deskRemove (k : string) (l : list (string * string))
  : list (string * string) :=
  filter (fun e => negb (String.eqb (fst e) k)) l.

#[global] Instance deskEditor : Editor Desk := {|
  secretsGet k := fun d => (Returned (deskLookup k (vault d)), d);
  secretsStore k v := fun d =>
    (Returned tt,
     mkDesk (disk d) (texts d) ((k, v) :: deskRemove k (vault d)) (setting d)
            (answers d) (journal d));
  secretsDelete k := fun d =>
    (Returned tt,
     mkDesk (disk d) (texts d) (deskRemove k (vault d)) (setting d)
            (answers d) (journal d));
  configGet section key := fun d =>
    if String.eqb key CONFIG.KEYS.API_KEY then setting d else None;
  configGetBoolean section key defaultValue := fun d => defaultValue;
  configRemoveGlobal section key := fun d =>
    (Returned tt,
     mkDesk (disk d) (texts d) (vault d) None (answers d) (journal d));
  showInformationMessage := deskMessage;
  showWarningMessage := deskMessage;
  showErrorMessage := deskMessage;
  showInputBox options := fun d =>
    let '(a, d') := answered (written d (prompt options)) in (Returned a, d');
  showQuickPick items options := fun d =>
    let '(a, d') := answered (written d (pickPlaceHolder options)) in
    (Returned
       match a with
       | Some l => find (fun item => String.eqb (label item) l) items
       | None => None
       end,
     d');
  activeDocument := fun d => None;
  withProgress title task := fun d => task (written d title);
  progressReport message := fun d => written d message;
  TextDocument := string;
  openTextDocument path := fun d => (Returned path, d);
  showTextDocument doc := fun d => (Returned tt, written d doc);
  openExternal url := fun d => (Returned true, written d url);
  setTimeout callback delay := fun d => d;
  consoleWarn message e := fun d => written d message
|}.

#[global] Instance deskFileSystem : FileSystem Desk := {|
  existsSync d p := existsSync (disk d) p;
  readdirSync d p := readdirSync (disk d) p;
  mkdirSync d p :=
    fs <- mkdirSync (disk d) p ;;
    Normal (mkDesk fs (texts d) (vault d) (setting d) (answers d) (journal d))
|}.

#[global] Instance deskFileContents : FileContents Desk := {|
  readFileSync d p :=
    match deskLookup p (texts d) with
    | Some s => Normal s
    | None => Throw (SystemError "ENOENT")
    end;
  writeFileSync d p s :=
    Normal
      (mkDesk (if existsSync (disk d) p then disk d
               else (disk d ++ [(p, false)])%list)
              ((p, s) :: deskRemove p (texts d)) (vault d) (setting d)
              (answers d) (journal d))
|}.

Definition deskErrors : ErrorMessages := {|
  messageOf e :=
    match e with
    | TypeError msg => msg
    | SystemError code => code
    end
|}.

(** A translation service that answers every request with the same
    record. *)
Definition fixedService {W : Type} (translated : string)
           (request : Service.TranslationRequest string)
  : Task W (Service.TranslationResult string) :=
  ret {| Service.resultLanguageCode := Service.targetLanguageCode request;
         Service.translations := Some translated;
         Service.usage := {| Service.charsUsed := Some 42%N |};
         Service.finishReason := Some Service.stop;
         Service.completedChunks := 1;
         Service.totalChunks := 1 |}.

(** ** Notions used to state the properties of the key manager *)

(** A task that leaves the secret storage as it is; [stored] reads the
    storage. *)
Definition keepsSecrets {W R : Type} (stored : W -> string -> option string)
           (t : Task W R) : Prop :=
  forall w k, stored (snd (t w)) k = stored w k.

(** What the key manager expects of the secret storage of the editor:
    [get] reads it, [store] writes it, and the configuration, the
    messages, the input box and the browser leave it alone. *)
Record SecretStorage {W : Type} {editor : Editor W}
       (stored : W -> string -> option string) : Prop := {
  get_reads :
    forall k w r w', secretsGet k w = (Returned r, w') -> r = stored w k;
  get_keeps : forall k, keepsSecrets stored (secretsGet k);
  store_writes :
    forall k v w w',
      secretsStore k v w = (Returned tt, w') -> stored w' k = Some v;
  remove_keeps :
    forall section key, keepsSecrets stored (configRemoveGlobal section key);
  information_keeps :
    forall m items, keepsSecrets stored (showInformationMessage m items);
  warning_keeps :
    forall m items, keepsSecrets stored (showWarningMessage m items);
  input_keeps : forall options, keepsSecrets stored (showInputBox options);
  external_keeps : forall url, keepsSecrets stored (openExternal url)
}.

(** The options of the quick pick over the detected languages. *)
Definition detectedPick : QuickPickOptions :=
  {| pickPlaceHolder := "Select target language";
     matchOnDescription := true |}.

(** The input box of the language search. *)
Definition searchBox : InputBoxOptions :=
  {| prompt := "Type to select target language";
     placeHolder :=
       "e.g., " ++ quoted "spanish" ++ ", " ++ quoted "es" ++ ", "
         ++ quoted "zh-CN";
     password := false;
     ignoreFocusOut := false |}.

(** The secret storage of the world held in memory. *)
Definition deskStored (d : Desk) (k : string) : option string :=
  deskLookup k (vault d).

(** The extension on the world held in memory: the key manager and the
    language selector of the source, a language search that finds
    nothing and a translation service that answers with the same record;
    the translations are their own text. *)
Definition deskSelect : list string -> Task Desk (option string) :=
  LanguageSelector.selectTargetLanguage (fun _ => ret []).

Definition deskCommand (fuel : nat) (uri : option string) : Task Desk unit :=
  TranslationCommand.handleTranslateCommand
    (collator := rootCollator) (errors := deskErrors)
    (fun translations => translations)
    ApiKeyManager.ensureApiKey deskSelect (fixedService "{}") fuel uri.

(** A project with four languages, a key in the secret storage and a user
    who answers the prompts with [answers]. *)
Definition office (answers : list (option string)) : Desk :=
  {| disk := foldersDisk;
     texts := [("/tmp/t/locales/en/common.json", "{}")];
     vault := [(ApiKeyManager.SECRET_KEY, "key-1")];
     setting := None;
     answers := answers;
     journal := [] |}.

(** ** [src/translationService.ts]: [translateJson]

    The body of a response is a value that [JSON.parse] has built; the
    error branch of [translateJson] looks into it without knowing its
    shape. *)

(** What the service does with a JavaScript number: its truthiness,
    [String(n)] and [n.toLocaleString()]. *)
Class Numbers (Num : Type) : Type := {
  numberTruthy : Num -> bool;
  numberText : Num -> string;
  numberLocaleText : Num -> string
}.

Module Json.

Section Values.

Context {Num : Type} {numbers : Numbers Num}.

(** [Undefined] is the value of a property that is not there.  The
    properties of an object are in the order of [Object.keys]. *)
#[local] Unset Elimination Schemes.

Inductive Value : Type :=
| Undefined
| Null
| Boolean (b : bool)
| Number (n : Num)
| Text (s : string)
| Array (items : list Value)
| Object (properties : list (string * Value)).

#[local] Set Elimination Schemes.

Definition truthyValue (v : Value) : bool :=
  match v with
  | Undefined | Null => false
  | Boolean b => b
  | Number n => numberTruthy n
  | Text s => truthy s
  | Array _ | Object _ => true
  end.

Fixpoint own (key : string) (properties : list (string * Value))
  : option Value :=
  match properties with
  | [] => None
  | (k, v) :: rest => if String.eqb k key then Some v else own key rest
  end.

(** [value?.key], for a key that no prototype defines. *)
Definition getOptional (v : Value) (key : string) : Value :=
  match v with
  | Object properties =>
      match own key properties with
      | Some x => x
      | None => Undefined
      end
  | _ => Undefined
  end.

(** [value.key], for a key that no prototype defines. *)
Definition get (v : Value) (key : string) : Completion Value :=
  match v with
  | Undefined =>
      Throw (TypeError
               ("Cannot read properties of undefined (reading '" ++ key
                  ++ "')"))
  | Null =>
      Throw (TypeError
               ("Cannot read properties of null (reading '" ++ key ++ "')"))
  | _ => Normal (getOptional v key)
  end.

(** [items.join(sep)], where [text] is [String(item)]: [undefined] and
    [null] give the empty string. *)
Definition joinWith (text : Value -> Completion string) (sep : string)
  : list Value -> Completion string :=
  fix go (items : list Value) : Completion string :=
    match items with
    | [] => Normal ""
    | item :: rest =>
        s <- match item with
             | Undefined | Null => Normal ""
             | _ => text item
             end ;;
        match rest with
        | [] => Normal s
        | _ :: _ => r <- go rest ;; Normal (s ++ sep ++ r)
        end
    end.

(** [String(value)].  An object without a property [toString] of its own
    is printed by [Object.prototype.toString]; with one, which is not a
    function, the conversion throws. *)
Fixpoint toText (v : Value) : Completion string :=
  match v with
  | Undefined => Normal "undefined"
  | Null => Normal "null"
  | Boolean b => Normal (if b then "true" else "false")
  | Number n => Normal (numberText n)
  | Text s => Normal s
  | Array items => joinWith toText "," items
  | Object properties =>
      match own "toString" properties with
      | Some _ => Throw (TypeError "Cannot convert object to primitive value")
      | None => Normal "[object Object]"
      end
  end.

Definition join (sep : string) (items : list Value) : Completion string :=
  joinWith toText sep items.

(** [Object.values(value)] *)
Definition values (properties : list (string * Value)) : list Value :=
  map snd properties.

(** [items.map((v) => (Array.isArray(v) ? v.join(" ") : v))] *)
Fixpoint joinInner (items : list Value) : Completion (list Value) :=
  match items with
  | [] => Normal []
  | v :: rest =>
      v' <- match v with
            | Array inner => s <- join " " inner ;; Normal (Text s)
            | _ => Normal v
            end ;;
      rest' <- joinInner rest ;;
      Normal (v' :: rest')
  end.

End Values.

Arguments Value Num : clear implicits.

End Json.

Module TranslationService.

Record Request : Type := mkRequest {
  url : string;
  method : string;
  headers : list (string * string);
  body : option string
}.

(** A response of [fetch]; [json] is the call [response.json()]. *)
Record Response (W Num : Type) : Type := mkResponse {
  ok : bool;
  status : N;
  statusText : string;
  json : Task W (Json.Value Num)
}.

Arguments ok {W Num}.
Arguments status {W Num}.
Arguments statusText {W Num}.
Arguments json {W Num}.

Class Network (W Num : Type) : Type := {
  fetch : Request -> Task W (Response W Num)
}.

Section TranslationService.

Context {W Num : Type} {numbers : Numbers Num} {network : Network W Num}
        {errors : ErrorMessages}.

(** [JSON.stringify(request)] *)
Context {JsonRecord : Type}.
Variable stringifyRequest : Service.TranslationRequest JsonRecord -> string.

(** [this.apiKeyManager.getApiKey()] *)
Variable getApiKey : Task W (option string).

Definition baseUrl : string := URLS.API_BASE.

(** The message for the status 400. *)
Definition validationMessage (errorData : Json.Value Num)
  : Completion string :=
  let validationMessage :=
    "Invalid request. Please check your input and try again." in
  if Json.truthyValue errorData then
    errorDetails <- Json.get errorData "errors" ;;
    if Json.truthyValue errorDetails then
      match errorDetails with
      | Json.Array items => Json.join " " items
      | Json.Object properties =>
          joined <- Json.joinInner (Json.values properties) ;;
          Json.join " " joined
      | _ => Normal validationMessage
      end
    else Normal validationMessage
  else Normal validationMessage.

(** The message for the status 402. *)
Definition balanceMessage (errorData : Json.Value Num) : string :=
  let message :=
    "Insufficient balance. Please top up your account to continue translating."
  in
  match Json.getOptional (Json.getOptional errorData "data")
                         "requiredCharactersForTranslation" with
  | Json.Number n =>
      if numberTruthy n then
        "Insufficient balance. You need " ++ numberLocaleText n
          ++ " characters to proceed with the translation. Please visit "
          ++ URLS.PRICING ++ " to purchase more characters."
      else message
  | _ => message
  end.

(** The message for the status 500. *)
Definition serverMessage (errorData : Json.Value Num) : Completion string :=
  let errorCode := Json.getOptional errorData "errorCode" in
  code <- (if Json.truthyValue errorCode then Json.toText errorCode
           else Normal "unknown") ;;
  Normal ("An internal server error occurred (Error code: " ++ code
            ++ "). Please try again later.").

(** The [switch] over [response.status]. *)
Definition errorMessage (status : N) (errorData : Json.Value Num)
  : Completion string :=
  if (status =? 400)%N then validationMessage errorData
  else if (status =? 401)%N then
    Normal "Invalid API Key. Please check your API Key."
  else if (status =? 402)%N then Normal (balanceMessage errorData)
  else if (status =? 413)%N then
    Normal "Request too large. Maximum request size is 10 MB."
  else if (status =? 500)%N then serverMessage errorData
  else
    Normal "Failed to translate. Please check your connection and try again.".

(** The [switch] over [result.finishReason]; [None] when the result is
    returned. *)
Definition finishError (finishReason : Json.Value Num) : option string :=
  if Json.truthyValue finishReason then
    match finishReason with
    | Json.Text reason =>
        if String.eqb reason "insufficientBalance" then
          Some ("Insufficient balance. Please visit " ++ URLS.PRICING
                  ++ " to purchase more characters.")
        else if String.eqb reason "contentFilter" then
          Some "Translation blocked by content filter."
        else if String.eqb reason "error" then
          Some "Translation failed due to an error."
        else None
    | _ => None
    end
  else None.

Definition throwError {R : Type} (message : string) : Task W R :=
  fun w => (Thrown (ErrorObject message), w).

(** The request that [translateJson] sends. *)
Definition posted (apiKey : string)
           (request : Service.TranslationRequest JsonRecord) : Request :=
  {| url := baseUrl ++ "/translate";
     method := "POST";
     headers := [("Content-Type", "application/json"); ("X-API-Key", apiKey)];
     body := Some (stringifyRequest request) |}.

Definition translateJson (request : Service.TranslationRequest JsonRecord)
  : Task W (Json.Value Num) :=
  apiKey <~ getApiKey ;;
  match whenTruthy apiKey with
  | None =>
      throwError "API Key not set. Please configure your API Key first."
  | Some apiKey =>
      response <~ fetch (posted apiKey request) ;;
      if negb (ok response) then
        errorData <~ tryCatch (json response) (fun _ => ret Json.Null) ;;
        errorMessage <~
          fromCompletion (errorMessage (status response) errorData) ;;
        throwError errorMessage
      else
        result <~ json response ;;
        finishReason <~ fromCompletion (Json.get result "finishReason") ;;
        match finishError finishReason with
        | Some message => throwError message
        | None => ret result
        end
  end.

End TranslationService.

End TranslationService.

(** A number service for natural numbers, without digit grouping, and a
    network that answers every request with the same response. *)
Definition plainNumbers : Numbers N := {|
  numberTruthy n := negb (n =? 0)%N;
  numberText := numberToString;
  numberLocaleText := numberToString
|}.

Definition answering (response : TranslationService.Response unit N)
  : TranslationService.Network unit N :=
  {| TranslationService.fetch := fun _ => ret response |}.

(** A response with the status 400 and the given body. *)
Definition badRequest (body : Json.Value N)
  : TranslationService.Response unit N :=
  {| TranslationService.ok := false;
     TranslationService.status := 400;
     TranslationService.statusText := "Bad Request";
     TranslationService.json := ret body |}.

(** * Properties *)

(** ** Character classes under the [i] flag *)

Ltac each_ascii c :=
  destruct c as [[] [] [] [] [] [] [] []]; vm_compute; reflexivity.

Lemma classMatches_lower (d : ascii) :
  classMatches true [range "a" "z"] d = isLetter d.
Proof. each_ascii d. Qed.

Lemma classMatches_upper (d : ascii) :
  classMatches true [range "A" "Z"] d = isLetter d.
Proof. each_ascii d. Qed.

Lemma classMatches_digit (d : ascii) :
  classMatches true [range "0" "9"] d = isDigit d.
Proof. each_ascii d. Qed.

Lemma charMatches_hyphen (d : ascii) :
  charMatches true "-" d = Ascii.eqb d "-".
Proof. each_ascii d. Qed.

Lemma isLetter_hyphen : isLetter "-" = false.
Proof. reflexivity. Qed.

Lemma isDigit_hyphen : isDigit "-" = false.
Proof. reflexivity. Qed.

Lemma isLetter_not_digit (c : ascii) : isLetter c = true -> isDigit c = false.
Proof. destruct c as [[] [] [] [] [] [] [] []]; vm_compute; congruence. Qed.

(** ** The matcher on [languageCodePattern] *)

(** The pattern starts with [^]: an attempt at a later offset fails. *)
Lemma execFrom_anchored (input rest : string) (p : nat) :
  execFrom true input languageCodePattern (S p) rest = None.
Proof.
  revert p. induction rest as [|c rest IH]; intros p.
  - reflexivity.
  - cbn [execFrom]. rewrite IH. reflexivity.
Qed.

Lemma exec_anchored (s : string) :
  exec languageCodeRegex s =
  matchRegex true s languageCodePattern 0 s [] (fun _ _ caps => Some caps).
Proof.
  unfold exec. cbn [ignoreCase pattern languageCodeRegex].
  destruct s as [|c s].
  - reflexivity.
  - cbn [execFrom]. rewrite execFrom_anchored.
    destruct (matchRegex _ _ _ _ _ _ _); reflexivity.
Qed.

Ltac regex_step :=
  match goal with
  | |- context [match ?s with EmptyString => _ | String _ _ => _ end] =>
      is_var s; destruct s as [|? ?]
  | |- context [Ascii.eqb ?c "-"] =>
      is_var c; destruct (Ascii.eqb_spec c "-");
      [subst c; rewrite ?isLetter_hyphen, ?isDigit_hyphen|]
  | |- context [isLetter ?c] => is_var c; destruct (isLetter c) eqn:?
  | |- context [isDigit ?c] => is_var c; destruct (isDigit c) eqn:?
  end.

Ltac regex_eval :=
  cbn [matchRegex Nat.eqb setCapture slice substring Nat.sub];
  rewrite ?classMatches_lower, ?classMatches_upper, ?classMatches_digit,
          ?charMatches_hyphen.

Ltac use_class_facts :=
  repeat match goal with
         | H : isLetter _ = _ |- _ => rewrite H
         | H : isDigit _ = _ |- _ => rewrite H
         end.

(** Every match decomposes the input into well-formed subtags, and the
    named groups hold exactly these subtags. *)
Lemma exec_sound (s : string) (caps : Captures) :
  exec languageCodeRegex s = Some caps ->
  exists l sc rg,
    lookup "language" caps = Some l /\ lookup "script" caps = sc /\
    lookup "region" caps = rg /\
    s = assemble l sc rg /\ wellFormed l sc rg = true.
Proof.
  rewrite exec_anchored. unfold languageCodePattern.
  regex_eval.
  repeat (regex_step; regex_eval).
  all: try discriminate.
  all: intros [= <-]; do 3 eexists.
  all: split; [reflexivity|split; [reflexivity|split; [reflexivity|]]].
  all: split; [reflexivity|].
  all: unfold wellFormed, isLanguage, isScript, isRegion, optional.
  all: cbn -[isLetter isDigit]; use_class_facts; reflexivity.
Qed.

Lemma isDigit_not_letter (c : ascii) : isDigit c = true -> isLetter c = false.
Proof. destruct c as [[] [] [] [] [] [] [] []]; vm_compute; congruence. Qed.

Ltac split_andb :=
  repeat match goal with
         | H : (_ && _)%bool = true |- _ =>
             apply andb_true_iff in H; destruct H
         | H : isDigit ?c = true |- _ =>
             lazymatch goal with
             | _ : isLetter c = false |- _ => fail
             | _ => pose proof (isDigit_not_letter c H)
             end
         end.

Ltac regex_run :=
  repeat (cbn [matchRegex Nat.eqb setCapture slice substring Nat.sub];
          rewrite ?classMatches_lower, ?classMatches_upper,
                  ?classMatches_digit, ?charMatches_hyphen,
                  ?isLetter_hyphen, ?isDigit_hyphen, ?Ascii.eqb_refl;
          use_class_facts).

(** The matcher accepts every well-formed assembly of subtags and reports
    the subtags in its named groups. *)
Lemma exec_complete (l : string) (sc rg : option string) :
  wellFormed l sc rg = true ->
  exists caps,
    exec languageCodeRegex (assemble l sc rg) = Some caps /\
    lookup "language" caps = Some l /\ lookup "script" caps = sc /\
    lookup "region" caps = rg.
Proof.
  unfold wellFormed. intros H.
  apply andb_true_iff in H. destruct H as [H Hrg].
  apply andb_true_iff in H. destruct H as [Hl Hsc].
  rewrite exec_anchored. unfold languageCodePattern.
  destruct l as [|a [|b [|c [|d l]]]]; try discriminate Hl.
  all: destruct sc as [[|s1 [|s2 [|s3 [|s4 [|s5 sc]]]]]|]; try discriminate Hsc.
  all: destruct rg as [[|r1 [|r2 [|r3 [|r4 rg]]]]|]; try discriminate Hrg.
  all: unfold isLanguage, isScript, isRegion, optional in *.
  all: cbn -[isLetter isDigit] in Hl, Hsc, Hrg.
  all: try (apply orb_true_iff in Hrg; destruct Hrg as [Hrg|Hrg]).
  all: try discriminate.
  all: split_andb.
  all: unfold assemble, subtag; cbn [append].
  all: regex_run.
  all: eexists; split; [reflexivity|].
  all: split; [reflexivity|split; reflexivity].
Qed.

(** [test] accepts exactly the well-formed assemblies. *)
Lemma test_true_iff (s : string) :
  test languageCodeRegex s = true <->
  exists l sc rg, s = assemble l sc rg /\ wellFormed l sc rg = true.
Proof.
  unfold test. split.
  - destruct (exec languageCodeRegex s) as [caps|] eqn:E; [|discriminate].
    intros _. destruct (exec_sound s caps E) as (l & sc & rg & _ & _ & _ & H).
    exists l, sc, rg. exact H.
  - intros (l & sc & rg & -> & Hwf).
    destruct (exec_complete l sc rg Hwf) as (caps & -> & _). reflexivity.
Qed.

Lemma test_nonempty (s : string) :
  test languageCodeRegex s = true -> s <> "".
Proof. intros H ->. discriminate H. Qed.

(** ** Case mapping *)

Lemma isLetter_lowerChar (c : ascii) : isLetter (lowerChar c) = isLetter c.
Proof. each_ascii c. Qed.

Lemma isLetter_upperChar (c : ascii) : isLetter (upperChar c) = isLetter c.
Proof. each_ascii c. Qed.

Lemma isDigit_upperChar (c : ascii) : isDigit (upperChar c) = isDigit c.
Proof. each_ascii c. Qed.

Lemma lowerChar_idem (c : ascii) : lowerChar (lowerChar c) = lowerChar c.
Proof. each_ascii c. Qed.

Lemma upperChar_idem (c : ascii) : upperChar (upperChar c) = upperChar c.
Proof. each_ascii c. Qed.

Lemma length_mapChars (f : ascii -> ascii) (s : string) :
  String.length (mapChars f s) = String.length s.
Proof. induction s as [|c s IH]; cbn; congruence. Qed.

Lemma forallChars_mapChars (p : ascii -> bool) (f : ascii -> ascii) :
  (forall c, p (f c) = p c) ->
  forall s, forallChars p (mapChars f s) = forallChars p s.
Proof.
  intros Hpf s. induction s as [|c s IH]; cbn; [reflexivity|].
  rewrite Hpf, IH. reflexivity.
Qed.

Lemma mapChars_idem (f : ascii -> ascii) :
  (forall c, f (f c) = f c) ->
  forall s, mapChars f (mapChars f s) = mapChars f s.
Proof.
  intros Hf s. induction s as [|c s IH]; cbn; [reflexivity|].
  rewrite Hf, IH. reflexivity.
Qed.

Lemma substring_all (s : string) : substring 0 (String.length s) s = s.
Proof. induction s as [|c s IH]; cbn; congruence. Qed.

Lemma canonScript_cons (c : ascii) (s : string) :
  canonScript (String c s) = String (upperChar c) (toLowerCase s).
Proof.
  unfold canonScript, charAt, sliceFrom. cbn.
  rewrite Nat.sub_0_r, substring_all. reflexivity.
Qed.

Lemma isLanguage_canon (l : string) :
  isLanguage (canonLanguage l) = isLanguage l.
Proof.
  unfold isLanguage, canonLanguage, toLowerCase.
  rewrite length_mapChars, (forallChars_mapChars _ _ isLetter_lowerChar).
  reflexivity.
Qed.

Lemma isScript_canon (sc : string) :
  isScript (canonScript sc) = isScript sc.
Proof.
  destruct sc as [|c s]; [reflexivity|].
  rewrite canonScript_cons. unfold isScript, toLowerCase. cbn.
  rewrite length_mapChars, (forallChars_mapChars _ _ isLetter_lowerChar).
  rewrite isLetter_upperChar. reflexivity.
Qed.

Lemma isRegion_canon (rg : string) :
  isRegion (canonRegion rg) = isRegion rg.
Proof.
  unfold isRegion, canonRegion, toUpperCase.
  rewrite length_mapChars, (forallChars_mapChars _ _ isLetter_upperChar),
    (forallChars_mapChars _ _ isDigit_upperChar).
  reflexivity.
Qed.

Lemma canonScript_idem (sc : string) :
  canonScript (canonScript sc) = canonScript sc.
Proof.
  destruct sc as [|c s]; [reflexivity|].
  rewrite !canonScript_cons. unfold toLowerCase.
  rewrite upperChar_idem, (mapChars_idem _ lowerChar_idem). reflexivity.
Qed.

Lemma wellFormed_canon (l : string) (sc rg : option string) :
  wellFormed (canonLanguage l) (option_map canonScript sc)
             (option_map canonRegion rg) = wellFormed l sc rg.
Proof.
  unfold wellFormed. rewrite isLanguage_canon.
  destruct sc as [sc|], rg as [rg|]; cbn [option_map optional];
    rewrite ?isScript_canon, ?isRegion_canon; reflexivity.
Qed.

Lemma isScript_truthy (sc : string) : isScript sc = true -> truthy sc = true.
Proof. destruct sc; [discriminate|reflexivity]. Qed.

Lemma isRegion_truthy (rg : string) : isRegion rg = true -> truthy rg = true.
Proof. destruct rg; [discriminate|reflexivity]. Qed.

Lemma append_assoc (a b c : string) : (a ++ b) ++ c = a ++ (b ++ c).
Proof. induction a as [|x a IH]; cbn; congruence. Qed.

Lemma append_empty_r (a : string) : a ++ "" = a.
Proof. induction a as [|x a IH]; cbn; congruence. Qed.

(** [normalizeLanguageCode] on a well-formed tag. *)
Lemma normalize_wellFormed (l : string) (sc rg : option string) :
  wellFormed l sc rg = true ->
  normalizeLanguageCode (assemble l sc rg) = Normal (canonical l sc rg).
Proof.
  intros Hwf. unfold normalizeLanguageCode.
  destruct (exec_complete l sc rg Hwf) as (caps & -> & -> & -> & ->).
  unfold wellFormed in Hwf.
  apply andb_true_iff in Hwf. destruct Hwf as [Hwf Hrg].
  apply andb_true_iff in Hwf. destruct Hwf as [_ Hsc].
  unfold canonical, assemble, canonLanguage. cbn [required bindC].
  destruct sc as [sc|], rg as [rg|]; cbn [optional] in Hsc, Hrg;
    cbn [whenTruthy option_map subtag];
    rewrite ?(isScript_truthy _ Hsc), ?(isRegion_truthy _ Hrg);
    unfold canonScript, canonRegion;
    rewrite ?append_assoc, ?append_empty_r; reflexivity.
Qed.

Lemma canonical_idem (l : string) (sc rg : option string) :
  canonical (canonLanguage l) (option_map canonScript sc)
            (option_map canonRegion rg) = canonical l sc rg.
Proof.
  unfold canonical, canonLanguage, canonRegion, toLowerCase, toUpperCase.
  rewrite (mapChars_idem _ lowerChar_idem).
  destruct sc as [sc|], rg as [rg|]; cbn [option_map];
    rewrite ?canonScript_idem, ?(mapChars_idem _ upperChar_idem);
    reflexivity.
Qed.

Lemma isLower_lowerChar (c : ascii) :
  isLetter c = true -> isLower (lowerChar c) = true.
Proof. destruct c as [[] [] [] [] [] [] [] []]; vm_compute; congruence. Qed.

Lemma isUpper_upperChar (c : ascii) :
  isLetter c = true -> isUpper (upperChar c) = true.
Proof. destruct c as [[] [] [] [] [] [] [] []]; vm_compute; congruence. Qed.

Lemma lowercased_toLowerCase (s : string) :
  forallChars isLetter s = true -> lowercased (toLowerCase s) = true.
Proof.
  unfold lowercased, toLowerCase.
  induction s as [|c s IH]; cbn; [reflexivity|].
  intros H. apply andb_true_iff in H. destruct H as [Hc Hs].
  rewrite (isLower_lowerChar c Hc), (IH Hs). reflexivity.
Qed.

Lemma uppercased_toUpperCase (s : string) :
  forallChars isLetter s = true \/ forallChars isDigit s = true ->
  uppercased (toUpperCase s) = true.
Proof.
  unfold uppercased, toUpperCase.
  induction s as [|c s IH]; cbn; [reflexivity|].
  intros [H|H]; apply andb_true_iff in H; destruct H as [Hc Hs].
  - rewrite (isUpper_upperChar c Hc), IH by (left; exact Hs). reflexivity.
  - rewrite isDigit_upperChar, Hc, orb_true_r, IH by (right; exact Hs).
    reflexivity.
Qed.

(** The casing of the three subtags of a canonical tag. *)
Lemma canonical_casing (l : string) (sc rg : option string) :
  wellFormed l sc rg = true ->
  lowercased (canonLanguage l) = true /\
  optional capitalized (option_map canonScript sc) = true /\
  optional uppercased (option_map canonRegion rg) = true.
Proof.
  unfold wellFormed. intros H.
  apply andb_true_iff in H. destruct H as [H Hrg].
  apply andb_true_iff in H. destruct H as [Hl Hsc].
  split; [|split].
  - unfold isLanguage in Hl. apply andb_true_iff in Hl.
    apply lowercased_toLowerCase, Hl.
  - destruct sc as [[|c sc]|]; try reflexivity; try discriminate Hsc.
    cbn [option_map optional]. rewrite canonScript_cons.
    unfold isScript in Hsc. cbn [forallChars] in Hsc.
    apply andb_true_iff in Hsc. destruct Hsc as [_ Hsc].
    apply andb_true_iff in Hsc. destruct Hsc as [Hc Hsc].
    cbn [capitalized]. rewrite (isUpper_upperChar c Hc).
    apply (lowercased_toLowerCase sc Hsc).
  - destruct rg as [rg|]; [|reflexivity].
    cbn [option_map optional] in *. apply uppercased_toUpperCase.
    unfold isRegion in Hrg. apply orb_true_iff in Hrg.
    destruct Hrg as [Hrg|Hrg]; apply andb_true_iff in Hrg;
      [left|right]; apply Hrg.
Qed.

(** ** Normalisation *)

(** C6: when the code matches the language-tag pattern,
    [normalizeLanguageCode] returns its subtags in canonical casing (the
    language in lower case, the script capitalised, the region in upper
    case); when it does not match, the code is returned unchanged; and no
    input makes it throw.  [normalize("ZH-hans-CN")] is ["zh-Hans-CN"] and
    [normalize("invalid-code")] is ["invalid-code"]. *)
Theorem normalize_canonical_or_unchanged :
  (forall code,
      test languageCodeRegex code = true ->
      exists l sc rg,
        code = assemble l sc rg /\ wellFormed l sc rg = true /\
        normalizeLanguageCode code = Normal (canonical l sc rg) /\
        lowercased (canonLanguage l) = true /\
        optional capitalized (option_map canonScript sc) = true /\
        optional uppercased (option_map canonRegion rg) = true) /\
  (forall code,
      test languageCodeRegex code = false ->
      normalizeLanguageCode code = Normal code) /\
  (forall code, exists r, normalizeLanguageCode code = Normal r) /\
  normalizeLanguageCode "ZH-hans-CN" = Normal "zh-Hans-CN" /\
  normalizeLanguageCode "invalid-code" = Normal "invalid-code".
Proof.
  assert (Hmatch : forall code,
             test languageCodeRegex code = true ->
             exists l sc rg,
               code = assemble l sc rg /\ wellFormed l sc rg = true /\
               normalizeLanguageCode code = Normal (canonical l sc rg)).
  { intros code H. apply test_true_iff in H.
    destruct H as (l & sc & rg & -> & Hwf).
    exists l, sc, rg. split; [reflexivity|]. split; [exact Hwf|].
    apply normalize_wellFormed, Hwf. }
  assert (Hmiss : forall code,
             test languageCodeRegex code = false ->
             normalizeLanguageCode code = Normal code).
  { intros code H. unfold normalizeLanguageCode. unfold test in H.
    destruct (exec languageCodeRegex code); [discriminate|reflexivity]. }
  split; [|split; [exact Hmiss|split; [|split; reflexivity]]].
  - intros code H. destruct (Hmatch code H) as (l & sc & rg & E & Hwf & Hn).
    exists l, sc, rg. repeat (split; [assumption|]).
    apply canonical_casing, Hwf.
  - intros code. destruct (test languageCodeRegex code) eqn:E.
    + destruct (Hmatch code E) as (l & sc & rg & _ & _ & Hn).
      eexists. exact Hn.
    + eexists. apply Hmiss, E.
Qed.

Lemma normalize_canonical_or_unchanged_witness :
  (exists l sc rg,
      "fr-latn-ca" = assemble l sc rg /\ wellFormed l sc rg = true /\
      normalizeLanguageCode "fr-latn-ca" = Normal (canonical l sc rg) /\
      lowercased (canonLanguage l) = true /\
      optional capitalized (option_map canonScript sc) = true /\
      optional uppercased (option_map canonRegion rg) = true) /\
  normalizeLanguageCode "not a tag" = Normal "not a tag".
Proof.
  split.
  - apply (proj1 normalize_canonical_or_unchanged "fr-latn-ca"). reflexivity.
  - apply (proj1 (proj2 normalize_canonical_or_unchanged) "not a tag").
    reflexivity.
Defined.

(** C7: on every code that [validateLanguageCode] accepts,
    [normalizeLanguageCode] is idempotent: it returns some [n], and
    normalising [n] returns [n] again. *)
Theorem normalize_idempotent (t : string) :
  validateLanguageCode t = true ->
  exists n,
    normalizeLanguageCode t = Normal n /\
    normalizeLanguageCode n = Normal n.
Proof.
  unfold validateLanguageCode. intros H.
  apply andb_true_iff in H. destruct H as [_ H].
  apply test_true_iff in H. destruct H as (l & sc & rg & -> & Hwf).
  exists (canonical l sc rg). split.
  - apply normalize_wellFormed, Hwf.
  - unfold canonical at 1. rewrite normalize_wellFormed.
    + rewrite canonical_idem. reflexivity.
    + rewrite wellFormed_canon. exact Hwf.
Qed.

Lemma normalize_idempotent_witness :
  exists n,
    normalizeLanguageCode "ZH-hans-CN" = Normal n /\
    normalizeLanguageCode n = Normal n.
Proof. apply (normalize_idempotent "ZH-hans-CN"). reflexivity. Defined.

(** ** Strings and indices *)

Lemma length_append (a b : string) :
  String.length (a ++ b) = String.length a + String.length b.
Proof. induction a as [|x a IH]; cbn; congruence. Qed.

Lemma get_append_l (a b : string) (i : nat) :
  i < String.length a -> String.get i (a ++ b) = String.get i a.
Proof.
  revert i. induction a as [|x a IH]; intros i Hi; cbn in *; [lia|].
  destruct i as [|i]; [reflexivity|]. apply IH. lia.
Qed.

Lemma get_append_r (a b : string) (i : nat) :
  String.get (String.length a + i) (a ++ b) = String.get i b.
Proof. induction a as [|x a IH]; cbn; [reflexivity|exact IH]. Qed.

Lemma substring_append_l (a b : string) :
  substring 0 (String.length a) (a ++ b) = a.
Proof.
  induction a as [|x a IH]; cbn; [destruct b; reflexivity|congruence].
Qed.

Lemma substring_append_r (a b : string) (n m : nat) :
  substring (String.length a + n) m (a ++ b) = substring n m b.
Proof. induction a as [|x a IH]; cbn; [reflexivity|exact IH]. Qed.

Lemma slice_append_l (a b : string) :
  Path.sliceZ (a ++ b) 0 (Path.len a) = a.
Proof.
  unfold Path.sliceZ, Path.len, slice. rewrite Nat2Z.id. cbn [Z.to_nat].
  rewrite Nat.sub_0_r. apply substring_append_l.
Qed.

Lemma slice_append_r (a b : string) :
  Path.sliceZ (a ++ b) (Path.len a) (Path.len (a ++ b)) = b.
Proof.
  unfold Path.sliceZ, Path.len, slice. rewrite !Nat2Z.id, length_append.
  replace (String.length a + String.length b - String.length a)
    with (String.length b) by lia.
  rewrite <- (Nat.add_0_r (String.length a)) at 1.
  rewrite substring_append_r. apply substring_all.
Qed.

Lemma slice_middle (a b c : string) :
  Path.sliceZ (a ++ b ++ c) (Path.len a) (Path.len a + Path.len b) = b.
Proof.
  unfold Path.sliceZ, Path.len, slice.
  rewrite <- Nat2Z.inj_add, !Nat2Z.id.
  replace (String.length a + String.length b - String.length a)
    with (String.length b) by lia.
  rewrite <- (Nat.add_0_r (String.length a)) at 1.
  rewrite substring_append_r. apply substring_append_l.
Qed.

Lemma slashFree_get (s : string) (i : nat) :
  Path.slashFree s = true ->
  Path.codeIs (Path.charCodeAt s i) Path.slash = false.
Proof.
  unfold Path.slashFree, Path.charCodeAt. revert i.
  induction s as [|c s IH]; intros i Hs; cbn in *; [reflexivity|].
  apply andb_true_iff in Hs. destruct Hs as [Hc Hs].
  destruct i as [|i]; [|apply IH, Hs].
  cbn. apply negb_true_iff, Hc.
Qed.

Lemma isFileName_inv (s : string) :
  Path.isFileName s = true ->
  Path.slashFree s = true /\ 0 < String.length s.
Proof.
  unfold Path.isFileName. intros H. apply andb_true_iff in H.
  destruct H as [Hne Hs]. split; [exact Hs|].
  destruct s; [discriminate Hne|cbn; lia].
Qed.

(** The char codes of [x ++ "/" ++ nm]: a separator at [length x], then
    the characters of [nm]. *)
Lemma code_at_separator (x nm : string) :
  Path.codeIs (Path.charCodeAt (x ++ String "/" nm) (String.length x))
              Path.slash = true.
Proof.
  unfold Path.charCodeAt.
  rewrite <- (Nat.add_0_r (String.length x)), get_append_r. reflexivity.
Qed.

Lemma code_in_name (x nm : string) (j : nat) :
  Path.slashFree nm = true -> String.length x < j ->
  Path.codeIs (Path.charCodeAt (x ++ String "/" nm) j) Path.slash = false.
Proof.
  intros Hs Hj. unfold Path.charCodeAt.
  replace j with (String.length x + S (j - String.length x - 1)) by lia.
  rewrite get_append_r. cbn [String.get]. apply (slashFree_get nm _ Hs).
Qed.

(** ** [dirname] *)

Lemma dirnameLoop_skip (path : string) (i k : nat) :
  (forall j, i < j -> Path.codeIs (Path.charCodeAt path j) Path.slash = false) ->
  forall ms, Path.dirnameLoop path (i + S k) ms = Path.dirnameLoop path i false.
Proof.
  intros Hfree. induction k as [|k IH]; intros ms.
  - rewrite Nat.add_1_r. cbn [Path.dirnameLoop].
    rewrite Hfree by lia. reflexivity.
  - replace (i + S (S k)) with (S (i + S k)) by lia.
    cbn [Path.dirnameLoop]. rewrite Hfree by lia. apply IH.
Qed.

Lemma dirnameLoop_name (x nm : string) :
  Path.isFileName nm = true ->
  Path.dirnameLoop (x ++ String "/" nm)
                   (String.length (x ++ String "/" nm) - 1) true =
  match String.length x with
  | O => (-1)%Z
  | S _ => Path.len x
  end.
Proof.
  intros Hnm. apply isFileName_inv in Hnm. destruct Hnm as [Hs Hlen].
  rewrite length_append. cbn [String.length].
  replace (String.length x + S (String.length nm) - 1)
    with (String.length x + S (String.length nm - 1)) by lia.
  rewrite dirnameLoop_skip by (intros j Hj; apply code_in_name; assumption).
  pose proof (code_at_separator x nm) as Hsep.
  unfold Path.len. destruct (String.length x) as [|n]; [reflexivity|].
  cbn [Path.dirnameLoop]. rewrite Hsep. reflexivity.
Qed.

(** The directory of [x/nm] is [x], as long as [x] is neither empty nor
    the root. *)
Lemma dirname_append (x nm : string) :
  Path.isFileName nm = true -> x <> "" -> x <> "/" ->
  Path.dirname (x ++ String "/" nm) = x.
Proof.
  intros Hnm Hx Hroot. unfold Path.dirname.
  rewrite (dirnameLoop_name x nm Hnm).
  destruct x as [|c x]; [congruence|].
  cbn [append String.length Nat.eqb]. unfold Path.len. cbn [String.length].
  replace (Z.of_nat (S (String.length x)) =? -1)%Z with false
    by (symmetry; apply Z.eqb_neq; lia).
  assert (Hend : (Path.codeIs (Path.charCodeAt (String c (x ++ String "/" nm)) 0)
                              Path.slash
                  && (Z.of_nat (S (String.length x)) =? 1)%Z) = false).
  { apply andb_false_iff. cbn [Path.codeIs Path.charCodeAt String.get].
    destruct (Ascii.eqb_spec c Path.slash) as [->|]; [right|left; reflexivity].
    apply Z.eqb_neq. unfold Path.slash in Hroot.
    destruct x; [congruence|cbn [String.length]; lia]. }
  rewrite Hend.
  exact (slice_append_l (String c x) (String "/" nm)).
Qed.

Lemma dirname_root_append (nm : string) :
  Path.isFileName nm = true ->
  Path.dirname (String "/" (String "/" nm)) = "//".
Proof.
  intros Hnm. change (String "/" (String "/" nm)) with ("/" ++ String "/" nm).
  unfold Path.dirname.
  rewrite (dirnameLoop_name "/" nm Hnm). reflexivity.
Qed.

(** [dirnameLoop] ends at [-1] or at an index from 1 to [i]. *)
Lemma dirnameLoop_range (path : string) (i : nat) (ms : bool) :
  let e := Path.dirnameLoop path i ms in
  (e = -1 \/ 1 <= e <= Z.of_nat i)%Z.
Proof.
  revert ms. induction i as [|i IH]; intros ms; cbn [Path.dirnameLoop].
  - left. reflexivity.
  - destruct (Path.codeIs _ _); [destruct ms; cbn [negb]|].
    + destruct (IH true) as [E|E]; [left; exact E|right; lia].
    + right. lia.
    + destruct (IH false) as [E|E]; [left; exact E|right; lia].
Qed.

Lemma substring_length (s : string) (n : nat) :
  n <= String.length s -> String.length (substring 0 n s) = n.
Proof.
  revert n. induction s as [|c s IH]; intros n Hn; cbn in *.
  - destruct n; [reflexivity|lia].
  - destruct n as [|n]; [reflexivity|]. cbn. rewrite IH by lia. reflexivity.
Qed.

Lemma dirname_nonempty (path : string) : Path.dirname path <> "".
Proof.
  unfold Path.dirname.
  destruct (String.length path =? 0)%nat eqn:Elen; [discriminate|].
  apply Nat.eqb_neq in Elen.
  pose proof (dirnameLoop_range path (String.length path - 1) true) as Hr.
  cbv zeta in Hr.
  destruct (Path.dirnameLoop path (String.length path - 1) true =? -1)%Z
    eqn:E1.
  - destruct (Path.codeIs _ _); discriminate.
  - apply Z.eqb_neq in E1. destruct Hr as [Hr|Hr]; [contradiction|].
    destruct (_ && _); [discriminate|].
    intros Hempty.
    assert (Hl : String.length
                   (Path.sliceZ path 0
                      (Path.dirnameLoop path (String.length path - 1) true))
                 = Z.to_nat
                     (Path.dirnameLoop path (String.length path - 1) true)).
    { unfold Path.sliceZ, slice. cbn [Z.to_nat]. rewrite Nat.sub_0_r.
      apply substring_length. lia. }
    rewrite Hempty in Hl. cbn in Hl. lia.
Qed.

(** ** [basename] *)

Lemma basenameLoop_skip (path : string) (i k : nat) (start end_ : Z)
      (ms : bool) :
  (forall j, i <= j ->
             Path.codeIs (Path.charCodeAt path j) Path.slash = false) ->
  end_ <> (-1)%Z ->
  Path.basenameLoop path (i + k) (start, end_, ms) =
  Path.basenameLoop path i (start, end_, ms).
Proof.
  intros Hfree Hend. induction k as [|k IH].
  - rewrite Nat.add_0_r. reflexivity.
  - replace (i + S k) with (S (i + k)) by lia.
    cbn [Path.basenameLoop]. rewrite Hfree by lia.
    apply Z.eqb_neq in Hend. rewrite Hend. exact IH.
Qed.

Lemma basenameLoop_enter (path : string) (i k : nat) :
  (forall j, i <= j ->
             Path.codeIs (Path.charCodeAt path j) Path.slash = false) ->
  Path.basenameLoop path (i + S k) (0, -1, true)%Z =
  Path.basenameLoop path i (0, Z.of_nat (i + k) + 1, false)%Z.
Proof.
  intros Hfree. replace (i + S k) with (S (i + k)) by lia.
  cbn [Path.basenameLoop]. rewrite Hfree by lia. cbn [Z.eqb].
  apply basenameLoop_skip; [exact Hfree|lia].
Qed.

(** The base name of [x/nm] is [nm]. *)
Lemma basename_append (x nm : string) :
  Path.isFileName nm = true ->
  Path.basename (x ++ String "/" nm) None = nm.
Proof.
  intros Hnm. apply isFileName_inv in Hnm. destruct Hnm as [Hs Hlen].
  unfold Path.basename. rewrite length_append. cbn [String.length].
  replace (String.length x + S (String.length nm))
    with (S (String.length x) + S (String.length nm - 1)) by lia.
  rewrite basenameLoop_enter
    by (intros j Hj; apply code_in_name; [exact Hs|lia]).
  cbn [Path.basenameLoop]. rewrite code_at_separator. cbn [negb].
  replace (Z.of_nat (S (String.length x) + (String.length nm - 1)) + 1 =? -1)%Z
    with false by (symmetry; apply Z.eqb_neq; lia).
  replace (Z.of_nat (S (String.length x) + (String.length nm - 1)) + 1)%Z
    with (Path.len ((x ++ "/") ++ nm))
    by (unfold Path.len; rewrite !length_append; cbn [String.length]; lia).
  replace (Z.of_nat (String.length x) + 1)%Z with (Path.len (x ++ "/"))
    by (unfold Path.len; rewrite length_append; cbn [String.length]; lia).
  replace (x ++ String "/" nm) with ((x ++ "/") ++ nm)
    by (rewrite append_assoc; reflexivity).
  apply slice_append_r.
Qed.

(** The base name of a file name is the file name. *)
Lemma basename_name (nm : string) :
  Path.isFileName nm = true -> Path.basename nm None = nm.
Proof.
  intros Hnm. apply isFileName_inv in Hnm. destruct Hnm as [Hs Hlen].
  unfold Path.basename.
  replace (String.length nm) with (0 + S (String.length nm - 1)) at 1 by lia.
  rewrite basenameLoop_enter by (intros j _; apply slashFree_get, Hs).
  cbn [Path.basenameLoop].
  replace (Z.of_nat (0 + (String.length nm - 1)) + 1 =? -1)%Z
    with false by (symmetry; apply Z.eqb_neq; lia).
  replace (Z.of_nat (0 + (String.length nm - 1)) + 1)%Z
    with (Path.len ("" ++ nm)) by (unfold Path.len; cbn [append]; lia).
  exact (slice_append_r "" nm).
Qed.

Lemma suffixLoop_skip (path suffix : string) (i k : nat) (st : Path.BaseState) :
  (forall j, i <= j ->
             Path.codeIs (Path.charCodeAt path j) Path.slash = false) ->
  Path.bFirstNonSlashEnd st <> (-1)%Z -> (Path.bExtIdx st < 0)%Z ->
  Path.basenameSuffixLoop path suffix (i + k) st =
  Path.basenameSuffixLoop path suffix i st.
Proof.
  intros Hfree Hf Hx. induction k as [|k IH].
  - rewrite Nat.add_0_r. reflexivity.
  - replace (i + S k) with (S (i + k)) by lia.
    cbn [Path.basenameSuffixLoop]. rewrite Hfree by lia.
    apply Z.eqb_neq in Hf. rewrite Hf.
    replace (0 <=? Path.bExtIdx st)%Z with false
      by (symmetry; apply Z.leb_gt; exact Hx).
    exact IH.
Qed.

(** One round of the loop on a character that continues the suffix. *)
Lemma suffixLoop_match (path suffix : string) (i : nat) (c : ascii)
      (s e f x x' : Z) (ms : bool) :
  Path.charCodeAt path i = Some c -> Ascii.eqb c Path.slash = false ->
  Path.charCodeAt suffix (Z.to_nat x) = Some c ->
  (0 <= x)%Z -> x' = (x - 1)%Z ->
  Path.basenameSuffixLoop path suffix (S i) (Path.mkBase s e ms f x) =
  Path.basenameSuffixLoop path suffix i
    (Path.mkBase s
       (if (x' =? -1)%Z then Z.of_nat i else e)
       (if (f =? -1)%Z then false else ms)
       (if (f =? -1)%Z then (Z.of_nat i + 1)%Z else f)
       x').
Proof.
  intros Hc Hns Hsuf Hx ->. cbn [Path.basenameSuffixLoop].
  rewrite Hc. cbn [Path.codeIs]. rewrite Hns.
  cbn [Path.bFirstNonSlashEnd].
  destruct (f =? -1)%Z;
    cbn [Path.bExtIdx Path.bStart Path.bEnd Path.bMatchedSlash
         Path.bFirstNonSlashEnd];
    (replace (0 <=? x)%Z with true by (symmetry; apply Z.leb_le; exact Hx));
    rewrite Hsuf; cbn [Path.codeEq]; rewrite Ascii.eqb_refl;
    destruct (x - 1 =? -1)%Z; reflexivity.
Qed.

Lemma succ_eqb_minus_one (n : nat) : (Z.of_nat n + 1 =? -1)%Z = false.
Proof. apply Z.eqb_neq. lia. Qed.

(** The state of the loop of [basename(q ++ ".json", ".json")] when it has
    read the five characters of the suffix. *)
Lemma suffixLoop_json (q : string) :
  Path.basenameSuffixLoop (q ++ ".json") ".json"
    (String.length (q ++ ".json")) (Path.mkBase 0 (-1) true (-1) 4) =
  Path.basenameSuffixLoop (q ++ ".json") ".json" (String.length q)
    (Path.mkBase 0 (Path.len q) false (Path.len (q ++ ".json")) (-1)).
Proof.
  assert (Hget : forall j, Path.charCodeAt (q ++ ".json") (String.length q + j)
                           = Path.charCodeAt ".json" j)
    by (intros j; apply get_append_r).
  unfold Path.len. rewrite length_append. cbn [String.length].
  replace (String.length q + 5) with (S (String.length q + 4)) by lia.
  rewrite (suffixLoop_match _ _ _ "n" _ _ _ 4 3);
    [|rewrite Hget; reflexivity|reflexivity|reflexivity|lia|reflexivity].
  replace (String.length q + 4) with (S (String.length q + 3)) at 1 by lia.
  cbn [Z.eqb Pos.eqb].
  rewrite (suffixLoop_match _ _ _ "o" _ _ _ 3 2);
    [|rewrite Hget; reflexivity|reflexivity|reflexivity|lia|reflexivity].
  replace (String.length q + 3) with (S (String.length q + 2)) at 1 by lia.
  rewrite succ_eqb_minus_one. cbn [Z.eqb Pos.eqb].
  rewrite (suffixLoop_match _ _ _ "s" _ _ _ 2 1);
    [|rewrite Hget; reflexivity|reflexivity|reflexivity|lia|reflexivity].
  replace (String.length q + 2) with (S (String.length q + 1)) at 1 by lia.
  rewrite succ_eqb_minus_one. cbn [Z.eqb Pos.eqb].
  rewrite (suffixLoop_match _ _ _ "j" _ _ _ 1 0);
    [|rewrite Hget; reflexivity|reflexivity|reflexivity|lia|reflexivity].
  replace (String.length q + 1) with (S (String.length q + 0)) at 1 by lia.
  rewrite succ_eqb_minus_one. cbn [Z.eqb Pos.eqb].
  rewrite (suffixLoop_match _ _ _ "." _ _ _ 0 (-1));
    [|rewrite Hget; reflexivity|reflexivity|reflexivity|lia|reflexivity].
  rewrite succ_eqb_minus_one. cbn [Z.eqb Pos.eqb].
  rewrite !Nat.add_0_r. f_equal. f_equal. lia.
Qed.

Lemma slashFree_append (a b : string) :
  Path.slashFree (a ++ b) = (Path.slashFree a && Path.slashFree b)%bool.
Proof.
  unfold Path.slashFree.
  induction a as [|c a IH]; cbn; [reflexivity|].
  rewrite IH, andb_assoc. reflexivity.
Qed.

Lemma json_suffix_differs (q : string) :
  0 < String.length q -> String.eqb ".json" (q ++ ".json") = false.
Proof.
  intros Hq. apply String.eqb_neq. intros E.
  apply (f_equal String.length) in E. rewrite length_append in E.
  cbn in E. lia.
Qed.

Lemma suffixLoop_json_append (x nm : string) :
  Path.isFileName nm = true ->
  Path.basenameSuffixLoop (x ++ String "/" (nm ++ ".json")) ".json"
    (String.length (x ++ String "/" (nm ++ ".json")))
    (Path.mkBase 0 (-1) true (-1) 4) =
  Path.mkBase (Path.len (x ++ "/")) (Path.len (x ++ "/") + Path.len nm) false
              (Path.len (x ++ String "/" (nm ++ ".json"))) (-1).
Proof.
  intros Hnm. apply isFileName_inv in Hnm. destruct Hnm as [Hs Hlen].
  assert (Epath : x ++ String "/" (nm ++ ".json")
                  = (x ++ String "/" nm) ++ ".json")
    by (rewrite append_assoc; reflexivity).
  assert (Hfree : forall j, S (String.length x) <= j ->
            Path.codeIs
              (Path.charCodeAt (x ++ String "/" (nm ++ ".json")) j)
              Path.slash = false).
  { intros j Hj. apply code_in_name; [|lia].
    rewrite slashFree_append, Hs. reflexivity. }
  pose proof (code_at_separator x (nm ++ ".json")) as Hsep.
  rewrite Epath. rewrite suffixLoop_json. rewrite <- Epath.
  replace (String.length (x ++ String "/" nm))
    with (S (String.length x) + String.length nm)
    by (rewrite length_append; cbn [String.length]; lia).
  rewrite suffixLoop_skip;
    [|exact Hfree
     |cbn [Path.bFirstNonSlashEnd]; unfold Path.len; lia
     |cbn [Path.bExtIdx]; lia].
  cbn [Path.basenameSuffixLoop]. rewrite Hsep.
  cbn [Path.bMatchedSlash negb Path.bStart Path.bEnd Path.bFirstNonSlashEnd
       Path.bExtIdx].
  unfold Path.len. rewrite !length_append. cbn [String.length].
  f_equal; lia.
Qed.

Lemma suffixLoop_json_name (nm : string) :
  Path.isFileName nm = true ->
  Path.basenameSuffixLoop (nm ++ ".json") ".json"
    (String.length (nm ++ ".json")) (Path.mkBase 0 (-1) true (-1) 4) =
  Path.mkBase 0 (Path.len nm) false (Path.len (nm ++ ".json")) (-1).
Proof.
  intros Hnm. apply isFileName_inv in Hnm. destruct Hnm as [Hs Hlen].
  assert (Hfree : forall j, 0 <= j ->
            Path.codeIs (Path.charCodeAt (nm ++ ".json") j) Path.slash
            = false).
  { intros j _. apply slashFree_get.
    rewrite slashFree_append, Hs. reflexivity. }
  rewrite suffixLoop_json.
  replace (String.length nm) with (0 + String.length nm) at 1 by lia.
  rewrite suffixLoop_skip;
    [|exact Hfree
     |cbn [Path.bFirstNonSlashEnd]; unfold Path.len; lia
     |cbn [Path.bExtIdx]; lia].
  reflexivity.
Qed.

Lemma json_suffix_fits (q : string) :
  ((0 <? String.length ".json")%nat
   && (String.length ".json" <=? String.length (q ++ ".json"))%nat)%bool
  = true.
Proof.
  apply andb_true_iff. split; [reflexivity|].
  apply Nat.leb_le. rewrite length_append. cbn. lia.
Qed.

(** The base name without [.json] of [x/nm.json] is [nm]. *)
Lemma basename_json_append (x nm : string) :
  Path.isFileName nm = true ->
  Path.basename (x ++ String "/" (nm ++ ".json")) (Some ".json") = nm.
Proof.
  intros Hnm. pose proof (suffixLoop_json_append x nm Hnm) as Hloop.
  apply isFileName_inv in Hnm. destruct Hnm as [Hs Hlen].
  assert (Epath : x ++ String "/" (nm ++ ".json")
                  = (x ++ String "/" nm) ++ ".json")
    by (rewrite append_assoc; reflexivity).
  assert (Hfit : ((0 <? String.length ".json")%nat
                  && (String.length ".json"
                      <=? String.length (x ++ String "/" (nm ++ ".json")))%nat)
                 %bool = true)
    by (rewrite Epath; apply json_suffix_fits).
  assert (Hdiff : String.eqb ".json" (x ++ String "/" (nm ++ ".json")) = false)
    by (rewrite Epath; apply json_suffix_differs;
        rewrite length_append; cbn; lia).
  unfold Path.basename.
  change (Path.len ".json" - 1)%Z with 4%Z. rewrite Hloop, Hfit, Hdiff.
  cbn [Path.bStart Path.bEnd Path.bFirstNonSlashEnd].
  replace (Path.len (x ++ "/") =? Path.len (x ++ "/") + Path.len nm)%Z
    with false by (symmetry; apply Z.eqb_neq; unfold Path.len; lia).
  replace (Path.len (x ++ "/") + Path.len nm =? -1)%Z with false
    by (symmetry; apply Z.eqb_neq; unfold Path.len; lia).
  replace (x ++ String "/" (nm ++ ".json")) with ((x ++ "/") ++ nm ++ ".json")
    by (rewrite append_assoc; reflexivity).
  apply slice_middle.
Qed.

(** The base name without [.json] of the file name [nm.json] is [nm]. *)
Lemma basename_json_name (nm : string) :
  Path.isFileName nm = true ->
  Path.basename (nm ++ ".json") (Some ".json") = nm.
Proof.
  intros Hnm. pose proof (suffixLoop_json_name nm Hnm) as Hloop.
  apply isFileName_inv in Hnm. destruct Hnm as [Hs Hlen].
  unfold Path.basename.
  change (Path.len ".json" - 1)%Z with 4%Z. rewrite Hloop.
  rewrite json_suffix_fits.
  rewrite json_suffix_differs by exact Hlen.
  cbn [Path.bStart Path.bEnd Path.bFirstNonSlashEnd].
  replace (0 =? Path.len nm)%Z with false
    by (symmetry; apply Z.eqb_neq; unfold Path.len; lia).
  replace (Path.len nm =? -1)%Z with false
    by (symmetry; apply Z.eqb_neq; unfold Path.len; lia).
  exact (slice_append_l nm ".json").
Qed.

Lemma isFileName_json (nm : string) :
  Path.isFileName nm = true -> Path.isFileName (nm ++ ".json") = true.
Proof.
  unfold Path.isFileName. intros H. apply andb_true_iff in H.
  destruct H as [Hne Hs]. rewrite slashFree_append, Hs.
  destruct nm; [discriminate Hne|reflexivity].
Qed.

(** ** [normalize] and [join] *)

Lemma len_append (a b : string) :
  Path.len (a ++ b) = (Path.len a + Path.len b)%Z.
Proof. unfold Path.len. rewrite length_append. lia. Qed.

Lemma normLoop_app (path : string) (aar : bool) (a b : string) (i : Z)
      (code : ascii) (st : Path.NormState) :
  Path.normLoop path aar (a ++ b) i code st =
  Path.normLoop path aar b (i + Path.len a) (Path.lastChar a code)
                (Path.normPrefix path aar a i st).
Proof.
  revert i code st. induction a as [|c a IH]; intros i code st.
  - cbn. rewrite Z.add_0_r. reflexivity.
  - cbn [append Path.normLoop Path.normPrefix Path.lastChar].
    rewrite IH. f_equal. unfold Path.len. cbn [String.length]. lia.
Qed.

Lemma normPrefix_app (path : string) (aar : bool) (a b : string) (i : Z)
      (st : Path.NormState) :
  Path.normPrefix path aar (a ++ b) i st =
  Path.normPrefix path aar b (i + Path.len a) (Path.normPrefix path aar a i st).
Proof.
  revert i st. induction a as [|c a IH]; intros i st.
  - cbn. rewrite Z.add_0_r. reflexivity.
  - cbn [append Path.normPrefix]. rewrite IH. f_equal.
    unfold Path.len. cbn [String.length]. lia.
Qed.

Lemma normSeparator_fields (path : string) (aar : bool) (i : Z)
      (st : Path.NormState) :
  Path.lastSlash (Path.normSeparator path aar i st) = i /\
  Path.dots (Path.normSeparator path aar i st) = 0%Z.
Proof.
  unfold Path.normSeparator.
  repeat match goal with
         | |- context [if ?b then _ else _] => destruct b
         end; split; reflexivity.
Qed.

Lemma substring_append_within (pre s : string) (n m : nat) :
  n + m <= String.length pre ->
  substring n m (pre ++ s) = substring n m pre.
Proof.
  revert n m. induction pre as [|c pre IH]; intros n m Hnm.
  - cbn in Hnm. assert (n = 0) by lia. assert (m = 0) by lia. subst.
    destruct s; reflexivity.
  - cbn [String.length] in Hnm. destruct n as [|n].
    + destruct m as [|m]; [reflexivity|]. cbn. f_equal. apply IH. lia.
    + cbn. apply IH. lia.
Qed.

Lemma sliceZ_append_within (pre s : string) (a b : Z) :
  (a <= b <= Path.len pre)%Z ->
  Path.sliceZ (pre ++ s) a b = Path.sliceZ pre a b.
Proof.
  unfold Path.sliceZ, slice, Path.len. intros Hab.
  apply substring_append_within. lia.
Qed.

(** A round of the loop reads the path only below its index. *)
Lemma normStep_within (pre s : string) (aar : bool) (i : Z) (c : ascii)
      (st : Path.NormState) :
  (Path.lastSlash st < i <= Path.len pre)%Z ->
  Path.normStep (pre ++ s) aar i c st = Path.normStep pre aar i c st.
Proof.
  intros Hi. unfold Path.normStep, Path.normSeparator.
  rewrite sliceZ_append_within by lia. reflexivity.
Qed.

Lemma normStep_lastSlash (path : string) (aar : bool) (i : Z) (c : ascii)
      (st : Path.NormState) :
  (Path.lastSlash st < i)%Z ->
  (Path.lastSlash (Path.normStep path aar i c st) < i + 1)%Z.
Proof.
  intros Hi. unfold Path.normStep.
  destruct (Ascii.eqb c Path.slash).
  - rewrite (proj1 (normSeparator_fields path aar i st)). lia.
  - destruct (_ && _); cbn [Path.lastSlash]; lia.
Qed.

Lemma normPrefix_within (pre s : string) (aar : bool) (a : string) (i : Z)
      (st : Path.NormState) :
  (Path.lastSlash st < i)%Z -> (i + Path.len a <= Path.len pre)%Z ->
  Path.normPrefix (pre ++ s) aar a i st = Path.normPrefix pre aar a i st.
Proof.
  revert i st. induction a as [|c a IH]; intros i st Hi Hlen.
  - reflexivity.
  - cbn [Path.normPrefix].
    unfold Path.len in Hlen. cbn [String.length] in Hlen.
    rewrite normStep_within by (unfold Path.len; lia).
    apply IH.
    + apply normStep_lastSlash, Hi.
    + unfold Path.len. lia.
Qed.

(** Inside a segment only [dots] changes. *)
Lemma normPrefix_segment (path : string) (aar : bool) (a : string) (i : Z)
      (st : Path.NormState) :
  Path.slashFree a = true ->
  Path.normPrefix path aar a i st =
  Path.mkNorm (Path.res st) (Path.lastSegmentLength st) (Path.lastSlash st)
              (Path.dotsAfter a (Path.dots st)).
Proof.
  revert i st. induction a as [|c a IH]; intros i st Hs.
  - destruct st; reflexivity.
  - unfold Path.slashFree in Hs. cbn [forallChars] in Hs.
    apply andb_true_iff in Hs. destruct Hs as [Hc Hs].
    apply negb_true_iff in Hc.
    cbn [Path.normPrefix Path.dotsAfter]. rewrite IH by exact Hs.
    unfold Path.normStep. rewrite Hc.
    destruct (Ascii.eqb c Path.dot && negb (Path.dots st =? -1)%Z);
      reflexivity.
Qed.

Lemma dotsAfter_lost (a : string) : Path.dotsAfter a (-1) = (-1)%Z.
Proof.
  induction a as [|c a IH]; [reflexivity|].
  cbn [Path.dotsAfter]. cbn [Z.eqb Pos.eqb negb]. rewrite andb_false_r.
  exact IH.
Qed.

Lemma dotsAfter_spec (a : string) (d : Z) :
  (0 <= d)%Z ->
  Path.dotsAfter a d = (-1)%Z \/
  (Path.dotsAfter a d = (d + Path.len a)%Z /\
   forallChars (fun c => Ascii.eqb c Path.dot) a = true).
Proof.
  revert d. induction a as [|c a IH]; intros d Hd.
  - right. unfold Path.len. cbn. split; [lia|reflexivity].
  - cbn [Path.dotsAfter forallChars].
    replace (d =? -1)%Z with false by (symmetry; apply Z.eqb_neq; lia).
    cbn [negb]. rewrite andb_true_r.
    destruct (Ascii.eqb c Path.dot).
    + destruct (IH (d + 1)%Z ltac:(lia)) as [E|[E Hall]]; [left; exact E|].
      right. split; [|exact Hall].
      rewrite E. unfold Path.len. cbn [String.length]. lia.
    + left. apply dotsAfter_lost.
Qed.

Lemma dotsAfter_segment (a : string) :
  Path.isSegment a = true ->
  Path.dotsAfter a 0 <> 1%Z /\ Path.dotsAfter a 0 <> 2%Z.
Proof.
  unfold Path.isSegment. intros H.
  apply andb_true_iff in H. destruct H as [H Hdd].
  apply andb_true_iff in H. destruct H as [_ Hd].
  apply negb_true_iff, String.eqb_neq in Hd, Hdd.
  destruct (dotsAfter_spec a 0 ltac:(lia)) as [E|[E Hall]];
    [rewrite E; split; discriminate|].
  rewrite E. unfold Path.len.
  destruct a as [|c1 [|c2 [|c3 a]]]; cbn [String.length forallChars] in *.
  - split; discriminate.
  - apply andb_true_iff in Hall. destruct Hall as [H1 _].
    apply Ascii.eqb_eq in H1. subst c1. contradiction.
  - apply andb_true_iff in Hall. destruct Hall as [H1 Hall].
    apply andb_true_iff in Hall. destruct Hall as [H2 _].
    apply Ascii.eqb_eq in H1, H2. subst c1 c2. contradiction.
  - split; lia.
Qed.

Lemma lastChar_not_slash (a : string) (c : ascii) :
  Path.slashFree a = true -> Ascii.eqb c Path.slash = false ->
  Ascii.eqb (Path.lastChar a c) Path.slash = false.
Proof.
  revert c. induction a as [|x a IH]; intros c Hs Hc; [exact Hc|].
  unfold Path.slashFree in Hs. cbn [forallChars] in Hs.
  apply andb_true_iff in Hs. destruct Hs as [Hx Hs].
  cbn [Path.lastChar]. apply IH; [exact Hs|].
  apply negb_true_iff, Hx.
Qed.

Lemma lastChar_snoc (a : string) (x c : ascii) :
  Path.lastChar (a ++ String x "") c = x.
Proof. revert c. induction a as [|y a IH]; intros c; cbn; auto. Qed.

Lemma normLoop_all (path : string) (aar : bool) (a : string) (i : Z)
      (code : ascii) (st : Path.NormState) :
  Path.normLoop path aar a i code st =
  Path.normLoop path aar "" (i + Path.len a) (Path.lastChar a code)
                (Path.normPrefix path aar a i st).
Proof.
  pose proof (normLoop_app path aar a "" i code st) as H.
  rewrite append_empty_r in H. exact H.
Qed.

Lemma isSegment_inv (x : string) :
  Path.isSegment x = true ->
  Path.slashFree x = true /\ 0 < String.length x.
Proof.
  unfold Path.isSegment. intros H.
  apply andb_true_iff in H. destruct H as [H _].
  apply andb_true_iff in H. destruct H as [H _].
  apply isFileName_inv, H.
Qed.

Lemma lastChar_segment (x : string) (c : ascii) :
  Path.slashFree x = true -> 0 < String.length x ->
  Ascii.eqb (Path.lastChar x c) Path.slash = false.
Proof.
  intros Hs Hlen. destruct x as [|y x]; [cbn in Hlen; lia|].
  unfold Path.slashFree in Hs. cbn [forallChars] in Hs.
  apply andb_true_iff in Hs. destruct Hs as [Hy Hs].
  cbn [Path.lastChar]. apply lastChar_not_slash; [exact Hs|].
  apply negb_true_iff, Hy.
Qed.

(** The state of the loop of [normalizeString] after [d/], whatever
    follows in the path. *)
Lemma normPrefix_directory (d s : string) (aar : bool) :
  let st := Path.normPrefix ((d ++ "/") ++ s) aar (d ++ "/") 0
                            (Path.mkNorm "" 0 (-1) 0) in
  Path.res st = Path.normalizeString (d ++ "/") aar /\
  Path.lastSlash st = Path.len d /\ Path.dots st = 0%Z.
Proof.
  cbv zeta.
  rewrite normPrefix_within
    by (cbn [Path.lastSlash]; rewrite ?Z.add_0_l; lia).
  split.
  - unfold Path.normalizeString.
    rewrite normLoop_all. cbn [Path.normLoop].
    rewrite lastChar_snoc. reflexivity.
  - rewrite normPrefix_app. cbn [Path.normPrefix]. unfold Path.normStep.
    cbn [Ascii.eqb Path.slash Bool.eqb andb]. rewrite Z.add_0_l.
    apply normSeparator_fields.
Qed.

(** [normalizeString] keeps a last segment as it is. *)
Lemma normalizeString_segment (d x : string) (aar : bool) :
  Path.isSegment x = true ->
  Path.normalizeString (d ++ String "/" x) aar =
  if (String.length (Path.normalizeString (d ++ "/") aar) =? 0)%nat
  then x
  else Path.normalizeString (d ++ "/") aar ++ "/" ++ x.
Proof.
  intros Hseg. destruct (isSegment_inv x Hseg) as [Hs Hlen].
  destruct (dotsAfter_segment x Hseg) as [Hd1 Hd2].
  destruct (normPrefix_directory d x aar) as (Hres & Hls & Hdots).
  cbv zeta in Hres, Hls, Hdots.
  replace (d ++ String "/" x) with ((d ++ "/") ++ x)
    by (rewrite append_assoc; reflexivity).
  unfold Path.normalizeString at 1.
  rewrite normLoop_app, normLoop_all. cbn [Path.normLoop].
  rewrite lastChar_segment by assumption.
  rewrite normPrefix_segment by exact Hs.
  rewrite Hres, Hls, Hdots.
  unfold Path.normStep. cbn [Ascii.eqb Path.slash Bool.eqb andb].
  unfold Path.normSeparator.
  cbn [Path.res Path.lastSlash Path.dots Path.lastSegmentLength].
  replace (Path.len d =? 0 + Path.len (d ++ "/") + Path.len x - 1)%Z
    with false
    by (symmetry; apply Z.eqb_neq; rewrite len_append;
        unfold Path.len; cbn [String.length]; lia).
  replace (Path.dotsAfter x 0 =? 1)%Z with false
    by (symmetry; apply Z.eqb_neq; exact Hd1).
  replace (Path.dotsAfter x 0 =? 2)%Z with false
    by (symmetry; apply Z.eqb_neq; exact Hd2).
  cbn [orb Path.res].
  replace (Path.len d + 1)%Z with (Path.len (d ++ "/"))
    by (rewrite len_append; reflexivity).
  replace (0 + Path.len (d ++ "/") + Path.len x)%Z
    with (Path.len ((d ++ "/") ++ x)) by (rewrite (len_append (d ++ "/")); lia).
  rewrite slice_append_r.
  unfold Path.len.
  destruct (Path.normalizeString (d ++ "/") aar); reflexivity.
Qed.

(** Joining a directory and a segment puts the segment, as it is, behind
    the normalised directory. *)
Lemma join_segment (d x : string) :
  d <> "" -> Path.isSegment x = true ->
  Path.join [d; x] = Path.dirPrefix d ++ x.
Proof.
  intros Hd Hseg. destruct (isSegment_inv x Hseg) as [Hs Hlen].
  unfold Path.join. cbn [Path.joinArgs].
  replace (0 <? String.length d)%nat with true
    by (symmetry; apply Nat.ltb_lt; destruct d; [congruence|cbn; lia]).
  replace (0 <? String.length x)%nat with true
    by (symmetry; apply Nat.ltb_lt; exact Hlen).
  change (d ++ "/" ++ x) with (d ++ String "/" x).
  unfold Path.normalize, Path.dirPrefix.
  replace (String.length (d ++ String "/" x) =? 0)%nat with false
    by (symmetry; apply Nat.eqb_neq; rewrite length_append; cbn; lia).
  assert (Hroot : Path.charCodeAt (d ++ String "/" x) 0 = Path.charCodeAt d 0).
  { unfold Path.charCodeAt. apply get_append_l.
    destruct d; [congruence|cbn; lia]. }
  rewrite Hroot.
  rewrite code_in_name
    by (try exact Hs; rewrite length_append; cbn [String.length]; lia).
  rewrite normalizeString_segment by exact Hseg.
  set (abs := Path.codeIs (Path.charCodeAt d 0) Path.slash).
  set (r := Path.normalizeString (d ++ "/") (negb abs)).
  destruct (String.length r =? 0)%nat eqn:Er.
  - replace (String.length x =? 0)%nat with false
      by (symmetry; apply Nat.eqb_neq; lia).
    destruct abs; reflexivity.
  - replace (String.length (r ++ "/" ++ x) =? 0)%nat with false
      by (symmetry; apply Nat.eqb_neq; rewrite !length_append; cbn; lia).
    destruct abs; cbn [append]; rewrite ?append_assoc; reflexivity.
Qed.

Lemma isSegment_long (x : string) :
  Path.isFileName x = true -> 3 <= String.length x ->
  Path.isSegment x = true.
Proof.
  intros Hx Hlen. unfold Path.isSegment. rewrite Hx.
  destruct x as [|a [|b [|c x]]]; cbn in Hlen; try lia.
  cbn [String.eqb].
  destruct (Ascii.eqb a "."); destruct (Ascii.eqb b "."); reflexivity.
Qed.

(** ** The stack of segments behind [normalizeString] *)

Lemma lastIndexOfFrom_slashFree (s : string) (i acc : Z) :
  Path.slashFree s = true ->
  Path.lastIndexOfFrom s Path.slash i acc = acc.
Proof.
  revert i acc. induction s as [|c s IH]; intros i acc Hs; [reflexivity|].
  unfold Path.slashFree in Hs. cbn [forallChars] in Hs.
  apply andb_true_iff in Hs. destruct Hs as [Hc Hs].
  apply negb_true_iff in Hc. cbn [Path.lastIndexOfFrom]. rewrite Hc.
  apply IH, Hs.
Qed.

Lemma lastIndexOfFrom_app (a b : string) (c : ascii) (i acc : Z) :
  Path.lastIndexOfFrom (a ++ b) c i acc =
  Path.lastIndexOfFrom b c (i + Path.len a) (Path.lastIndexOfFrom a c i acc).
Proof.
  revert i acc. induction a as [|x a IH]; intros i acc.
  - cbn. rewrite Z.add_0_r. reflexivity.
  - cbn [append Path.lastIndexOfFrom]. rewrite IH. f_equal.
    unfold Path.len. cbn [String.length]. lia.
Qed.

Lemma lastIndexOf_slashFree (s : string) :
  Path.slashFree s = true -> Path.lastIndexOf s Path.slash = (-1)%Z.
Proof. apply lastIndexOfFrom_slashFree. Qed.

Lemma lastIndexOf_last_separator (a s : string) :
  Path.slashFree s = true ->
  Path.lastIndexOf (a ++ "/" ++ s) Path.slash = Path.len a.
Proof.
  intros Hs. unfold Path.lastIndexOf. rewrite lastIndexOfFrom_app.
  cbn [append Path.lastIndexOfFrom Ascii.eqb Path.slash Bool.eqb andb].
  rewrite lastIndexOfFrom_slashFree by exact Hs. lia.
Qed.

Lemma isSegment_slashFree (s : string) :
  Path.isSegment s = true -> Path.slashFree s = true.
Proof. intros H. apply isSegment_inv in H. apply H. Qed.

(** The members of a normal stack are segments or [..]. *)
Lemma normalStack_inv (aar : bool) (s : string) (rest : list string) :
  Path.normalStack aar (s :: rest) = true ->
  (Path.isSegment s = true \/ s = "..") /\
  Path.normalStack aar rest = true.
Proof.
  cbn [Path.normalStack]. destruct (Path.isSegment s) eqn:E.
  - intros H. split; [left; reflexivity|exact H].
  - intros H. apply andb_true_iff in H. destruct H as [H Hall].
    apply andb_true_iff in H. destruct H as [Hs Haar].
    apply String.eqb_eq in Hs. split; [right; exact Hs|].
    clear - Haar Hall. induction rest as [|t rest IH]; [reflexivity|].
    cbn [forallb] in Hall. apply andb_true_iff in Hall.
    destruct Hall as [Ht Hall]. apply String.eqb_eq in Ht. subst t.
    cbn [Path.normalStack].
    replace (Path.isSegment "..") with false by reflexivity.
    rewrite Haar, Hall. reflexivity.
Qed.

Lemma normalStack_top (aar : bool) (s : string) (rest : list string) :
  Path.normalStack aar (s :: rest) = true ->
  Path.slashFree s = true /\ 0 < String.length s.
Proof.
  intros H. destruct (normalStack_inv aar s rest H) as [[Hs| ->] _].
  - apply isSegment_inv, Hs.
  - split; [reflexivity|cbn; lia].
Qed.

Lemma joinSegments_cons (s t : string) (rest : list string) :
  Path.joinSegments (s :: t :: rest)
  = Path.joinSegments (t :: rest) ++ "/" ++ s.
Proof. reflexivity. Qed.

Lemma joinSegments_nonempty (aar : bool) (stack : list string) :
  Path.normalStack aar stack = true -> stack <> [] ->
  0 < String.length (Path.joinSegments stack).
Proof.
  destruct stack as [|s rest]; [congruence|]. intros H _.
  destruct (normalStack_top aar s rest H) as [_ Hlen].
  destruct rest as [|t rest]; [exact Hlen|].
  rewrite joinSegments_cons, !length_append. lia.
Qed.

(** The separator that [lastIndexOf] finds in [res], and the length of the
    segment below the top. *)
Lemma lastIndexOf_joinSegments (aar : bool) (s : string) (rest : list string) :
  Path.normalStack aar (s :: rest) = true ->
  Path.lastIndexOf (Path.joinSegments (s :: rest)) Path.slash =
  match rest with
  | [] => (-1)%Z
  | _ :: _ => Path.len (Path.joinSegments rest)
  end.
Proof.
  intros H. destruct (normalStack_top aar s rest H) as [Hs _].
  destruct rest as [|t rest].
  - apply lastIndexOf_slashFree, Hs.
  - rewrite joinSegments_cons. apply lastIndexOf_last_separator, Hs.
Qed.

Lemma topLength_joinSegments (aar : bool) (stack : list string) :
  Path.normalStack aar stack = true -> stack <> [] ->
  (Path.len (Path.joinSegments stack) - 1
   - Path.lastIndexOf (Path.joinSegments stack) Path.slash)%Z
  = Path.topLength stack.
Proof.
  destruct stack as [|s rest]; [congruence|]. intros H _.
  rewrite (lastIndexOf_joinSegments aar s rest H).
  destruct rest as [|t rest]; cbn [Path.topLength].
  - cbn [Path.joinSegments]. lia.
  - rewrite joinSegments_cons, !len_append.
    change (Path.len "/") with 1%Z. lia.
Qed.

Lemma joinSegments_top (s : string) (rest : list string) :
  Path.joinSegments (s :: rest) =
  match rest with
  | [] => ""
  | _ :: _ => Path.joinSegments rest ++ "/"
  end ++ s.
Proof.
  destruct rest as [|t rest]; [reflexivity|].
  rewrite joinSegments_cons, append_assoc. reflexivity.
Qed.

(** The test of [normalizeString] on the last two characters of [res]
    tells whether the top of the stack is [..]. *)
Lemma top_test (aar : bool) (stack : list string) :
  Path.normalStack aar stack = true ->
  ((Path.len (Path.joinSegments stack) <? 2)%Z
   || negb (Path.topLength stack =? 2)%Z
   || negb (Path.codeIs
              (Path.charCodeAt (Path.joinSegments stack)
                 (String.length (Path.joinSegments stack) - 1)) Path.dot)
   || negb (Path.codeIs
              (Path.charCodeAt (Path.joinSegments stack)
                 (String.length (Path.joinSegments stack) - 2)) Path.dot))
  = negb match stack with
         | s :: _ => String.eqb s ".."
         | [] => false
         end.
Proof.
  intros H. destruct stack as [|s rest]; [reflexivity|].
  rewrite joinSegments_top.
  set (a := match rest with
            | [] => ""
            | _ :: _ => Path.joinSegments rest ++ "/"
            end).
  cbn [Path.topLength]. unfold Path.len.
  destruct s as [|c1 [|c2 [|c3 s]]].
  - destruct (normalStack_top aar _ _ H) as [_ Hlen]. cbn in Hlen. lia.
  - cbn [String.length Z.of_nat]. cbn [Z.eqb Pos.eqb negb].
    rewrite orb_true_r. cbn [orb].
    cbn [String.eqb]. destruct (Ascii.eqb c1 "."); reflexivity.
  - rewrite length_append. cbn [String.length].
    replace (Z.of_nat (String.length a + 2) <? 2)%Z with false
      by (symmetry; apply Z.ltb_ge; lia).
    cbn [Z.of_nat Pos.of_succ_nat Pos.succ Z.eqb Pos.eqb negb orb].
    unfold Path.charCodeAt.
    replace (String.length a + 2 - 1) with (String.length a + 1) by lia.
    replace (String.length a + 2 - 2) with (String.length a + 0) by lia.
    rewrite !get_append_r. cbn [String.get Path.codeIs String.eqb].
    unfold Path.dot.
    destruct (Ascii.eqb c1 "."), (Ascii.eqb c2 "."); reflexivity.
  - replace (Z.of_nat (String.length (String c1 (String c2 (String c3 s))))
             =? 2)%Z with false
      by (symmetry; apply Z.eqb_neq; cbn [String.length]; lia).
    cbn [negb]. rewrite orb_true_r. cbn [orb String.eqb].
    destruct (Ascii.eqb c1 "."); [|reflexivity].
    destruct (Ascii.eqb c2 "."); reflexivity.
Qed.

Lemma len_zero_iff (s : string) : (Path.len s =? 0)%Z = String.eqb s "".
Proof. destruct s; reflexivity. Qed.

Lemma len_pos_iff (s : string) : (0 <? Path.len s)%Z = negb (String.eqb s "").
Proof.
  destruct s; [reflexivity|]. unfold Path.len. cbn [String.length].
  apply Z.ltb_lt. lia.
Qed.

Lemma joinSegments_empty (aar : bool) (stack : list string) :
  Path.normalStack aar stack = true ->
  String.eqb (Path.joinSegments stack) "" =
  match stack with [] => true | _ :: _ => false end.
Proof.
  intros H. destruct stack as [|s rest]; [reflexivity|].
  apply String.eqb_neq. intros E.
  pose proof (joinSegments_nonempty aar (s :: rest) H ltac:(discriminate))
    as Hlen.
  rewrite E in Hlen. cbn in Hlen. lia.
Qed.

(** A separator that ends the segment [seg] acts on the stack as
    [endSegment] says. *)
Lemma normSeparator_stack (path : string) (aar : bool) (i : Z)
      (st : Path.NormState) (stack : list string) (seg : string) :
  stackState aar st stack ->
  Path.sliceZ path (Path.lastSlash st + 1) i = seg ->
  Path.slashFree seg = true ->
  Path.len seg = (i - Path.lastSlash st - 1)%Z ->
  Path.dots st = Path.dotsAfter seg 0 ->
  stackState aar (Path.normSeparator path aar i st)
             (Path.endSegment aar seg stack).
Proof.
  intros (Hres & Hlsl & Hnormal) Hseg Hfree Hlen Hdots.
  unfold Path.normSeparator, Path.endSegment.
  rewrite Hseg, Hres, Hlsl, Hdots.
  destruct (String.eqb_spec seg "") as [->|Hne].
  { replace (Path.lastSlash st =? i - 1)%Z with true
      by (symmetry; apply Z.eqb_eq; unfold Path.len in Hlen; cbn in Hlen; lia).
    cbn [orb]. repeat split; assumption. }
  assert (Hne' : (Path.lastSlash st =? i - 1)%Z = false).
  { apply Z.eqb_neq. unfold Path.len in Hlen.
    destruct seg; [congruence|cbn [String.length] in Hlen; lia]. }
  rewrite Hne'. cbn [orb].
  destruct (String.eqb_spec seg ".") as [->|Hdot].
  { cbn. repeat split; assumption. }
  destruct (String.eqb_spec seg "..") as [->|Hdd].
  { change (Path.dotsAfter ".." 0) with 2%Z. cbn [Z.eqb Pos.eqb].
    rewrite (top_test aar stack Hnormal).
    rewrite len_zero_iff, len_pos_iff,
      (joinSegments_empty aar stack Hnormal).
    destruct stack as [|s rest].
    - cbn [negb]. replace (2 <? Path.len (Path.joinSegments []))%Z
        with false by reflexivity.
      destruct aar; repeat split; reflexivity.
    - cbn [negb]. destruct (String.eqb_spec s "..") as [->|Hs].
      + cbn [negb]. destruct aar.
        * repeat split; try reflexivity.
          destruct (normalStack_inv true ".." rest Hnormal) as [_ Hrest].
          cbn [Path.normalStack] in *.
          replace (Path.isSegment "..") with false in * by reflexivity.
          cbn [String.eqb Ascii.eqb Bool.eqb andb] in *. exact Hnormal.
        * repeat split; assumption.
      + cbn [negb].
        destruct (normalStack_inv aar s rest Hnormal) as [_ Hrest].
        rewrite (lastIndexOf_joinSegments aar s rest Hnormal).
        destruct rest as [|t rest].
        * cbn [Z.eqb].
          destruct (2 <? Path.len (Path.joinSegments [s]))%Z;
            repeat split; reflexivity.
        * replace (2 <? Path.len (Path.joinSegments (s :: t :: rest)))%Z
            with true.
          2:{ symmetry. apply Z.ltb_lt.
              rewrite joinSegments_cons, !len_append.
              pose proof (joinSegments_nonempty aar (t :: rest) Hrest
                            ltac:(discriminate)).
              destruct (normalStack_top aar s _ Hnormal) as [_ Hs0].
              unfold Path.len. cbn [String.length]. lia. }
          replace (Path.len (Path.joinSegments (t :: rest)) =? -1)%Z
            with false
            by (symmetry; apply Z.eqb_neq; unfold Path.len; lia).
          rewrite joinSegments_cons.
          rewrite (slice_append_l (Path.joinSegments (t :: rest)) ("/" ++ s)).
          repeat split; [|exact Hrest].
          cbn [Path.lastSegmentLength].
          apply (topLength_joinSegments aar (t :: rest) Hrest).
          discriminate. }
  assert (Hsegment : Path.isSegment seg = true).
  { unfold Path.isSegment, Path.isFileName, truthy.
    rewrite Hfree.
    apply String.eqb_neq in Hne, Hdot, Hdd. rewrite Hne, Hdot, Hdd.
    reflexivity. }
  destruct (dotsAfter_segment seg Hsegment) as [Hd1 Hd2].
  apply Z.eqb_neq in Hd1, Hd2. rewrite Hd1, Hd2. cbn [orb].
  rewrite len_pos_iff, (joinSegments_empty aar stack Hnormal).
  repeat split.
  - cbn [Path.res]. destruct stack as [|s rest]; reflexivity.
  - cbn [Path.lastSegmentLength Path.topLength]. lia.
  - cbn [Path.normalStack]. rewrite Hsegment. exact Hnormal.
Qed.

(** The characters [seg ++ "/"], read after a separator, end the segment
    [seg]. *)
Lemma normPrefix_endSegment (pre seg post : string) (aar : bool)
      (st : Path.NormState) (stack : list string) :
  stackState aar st stack ->
  Path.lastSlash st = (Path.len pre - 1)%Z -> Path.dots st = 0%Z ->
  Path.slashFree seg = true ->
  let st' := Path.normPrefix (pre ++ seg ++ "/" ++ post) aar (seg ++ "/")
                             (Path.len pre) st in
  stackState aar st' (Path.endSegment aar seg stack) /\
  Path.lastSlash st' = (Path.len (pre ++ seg ++ "/") - 1)%Z /\
  Path.dots st' = 0%Z.
Proof.
  intros Hstack Hls Hdots Hfree. cbv zeta.
  rewrite normPrefix_app.
  rewrite (normPrefix_segment _ _ seg) by exact Hfree.
  cbn [Path.normPrefix]. unfold Path.normStep.
  cbn [Ascii.eqb Path.slash Bool.eqb andb].
  rewrite Hdots.
  destruct (normSeparator_fields (pre ++ seg ++ "/" ++ post) aar
              (Path.len pre + Path.len seg)
              (Path.mkNorm (Path.res st) (Path.lastSegmentLength st)
                           (Path.lastSlash st) (Path.dotsAfter seg 0)))
    as [Hls' Hdots'].
  split; [|split].
  - apply normSeparator_stack.
    + destruct Hstack as (Hres & Hlsl & Hnormal). repeat split; assumption.
    + cbn [Path.lastSlash]. rewrite Hls.
      replace (Path.len pre - 1 + 1)%Z with (Path.len pre) by lia.
      apply slice_middle.
    + exact Hfree.
    + cbn [Path.lastSlash]. lia.
    + reflexivity.
  - rewrite Hls', !len_append. change (Path.len "/") with 1%Z. lia.
  - exact Hdots'.
Qed.

Lemma endSegment_normal (aar : bool) (s : string) (rest : list string) :
  Path.normalStack aar (s :: rest) = true ->
  Path.endSegment aar s rest = s :: rest.
Proof.
  cbn [Path.normalStack]. unfold Path.endSegment.
  destruct (Path.isSegment s) eqn:Es.
  - intros _. unfold Path.isSegment, Path.isFileName, truthy in Es.
    apply andb_true_iff in Es. destruct Es as [Es Hdd].
    apply andb_true_iff in Es. destruct Es as [Es Hd].
    apply andb_true_iff in Es. destruct Es as [Hne _].
    apply negb_true_iff in Hne, Hd, Hdd. rewrite Hne, Hd, Hdd. reflexivity.
  - intros H. apply andb_true_iff in H. destruct H as [H Hall].
    apply andb_true_iff in H. destruct H as [Hs Haar].
    apply String.eqb_eq in Hs. subst s aar.
    cbn [String.eqb Ascii.eqb Bool.eqb andb orb].
    destruct rest as [|t rest]; [reflexivity|].
    cbn [forallb] in Hall. apply andb_true_iff in Hall.
    destruct Hall as [Ht _]. rewrite Ht. reflexivity.
Qed.

(** Reading the text of a normal stack rebuilds the stack. *)
Lemma normPrefix_segmentsText (aar : bool) (stack : list string) :
  Path.normalStack aar stack = true ->
  forall pre post st,
    stackState aar st [] ->
    Path.lastSlash st = (Path.len pre - 1)%Z -> Path.dots st = 0%Z ->
    let st' := Path.normPrefix (pre ++ Path.segmentsText stack ++ post) aar
                               (Path.segmentsText stack) (Path.len pre) st in
    stackState aar st' stack /\
    Path.lastSlash st' = (Path.len (pre ++ Path.segmentsText stack) - 1)%Z /\
    Path.dots st' = 0%Z.
Proof.
  induction stack as [|s rest IH]; intros Hnormal pre post st Hst Hls Hdots.
  - cbn. rewrite append_empty_r. auto.
  - cbv zeta. cbn [Path.segmentsText].
    destruct (normalStack_inv aar s rest Hnormal) as [_ Hrest].
    destruct (normalStack_top aar s rest Hnormal) as [Hfree _].
    rewrite normPrefix_app.
    replace (pre ++ (Path.segmentsText rest ++ s ++ "/") ++ post)
      with (pre ++ Path.segmentsText rest ++ ((s ++ "/") ++ post))
      by (rewrite !append_assoc; reflexivity).
    destruct (IH Hrest pre ((s ++ "/") ++ post) st Hst Hls Hdots)
      as (Hst' & Hls' & Hdots').
    cbv zeta in Hst', Hls', Hdots'.
    set (st' := Path.normPrefix
                  (pre ++ Path.segmentsText rest ++ (s ++ "/") ++ post) aar
                  (Path.segmentsText rest) (Path.len pre) st) in *.
    replace (pre ++ Path.segmentsText rest ++ (s ++ "/") ++ post)
      with ((pre ++ Path.segmentsText rest) ++ s ++ "/" ++ post)
      by (rewrite !append_assoc; reflexivity).
    replace (Path.len pre + Path.len (Path.segmentsText rest))%Z
      with (Path.len (pre ++ Path.segmentsText rest))
      by (rewrite len_append; reflexivity).
    destruct (normPrefix_endSegment (pre ++ Path.segmentsText rest) s post
                aar st' rest Hst' Hls' Hdots' Hfree)
      as (Hst'' & Hls'' & Hdots'').
    cbv zeta in Hst'', Hls'', Hdots''.
    rewrite (endSegment_normal aar s rest Hnormal) in Hst''.
    split; [exact Hst''|split; [|exact Hdots'']].
    rewrite Hls''. rewrite !append_assoc. reflexivity.
Qed.

Lemma split_first_slash (s : string) :
  Path.slashFree s = true \/
  exists seg rest, s = seg ++ "/" ++ rest /\ Path.slashFree seg = true.
Proof.
  induction s as [|c s IH]; [left; reflexivity|].
  destruct (Ascii.eqb_spec c Path.slash) as [->|Hc].
  - right. exists "", s. split; reflexivity.
  - apply Ascii.eqb_neq in Hc. destruct IH as [Hs|(seg & rest & -> & Hseg)].
    + left. unfold Path.slashFree in *. cbn [forallChars].
      rewrite Hc, Hs. reflexivity.
    + right. exists (String c seg), rest. split; [reflexivity|].
      unfold Path.slashFree in *. cbn [forallChars].
      rewrite Hc, Hseg. reflexivity.
Qed.

Lemma normLoop_last_segment (aar : bool) (text pre : string) (code : ascii)
      (st : Path.NormState) (stack : list string) :
  Path.slashFree text = true ->
  stackState aar st stack ->
  Path.lastSlash st = (Path.len pre - 1)%Z -> Path.dots st = 0%Z ->
  exists stack',
    stackState aar
      (Path.normLoop (pre ++ text) aar text (Path.len pre) code st) stack'.
Proof.
  intros Hfree Hst Hls Hdots.
  rewrite normLoop_all, normPrefix_segment by exact Hfree.
  cbn [Path.normLoop]. rewrite Hdots.
  destruct Hst as (Hres & Hlsl & Hnormal).
  destruct (Ascii.eqb (Path.lastChar text code) Path.slash).
  - exists stack. repeat split; assumption.
  - exists (Path.endSegment aar text stack). unfold Path.normStep.
    cbn [Ascii.eqb Path.slash Bool.eqb andb].
    apply normSeparator_stack; try assumption.
    + repeat split; assumption.
    + cbn [Path.lastSlash]. rewrite Hls.
      replace (Path.len pre - 1 + 1)%Z with (Path.len pre) by lia.
      rewrite <- len_append. apply slice_append_r.
    + cbn [Path.lastSlash]. lia.
    + reflexivity.
Qed.

(** Whatever the path, the loop of [normalizeString] ends in a state that
    stands for a normal stack. *)
Lemma normLoop_stack (aar : bool) (n : nat) :
  forall text pre code st stack,
    String.length text <= n ->
    stackState aar st stack ->
    Path.lastSlash st = (Path.len pre - 1)%Z -> Path.dots st = 0%Z ->
    exists stack',
      stackState aar
        (Path.normLoop (pre ++ text) aar text (Path.len pre) code st) stack'.
Proof.
  induction n as [|n IH]; intros text pre code st stack Hn Hst Hls Hdots.
  - destruct text; [|cbn in Hn; lia].
    apply (normLoop_last_segment aar "" pre code st stack); auto.
  - destruct (split_first_slash text) as [Hfree|(seg & rest & -> & Hseg)].
    + apply (normLoop_last_segment aar text pre code st stack); auto.
    + pose proof (normLoop_app (pre ++ seg ++ "/" ++ rest) aar (seg ++ "/")
                    rest (Path.len pre) code st) as Happ.
      rewrite append_assoc in Happ. rewrite Happ. clear Happ.
      destruct (normPrefix_endSegment pre seg rest aar st stack
                  Hst Hls Hdots Hseg) as (Hst' & Hls' & Hdots').
      cbv zeta in Hst', Hls', Hdots'.
      replace (pre ++ seg ++ "/" ++ rest) with ((pre ++ seg ++ "/") ++ rest)
        in * by (rewrite !append_assoc; reflexivity).
      replace (Path.len pre + Path.len (seg ++ "/"))%Z
        with (Path.len (pre ++ seg ++ "/"))
        by (rewrite !len_append; lia).
      apply (IH rest (pre ++ seg ++ "/") _ _
                (Path.endSegment aar seg stack)); try assumption.
      rewrite !length_append in Hn. cbn [String.length] in Hn. lia.
Qed.

(** [normalizeString] returns the path of a normal stack. *)
Lemma normalizeString_normal (path : string) (aar : bool) :
  exists stack,
    Path.normalizeString path aar = Path.joinSegments stack /\
    Path.normalStack aar stack = true.
Proof.
  unfold Path.normalizeString.
  destruct (normLoop_stack aar (String.length path) path "" zero
              (Path.mkNorm "" 0 (-1) 0) [] (le_n _))
    as (stack & Hres & _ & Hnormal); try reflexivity.
  - repeat split.
  - exists stack. split; [exact Hres|exact Hnormal].
Qed.

Lemma segmentsText_join (stack : list string) :
  stack <> [] ->
  Path.segmentsText stack = Path.joinSegments stack ++ "/".
Proof.
  induction stack as [|s rest IH]; [congruence|]. intros _.
  cbn [Path.segmentsText]. destruct rest as [|t rest]; [reflexivity|].
  rewrite IH by discriminate. rewrite joinSegments_cons, !append_assoc.
  reflexivity.
Qed.

(** The path of a normal stack does not start with a separator. *)
Lemma joinSegments_first (aar : bool) (stack : list string) (y : string) :
  Path.normalStack aar stack = true -> stack <> [] ->
  Path.codeIs (Path.charCodeAt (Path.joinSegments stack ++ y) 0) Path.slash
  = false.
Proof.
  revert y. induction stack as [|s rest IH]; intros y Hnormal Hne;
    [congruence|].
  destruct (normalStack_inv aar s rest Hnormal) as [_ Hrest].
  destruct (normalStack_top aar s rest Hnormal) as [Hfree Hlen].
  destruct rest as [|t rest].
  - cbn [Path.joinSegments]. unfold Path.charCodeAt.
    rewrite get_append_l by exact Hlen. apply slashFree_get, Hfree.
  - rewrite joinSegments_cons, append_assoc.
    apply IH; [exact Hrest|discriminate].
Qed.

(** [normalizeString] is the identity on the text of a normal stack,
    behind a root or not. *)
Lemma normalizeString_segmentsText (root : bool) (aar : bool)
      (stack : list string) :
  Path.normalStack aar stack = true -> stack <> [] ->
  Path.normalizeString
    ((if root then "/" else "") ++ Path.segmentsText stack) aar
  = Path.joinSegments stack.
Proof.
  intros Hnormal Hne. unfold Path.normalizeString.
  rewrite normLoop_all. cbn [Path.normLoop].
  assert (Hlast : Path.lastChar
                    ((if root then "/" else "") ++ Path.segmentsText stack)
                    zero = "/"%char).
  { rewrite (segmentsText_join stack Hne), <- append_assoc.
    apply lastChar_snoc. }
  rewrite Hlast. cbn [Ascii.eqb Path.slash Bool.eqb andb].
  rewrite normPrefix_app.
  assert (Hroot :
            stackState aar
              (Path.normPrefix
                 ((if root then "/" else "") ++ Path.segmentsText stack) aar
                 (if root then "/" else "") 0 (Path.mkNorm "" 0 (-1) 0)) [] /\
            Path.lastSlash
              (Path.normPrefix
                 ((if root then "/" else "") ++ Path.segmentsText stack) aar
                 (if root then "/" else "") 0 (Path.mkNorm "" 0 (-1) 0))
            = (Path.len (if root then "/" else "") - 1)%Z /\
            Path.dots
              (Path.normPrefix
                 ((if root then "/" else "") ++ Path.segmentsText stack) aar
                 (if root then "/" else "") 0 (Path.mkNorm "" 0 (-1) 0))
            = 0%Z).
  { destruct root; cbn [Path.normPrefix].
    - unfold Path.normStep, Path.normSeparator.
      cbn [Ascii.eqb Path.slash Bool.eqb andb Path.lastSlash Z.eqb Z.sub
           Z.add Z.opp Z.pos_sub Pos.eqb orb].
      repeat split.
    - repeat split. }
  destruct Hroot as (Hst & Hls & Hdots).
  pose proof (normPrefix_segmentsText aar stack Hnormal
                (if root then "/" else "") "" _ Hst Hls Hdots) as Hrun.
  cbv zeta in Hrun. rewrite append_empty_r in Hrun.
  rewrite Z.add_0_l. apply Hrun.
Qed.

Lemma dirPrefix_stack (d : string) :
  exists stack,
    Path.normalStack
      (negb (Path.codeIs (Path.charCodeAt d 0) Path.slash)) stack = true /\
    Path.dirPrefix d =
    (if Path.codeIs (Path.charCodeAt d 0) Path.slash then "/" else "")
    ++ Path.segmentsText stack.
Proof.
  unfold Path.dirPrefix.
  set (abs := Path.codeIs (Path.charCodeAt d 0) Path.slash).
  destruct (normalizeString_normal (d ++ "/") (negb abs))
    as (stack & -> & Hnormal).
  exists stack. split; [exact Hnormal|]. f_equal.
  destruct stack as [|s rest]; [reflexivity|].
  pose proof (joinSegments_nonempty _ (s :: rest) Hnormal
                ltac:(discriminate)) as Hlen.
  replace (String.length (Path.joinSegments (s :: rest)) =? 0)%nat
    with false by (symmetry; apply Nat.eqb_neq; lia).
  symmetry. apply segmentsText_join. discriminate.
Qed.

(** The prefix of a directory below [d] extends the prefix of [d]. *)
Lemma dirPrefix_segment (d x : string) :
  Path.isSegment x = true ->
  Path.dirPrefix (Path.dirPrefix d ++ x) = Path.dirPrefix d ++ x ++ "/".
Proof.
  intros Hseg. destruct (isSegment_inv x Hseg) as [Hfree Hlen].
  destruct (dirPrefix_stack d) as (stack & Hnormal & ->).
  set (abs := Path.codeIs (Path.charCodeAt d 0) Path.slash) in *.
  assert (Hnormal' : Path.normalStack (negb abs) (x :: stack) = true)
    by (cbn [Path.normalStack]; rewrite Hseg; exact Hnormal).
  assert (Htext : ((if abs then "/" else "") ++ Path.segmentsText stack) ++ x
                  ++ "/"
                  = (if abs then "/" else "")
                    ++ Path.segmentsText (x :: stack))
    by (cbn [Path.segmentsText]; rewrite !append_assoc; reflexivity).
  assert (Habs : Path.codeIs
                   (Path.charCodeAt
                      (((if abs then "/" else "") ++ Path.segmentsText stack)
                       ++ x) 0) Path.slash = abs).
  { destruct abs; [reflexivity|]. cbn [append].
    destruct stack as [|s rest].
    - cbn [Path.segmentsText append]. unfold Path.charCodeAt.
      apply slashFree_get, Hfree.
    - rewrite segmentsText_join by discriminate.
      rewrite !append_assoc.
      apply (joinSegments_first _ (s :: rest) _ Hnormal). discriminate. }
  unfold Path.dirPrefix at 1. rewrite Habs.
  rewrite append_assoc in Htext. rewrite !append_assoc.
  rewrite <- append_assoc, <- append_assoc.
  rewrite !append_assoc, Htext.
  rewrite (normalizeString_segmentsText abs (negb abs) (x :: stack) Hnormal')
    by discriminate.
  pose proof (joinSegments_nonempty _ (x :: stack) Hnormal'
                ltac:(discriminate)) as Hpos.
  replace (String.length (Path.joinSegments (x :: stack)) =? 0)%nat
    with false by (symmetry; apply Nat.eqb_neq; lia).
  rewrite <- (segmentsText_join (x :: stack)) by discriminate.
  cbn [Path.segmentsText]. reflexivity.
Qed.

(** Joining a directory, a segment and a second segment puts both
    segments, as they are, behind the normalised directory. *)
Lemma join_two_segments (d x y : string) :
  d <> "" -> Path.isSegment x = true -> Path.isSegment y = true ->
  Path.join [Path.join [d; x]; y] = Path.dirPrefix d ++ x ++ "/" ++ y.
Proof.
  intros Hd Hx Hy. rewrite (join_segment d x Hd Hx).
  rewrite join_segment; [|intros E|exact Hy].
  - rewrite (dirPrefix_segment d x Hx), !append_assoc. reflexivity.
  - apply (f_equal String.length) in E. rewrite length_append in E.
    destruct (isSegment_inv x Hx) as [_ Hlen]. cbn in E. lia.
Qed.

(** ** [extname] *)

(** One round of the loop of [extname] on a character that is neither a
    separator nor a dot, and on a dot. *)
Lemma extnameLoop_plain (path : string) (i : nat) (c : ascii)
      (sd sp e pds : Z) (ms : bool) :
  Path.charCodeAt path i = Some c ->
  Ascii.eqb c Path.slash = false -> Ascii.eqb c Path.dot = false ->
  Path.extnameLoop path (S i) (Path.mkExt sd sp e ms pds) =
  Path.extnameLoop path i
    (Path.mkExt sd sp
       (if (e =? -1)%Z then (Z.of_nat i + 1)%Z else e)
       (if (e =? -1)%Z then false else ms)
       (if (sd =? -1)%Z then pds else (-1)%Z)).
Proof.
  intros Hc Hs Hd. cbn [Path.extnameLoop]. rewrite Hc.
  cbn [Path.codeIs]. rewrite Hs, Hd. cbn [Path.eEnd].
  destruct (e =? -1)%Z; cbn [Path.eStartDot]; destruct (sd =? -1)%Z;
    reflexivity.
Qed.

Lemma extnameLoop_dot (path : string) (i : nat) (sd sp e pds : Z)
      (ms : bool) :
  Path.charCodeAt path i = Some Path.dot ->
  Path.extnameLoop path (S i) (Path.mkExt sd sp e ms pds) =
  Path.extnameLoop path i
    (Path.mkExt
       (if (sd =? -1)%Z then Z.of_nat i else sd) sp
       (if (e =? -1)%Z then (Z.of_nat i + 1)%Z else e)
       (if (e =? -1)%Z then false else ms)
       (if (sd =? -1)%Z then pds else if (pds =? 1)%Z then pds else 1%Z)).
Proof.
  intros Hc. cbn [Path.extnameLoop]. rewrite Hc.
  cbn [Path.codeIs Path.dot Path.slash Ascii.eqb Bool.eqb andb Path.eEnd].
  destruct (e =? -1)%Z; cbn [Path.eStartDot]; destruct (sd =? -1)%Z;
    cbn [Path.ePreDotState negb]; try reflexivity;
    destruct (pds =? 1)%Z; reflexivity.
Qed.

(** Before the dot of the extension, in the file name: the state only
    records that something precedes the dot. *)
Lemma extnameLoop_skip (path : string) (i k : nat) (sd sp e : Z)
      (ms : bool) :
  (forall j, i <= j < i + k ->
             Path.codeIs (Path.charCodeAt path j) Path.slash = false /\
             Path.charCodeAt path j <> None) ->
  sd <> (-1)%Z -> e <> (-1)%Z ->
  forall pds,
  exists pds',
    Path.extnameLoop path (i + k) (Path.mkExt sd sp e ms pds) =
    Path.extnameLoop path i (Path.mkExt sd sp e ms pds') /\
    (0 < k -> pds' = 1%Z \/ pds' = (-1)%Z) /\ (k = 0 -> pds' = pds).
Proof.
  intros Hfree Hsd He. apply Z.eqb_neq in Hsd, He.
  induction k as [|k IH]; intros pds.
  - exists pds. rewrite Nat.add_0_r. split; [reflexivity|split; [lia|auto]].
  - replace (i + S k) with (S (i + k)) by lia.
    destruct (Hfree (i + k) ltac:(lia)) as [Hns Hsome].
    destruct (Path.charCodeAt path (i + k)) as [c|] eqn:Ec; [|congruence].
    cbn [Path.codeIs] in Hns.
    assert (Hfree' : forall j, i <= j < i + k ->
              Path.codeIs (Path.charCodeAt path j) Path.slash = false /\
              Path.charCodeAt path j <> None)
      by (intros j Hj; apply Hfree; lia).
    destruct (Ascii.eqb c Path.dot) eqn:Ed.
    + apply Ascii.eqb_eq in Ed. subst c.
      rewrite (extnameLoop_dot path (i + k) sd sp e pds ms Ec).
      rewrite Hsd, He.
      destruct (IH Hfree' (if (pds =? 1)%Z then pds else 1%Z))
        as (pds' & E & Hpos & Hzero).
      exists pds'. split; [exact E|]. split; [|lia]. intros _.
      destruct k; [|apply Hpos; lia].
      rewrite (Hzero eq_refl).
      destruct (Z.eqb_spec pds 1); [left; assumption|left; reflexivity].
    + rewrite (extnameLoop_plain path (i + k) c sd sp e pds ms Ec Hns Ed).
      rewrite Hsd, He.
      destruct (IH Hfree' (-1)%Z) as (pds' & E & Hpos & Hzero).
      exists pds'. split; [exact E|]. split; [|lia]. intros _.
      destruct k; [|apply Hpos; lia].
      rewrite (Hzero eq_refl). right. reflexivity.
Qed.

(** The state of the loop of [extname(q ++ ".json")] when it has read the
    five characters of the extension. *)
Lemma extnameLoop_json (q : string) :
  Path.extnameLoop (q ++ ".json") (String.length (q ++ ".json"))
                   (Path.mkExt (-1) 0 (-1) true 0) =
  Path.extnameLoop (q ++ ".json") (String.length q)
    (Path.mkExt (Path.len q) 0 (Path.len (q ++ ".json")) false 0).
Proof.
  assert (Hget : forall j, Path.charCodeAt (q ++ ".json") (String.length q + j)
                           = Path.charCodeAt ".json" j)
    by (intros j; apply get_append_r).
  unfold Path.len. rewrite length_append. cbn [String.length].
  replace (String.length q + 5) with (S (String.length q + 4)) at 1 by lia.
  rewrite (extnameLoop_plain _ _ "n");
    [|rewrite Hget; reflexivity|reflexivity|reflexivity].
  cbn [Z.eqb Pos.eqb].
  replace (String.length q + 4) with (S (String.length q + 3)) at 1 by lia.
  rewrite (extnameLoop_plain _ _ "o");
    [|rewrite Hget; reflexivity|reflexivity|reflexivity].
  rewrite succ_eqb_minus_one. cbn [Z.eqb Pos.eqb].
  replace (String.length q + 3) with (S (String.length q + 2)) at 1 by lia.
  rewrite (extnameLoop_plain _ _ "s");
    [|rewrite Hget; reflexivity|reflexivity|reflexivity].
  rewrite succ_eqb_minus_one. cbn [Z.eqb Pos.eqb].
  replace (String.length q + 2) with (S (String.length q + 1)) at 1 by lia.
  rewrite (extnameLoop_plain _ _ "j");
    [|rewrite Hget; reflexivity|reflexivity|reflexivity].
  rewrite succ_eqb_minus_one. cbn [Z.eqb Pos.eqb].
  replace (String.length q + 1) with (S (String.length q + 0)) at 1 by lia.
  rewrite extnameLoop_dot by (rewrite Hget; reflexivity).
  rewrite succ_eqb_minus_one. cbn [Z.eqb Pos.eqb].
  rewrite !Nat.add_0_r. f_equal. f_equal. lia.
Qed.

Lemma get_in_range (s : string) (i : nat) :
  i < String.length s -> String.get i s <> None.
Proof.
  revert i. induction s as [|c s IH]; intros i Hi; cbn in Hi; [lia|].
  destruct i as [|i]; cbn; [discriminate|]. apply IH. lia.
Qed.

(** The extension of [x/nm.json] is [.json]. *)
Lemma extname_json (x nm : string) :
  Path.isFileName nm = true ->
  Path.extname (x ++ String "/" (nm ++ ".json")) = ".json".
Proof.
  intros Hnm. apply isFileName_inv in Hnm. destruct Hnm as [Hs Hlen].
  assert (Epath : x ++ String "/" (nm ++ ".json")
                  = (x ++ String "/" nm) ++ ".json")
    by (rewrite append_assoc; reflexivity).
  assert (Hfree : forall j,
            S (String.length x) <= j < S (String.length x) + String.length nm ->
            Path.codeIs
              (Path.charCodeAt (x ++ String "/" (nm ++ ".json")) j)
              Path.slash = false /\
            Path.charCodeAt (x ++ String "/" (nm ++ ".json")) j <> None).
  { intros j Hj. split.
    - apply code_in_name; [|lia]. rewrite slashFree_append, Hs. reflexivity.
    - unfold Path.charCodeAt. apply get_in_range.
      rewrite length_append. cbn [String.length]. rewrite length_append. lia. }
  pose proof (code_at_separator x (nm ++ ".json")) as Hsep.
  assert (Hloop : exists pds,
            Path.extnameLoop (x ++ String "/" (nm ++ ".json"))
              (String.length (x ++ String "/" (nm ++ ".json")))
              (Path.mkExt (-1) 0 (-1) true 0) =
            Path.mkExt (Path.len (x ++ String "/" nm))
                       (Z.of_nat (String.length x) + 1)
                       (Path.len (x ++ String "/" (nm ++ ".json"))) false pds
            /\ (pds = 1 \/ pds = -1)%Z).
  { rewrite Epath, extnameLoop_json, <- Epath.
    replace (String.length (x ++ String "/" nm))
      with (S (String.length x) + String.length nm)
      by (rewrite length_append; cbn [String.length]; lia).
    destruct (extnameLoop_skip _ _ _
                (Path.len (x ++ String "/" nm)) 0
                (Path.len (x ++ String "/" (nm ++ ".json"))) false Hfree
                ltac:(unfold Path.len; lia) ltac:(unfold Path.len; lia) 0%Z)
      as (pds & E & Hpos & _).
    exists pds. split; [|apply Hpos; exact Hlen].
    rewrite E. cbn [Path.extnameLoop]. rewrite Hsep. reflexivity. }
  destruct Hloop as (pds & Hloop & Hpds).
  unfold Path.extname. rewrite Hloop.
  cbn [Path.eStartDot Path.eEnd Path.ePreDotState Path.eStartPart].
  replace (Path.len (x ++ String "/" nm) =? -1)%Z with false
    by (symmetry; apply Z.eqb_neq; unfold Path.len; lia).
  replace (Path.len (x ++ String "/" (nm ++ ".json")) =? -1)%Z with false
    by (symmetry; apply Z.eqb_neq; unfold Path.len; lia).
  replace (pds =? 0)%Z with false
    by (symmetry; apply Z.eqb_neq; lia).
  replace (Path.len (x ++ String "/" nm)
           =? Path.len (x ++ String "/" (nm ++ ".json")) - 1)%Z with false
    by (symmetry; apply Z.eqb_neq; unfold Path.len;
        rewrite Epath, !length_append; cbn [String.length]; lia).
  rewrite andb_false_r. cbn [orb andb].
  rewrite Epath. apply slice_append_r.
Qed.

Lemma digits_string_slashFree (d : Decimal.uint) :
  Path.slashFree (NilEmpty.string_of_uint d) = true.
Proof. induction d; cbn; auto. Qed.

Lemma numberToString_slashFree (n : N) :
  Path.slashFree (numberToString n) = true.
Proof.
  unfold numberToString, NilZero.string_of_uint.
  destruct (N.to_uint n) eqn:E; try reflexivity;
    rewrite <- E; apply digits_string_slashFree.
Qed.

(** The numbered paths of [x/nm.json], written out: the counter stands in
    parentheses between the stem and the extension. *)
Lemma numberedPath_literal (x nm : string) (n : N) :
  x <> "" -> Path.isFileName nm = true ->
  numberedPath (x ++ "/" ++ nm ++ ".json") n =
  Path.dirPrefix x ++ nm ++ " (" ++ numberToString n ++ ").json".
Proof.
  intros Hx Hnm. unfold numberedPath.
  change (x ++ "/" ++ nm ++ ".json") with (x ++ String "/" (nm ++ ".json")).
  rewrite (extname_json x nm Hnm), (basename_json_append x nm Hnm).
  assert (Hseg : Path.isSegment (nm ++ " (" ++ numberToString n ++ ")" ++ ".json")
                 = true).
  { destruct (isFileName_inv nm Hnm) as [Hs Hlen].
    apply isSegment_long.
    - unfold Path.isFileName.
      rewrite !slashFree_append, Hs, numberToString_slashFree.
      destruct nm; [cbn in Hlen; lia|reflexivity].
    - rewrite !length_append. cbn. lia. }
  destruct (String.eqb_spec x "/") as [->|Hroot].
  - cbn [append]. rewrite dirname_root_append by (apply isFileName_json, Hnm).
    rewrite join_segment by (try exact Hseg; discriminate).
    reflexivity.
  - rewrite dirname_append
      by (try apply isFileName_json; assumption).
    rewrite join_segment by assumption. reflexivity.
Qed.

(** ** A language tag is a file name *)

Lemma forallChars_impl (p q : ascii -> bool) (s : string) :
  (forall c, p c = true -> q c = true) ->
  forallChars p s = true -> forallChars q s = true.
Proof.
  intros Hpq. induction s as [|c s IH]; cbn; [reflexivity|].
  intros H. apply andb_true_iff in H. destruct H as [Hc Hs].
  rewrite (Hpq c Hc), (IH Hs). reflexivity.
Qed.

Lemma letter_not_slash (c : ascii) :
  isLetter c = true -> negb (Ascii.eqb c Path.slash) = true.
Proof. destruct c as [[] [] [] [] [] [] [] []]; vm_compute; congruence. Qed.

Lemma digit_not_slash (c : ascii) :
  isDigit c = true -> negb (Ascii.eqb c Path.slash) = true.
Proof. destruct c as [[] [] [] [] [] [] [] []]; vm_compute; congruence. Qed.

Lemma letters_slashFree (s : string) :
  forallChars isLetter s = true -> Path.slashFree s = true.
Proof. apply forallChars_impl, letter_not_slash. Qed.

Lemma digits_slashFree (s : string) :
  forallChars isDigit s = true -> Path.slashFree s = true.
Proof. apply forallChars_impl, digit_not_slash. Qed.

Lemma wellFormed_isFileName (l : string) (sc rg : option string) :
  wellFormed l sc rg = true -> Path.isFileName (assemble l sc rg) = true.
Proof.
  unfold wellFormed. intros H.
  apply andb_true_iff in H. destruct H as [H Hrg].
  apply andb_true_iff in H. destruct H as [Hl Hsc].
  unfold isLanguage in Hl.
  apply andb_true_iff in Hl. destruct Hl as [Hlen Hl].
  apply andb_true_iff in Hlen. destruct Hlen as [Hlen _].
  unfold Path.isFileName, assemble. apply andb_true_iff. split.
  - destruct l; [discriminate Hlen|reflexivity].
  - rewrite !slashFree_append, (letters_slashFree l Hl).
    assert (Es : Path.slashFree (subtag sc) = true).
    { destruct sc as [sc|]; [|reflexivity]. cbn [subtag optional] in *.
      rewrite slashFree_append. unfold isScript in Hsc.
      apply andb_true_iff in Hsc. destruct Hsc as [_ Hsc].
      rewrite (letters_slashFree sc Hsc). reflexivity. }
    assert (Er : Path.slashFree (subtag rg) = true).
    { destruct rg as [rg|]; [|reflexivity]. cbn [subtag optional] in *.
      rewrite slashFree_append. unfold isRegion in Hrg.
      apply orb_true_iff in Hrg.
      destruct Hrg as [Hrg|Hrg]; apply andb_true_iff in Hrg;
        destruct Hrg as [_ Hrg].
      - rewrite (letters_slashFree rg Hrg). reflexivity.
      - rewrite (digits_slashFree rg Hrg). reflexivity. }
    rewrite Es, Er. reflexivity.
Qed.

Lemma test_isFileName (s : string) :
  test languageCodeRegex s = true -> Path.isFileName s = true.
Proof.
  intros H. apply test_true_iff in H.
  destruct H as (l & sc & rg & -> & Hwf).
  apply wellFormed_isFileName, Hwf.
Qed.

Lemma test_truthy (s : string) :
  test languageCodeRegex s = true -> truthy s = true.
Proof.
  intros H. apply test_isFileName in H. unfold Path.isFileName in H.
  apply andb_true_iff in H. apply H.
Qed.

(** ** The structure detector *)

Lemma detect_folder (p : string) :
  test languageCodeRegex (Path.basename (Path.dirname p) None) = true ->
  detectProjectStructure p =
  {| type := FolderBased;
     basePath := Path.dirname (Path.dirname p);
     sourceLanguage := Some (Path.basename (Path.dirname p) None) |}.
Proof. intros H. unfold detectProjectStructure. rewrite H. reflexivity. Qed.

Lemma detect_file (p : string) :
  test languageCodeRegex (Path.basename (Path.dirname p) None) = false ->
  test languageCodeRegex (Path.basename p (Some ".json")) = true ->
  detectProjectStructure p =
  {| type := FileBased;
     basePath := Path.dirname p;
     sourceLanguage := Some (Path.basename p (Some ".json")) |}.
Proof.
  intros H1 H2. unfold detectProjectStructure. rewrite H1, H2. reflexivity.
Qed.

(** What a detected kind says about the path. *)
Lemma detect_folder_inv (p : string) :
  type (detectProjectStructure p) = FolderBased ->
  test languageCodeRegex (Path.basename (Path.dirname p) None) = true.
Proof.
  unfold detectProjectStructure.
  destruct (test languageCodeRegex (Path.basename (Path.dirname p) None));
    [reflexivity|].
  destruct (test languageCodeRegex (Path.basename p (Some ".json")));
    discriminate.
Qed.

Lemma detect_file_inv (p : string) :
  type (detectProjectStructure p) = FileBased ->
  test languageCodeRegex (Path.basename (Path.dirname p) None) = false /\
  test languageCodeRegex (Path.basename p (Some ".json")) = true.
Proof.
  unfold detectProjectStructure.
  destruct (test languageCodeRegex (Path.basename (Path.dirname p) None));
    [discriminate|].
  destruct (test languageCodeRegex (Path.basename p (Some ".json")));
    [split; reflexivity|discriminate].
Qed.

(** The source language is present exactly in the two recognised kinds,
    and it matches the pattern. *)
Lemma detect_sourceLanguage (p lang : string) :
  sourceLanguage (detectProjectStructure p) = Some lang ->
  test languageCodeRegex lang = true.
Proof.
  unfold detectProjectStructure.
  destruct (test languageCodeRegex (Path.basename (Path.dirname p) None))
    eqn:E1.
  - intros [= <-]. exact E1.
  - destruct (test languageCodeRegex (Path.basename p (Some ".json")))
      eqn:E2; [|discriminate].
    intros [= <-]. exact E2.
Qed.

(** A path laid out as [base/dir/file]. *)
Lemma detect_folder_layout (base dir file : string) :
  base <> "" -> base <> "/" ->
  test languageCodeRegex dir = true -> Path.isFileName file = true ->
  detectProjectStructure (folderBasedPath base dir file) =
  {| type := FolderBased; basePath := base; sourceLanguage := Some dir |}.
Proof.
  intros Hbase Hroot Hdir Hfile. unfold folderBasedPath.
  pose proof (test_isFileName dir Hdir) as Hname.
  assert (Hsplit : base ++ "/" ++ dir ++ "/" ++ file
                   = (base ++ String "/" dir) ++ String "/" file)
    by (rewrite !append_assoc; reflexivity).
  assert (Hdirname : Path.dirname (base ++ "/" ++ dir ++ "/" ++ file)
                     = base ++ String "/" dir).
  { rewrite Hsplit. apply dirname_append; [exact Hfile| |].
    - destruct base; [congruence|discriminate].
    - intros E. apply (f_equal String.length) in E.
      rewrite length_append in E. cbn [String.length] in E.
      destruct base; [congruence|cbn [String.length] in E; lia]. }
  rewrite detect_folder; rewrite Hdirname, basename_append by exact Hname.
  - rewrite dirname_append by assumption. reflexivity.
  - exact Hdir.
Qed.

(** C3: when the name of the directory that contains the source file
    matches the language-tag pattern, the structure is folder-based, its
    base path is the directory above that directory and its source language
    is the directory name as it is written; whether the stem of the file
    matches too plays no role, and the result is never file-based.  For a
    path written [base/dir/file] these are [base] and [dir]. *)
Theorem detect_folder_priority (p : string) :
  (test languageCodeRegex (Path.basename (Path.dirname p) None) = true ->
   detectProjectStructure p =
   {| type := FolderBased;
      basePath := Path.dirname (Path.dirname p);
      sourceLanguage := Some (Path.basename (Path.dirname p) None) |}
   /\ type (detectProjectStructure p) <> FileBased) /\
  (forall base dir file,
      p = folderBasedPath base dir file ->
      base <> "" -> base <> "/" ->
      test languageCodeRegex dir = true -> Path.isFileName file = true ->
      detectProjectStructure p =
      {| type := FolderBased; basePath := base; sourceLanguage := Some dir |}).
Proof.
  split.
  - intros H. rewrite (detect_folder p H).
    split; [reflexivity|discriminate].
  - intros base dir file -> Hbase Hroot Hdir Hfile.
    apply detect_folder_layout; assumption.
Qed.

Lemma detect_folder_priority_witness :
  test languageCodeRegex (Path.basename "locales/EN/en.json" (Some ".json"))
  = true /\
  detectProjectStructure "locales/EN/en.json" =
  {| type := FolderBased; basePath := "locales"; sourceLanguage := Some "EN" |}
  /\ type (detectProjectStructure "locales/EN/en.json") <> FileBased.
Proof.
  split; [reflexivity|].
  apply (proj1 (detect_folder_priority "locales/EN/en.json")). reflexivity.
Defined.

(** The round trip below is about the rebuilt path as it is written.
    [path.join] normalises its result, and on a base path that is not
    normalised it can yield a path of another kind. *)
Lemma join_can_change_kind :
  detectProjectStructure "en/./fr.json" =
  {| type := FileBased; basePath := "en/."; sourceLanguage := Some "fr" |} /\
  Path.join ["en/."; "fr.json"] = "en/fr.json" /\
  type (detectProjectStructure "en/fr.json") = FolderBased.
Proof. repeat split; vm_compute; reflexivity. Qed.

(** C9: the result of the detector round-trips.  For a folder-based
    result, the path [basePath/sourceLanguage/file] of any file name is
    detected as folder-based again; for a file-based result, the path
    [basePath/sourceLanguage.json] is detected as file-based again. *)
Theorem detect_roundtrip (p lang : string) :
  sourceLanguage (detectProjectStructure p) = Some lang ->
  (type (detectProjectStructure p) = FolderBased ->
   forall file,
     Path.isFileName file = true ->
     type (detectProjectStructure
             (folderBasedPath (basePath (detectProjectStructure p)) lang file))
     = FolderBased) /\
  (type (detectProjectStructure p) = FileBased ->
   type (detectProjectStructure
           (fileBasedPath (basePath (detectProjectStructure p)) lang))
   = FileBased).
Proof.
  intros Hlang. pose proof (detect_sourceLanguage p lang Hlang) as Htest.
  pose proof (test_isFileName lang Htest) as Hname.
  split.
  - intros _ file Hfile. unfold folderBasedPath.
    set (base := basePath (detectProjectStructure p)).
    replace (base ++ "/" ++ lang ++ "/" ++ file)
      with ((base ++ String "/" lang) ++ String "/" file)
      by (rewrite !append_assoc; reflexivity).
    rewrite detect_folder; [reflexivity|].
    rewrite dirname_append; [rewrite basename_append; assumption|exact Hfile| |].
    + destruct base; discriminate.
    + intros E. apply (f_equal String.length) in E.
      rewrite length_append in E. cbn [String.length] in E.
      apply isFileName_inv in Hname. lia.
  - intros Hkind. destruct (detect_file_inv p Hkind) as [Hparent Hstem].
    assert (Elang : Path.basename p (Some ".json") = lang).
    { rewrite (detect_file p Hparent Hstem) in Hlang.
      cbn [sourceLanguage] in Hlang. congruence. }
    assert (Ebase : basePath (detectProjectStructure p) = Path.dirname p)
      by (rewrite (detect_file p Hparent Hstem); reflexivity).
    rewrite Ebase. clear Ebase Hstem Elang Hlang Hkind.
    unfold fileBasedPath.
    change (Path.dirname p ++ "/" ++ lang ++ ".json")
      with (Path.dirname p ++ String "/" (lang ++ ".json")).
    rewrite detect_file; [reflexivity| |].
    + destruct (String.eqb_spec (Path.dirname p) "/") as [E|E].
      * rewrite E. cbn [append].
        rewrite dirname_root_append by (apply isFileName_json, Hname).
        reflexivity.
      * rewrite dirname_append;
          [exact Hparent|apply isFileName_json, Hname
          |apply dirname_nonempty|exact E].
    + rewrite basename_json_append by exact Hname. exact Htest.
Qed.

Lemma detect_roundtrip_witness :
  (type (detectProjectStructure "locales/en/common.json") = FolderBased ->
   forall file,
     Path.isFileName file = true ->
     type (detectProjectStructure (folderBasedPath "locales" "en" file))
     = FolderBased) /\
  (type (detectProjectStructure "i18n/Fr.json") = FileBased ->
   type (detectProjectStructure (fileBasedPath "i18n" "Fr")) = FileBased).
Proof.
  split.
  - apply (detect_roundtrip "locales/en/common.json" "en"). reflexivity.
  - apply (detect_roundtrip "i18n/Fr.json" "Fr"). reflexivity.
Defined.

(** ** Sets and sorting *)

Lemma In_add (s : StringSet.t) (x y : string) :
  In x (StringSet.add s y) <-> In x s \/ x = y.
Proof.
  unfold StringSet.add. destruct (StringSet.has s y) eqn:E.
  - split; [auto|]. intros [Hx| ->]; [exact Hx|].
    unfold StringSet.has in E. apply existsb_exists in E.
    destruct E as (z & Hz & Ez). apply String.eqb_eq in Ez. congruence.
  - rewrite in_app_iff. cbn. intuition congruence.
Qed.

Lemma In_delete (s : StringSet.t) (x y : string) :
  In x (StringSet.delete s y) <-> In x s /\ x <> y.
Proof.
  unfold StringSet.delete. rewrite filter_In, negb_true_iff, String.eqb_neq.
  reflexivity.
Qed.

Lemma In_insertSorted (cmp : string -> string -> Z) (x y : string)
      (l : list string) :
  In x (insertSorted cmp y l) <-> x = y \/ In x l.
Proof.
  induction l as [|z l IH]; cbn.
  - intuition congruence.
  - destruct (cmp y z <=? 0)%Z; cbn; [intuition congruence|].
    rewrite IH. intuition congruence.
Qed.

Lemma In_sortWith (cmp : string -> string -> Z) (x : string)
      (l : list string) :
  In x (sortWith cmp l) <-> In x l.
Proof.
  induction l as [|y l IH]; cbn; [reflexivity|].
  rewrite In_insertSorted, IH. intuition congruence.
Qed.

Lemma insertSorted_sorted (cmp : string -> string -> Z) (x : string)
      (l : list string) :
  (forall a b, ordered cmp a b \/ ordered cmp b a) ->
  Sorted (ordered cmp) l -> Sorted (ordered cmp) (insertSorted cmp x l).
Proof.
  intros Htotal Hl. induction Hl as [|y l Hl IH Hhd]; cbn.
  - repeat constructor.
  - destruct (cmp x y <=? 0)%Z eqn:E.
    + apply Z.leb_le in E. repeat constructor; assumption.
    + apply Z.leb_gt in E. constructor; [exact IH|].
      assert (Hyx : ordered cmp y x).
      { destruct (Htotal x y) as [Hxy|Hyx]; [unfold ordered in Hxy; lia|].
        exact Hyx. }
      destruct Hhd as [|z l' Hyz]; cbn.
      * constructor. exact Hyx.
      * destruct (cmp x z <=? 0)%Z; constructor; assumption.
Qed.

Lemma sortWith_sorted (cmp : string -> string -> Z) (l : list string) :
  consistent cmp -> StronglySorted (ordered cmp) (sortWith cmp l).
Proof.
  intros [Htotal Htrans]. apply Sorted_StronglySorted.
  - intros a b c. apply Htrans.
  - induction l as [|x l IH]; cbn; [constructor|].
    apply insertSorted_sorted; assumption.
Qed.

(** The root collation is consistent. *)
Lemma compareChars_total (a b : string) :
  (compareChars a b <= 0)%Z \/ (compareChars b a <= 0)%Z.
Proof.
  revert b. induction a as [|x a IH]; intros [|y b]; cbn [compareChars];
    try lia.
  destruct (Nat.ltb_spec (nat_of_ascii (lowerChar x))
                         (nat_of_ascii (lowerChar y)));
    destruct (Nat.ltb_spec (nat_of_ascii (lowerChar y))
                           (nat_of_ascii (lowerChar x)));
    try lia.
  apply IH.
Qed.

Lemma compareChars_trans (a b c : string) :
  (compareChars a b <= 0)%Z -> (compareChars b c <= 0)%Z ->
  (compareChars a c <= 0)%Z.
Proof.
  revert b c.
  induction a as [|x a IH]; intros [|y b] [|z c]; cbn [compareChars];
    try lia.
  destruct (Nat.ltb_spec (nat_of_ascii (lowerChar x))
                         (nat_of_ascii (lowerChar y)));
    destruct (Nat.ltb_spec (nat_of_ascii (lowerChar y))
                           (nat_of_ascii (lowerChar x)));
    destruct (Nat.ltb_spec (nat_of_ascii (lowerChar y))
                           (nat_of_ascii (lowerChar z)));
    destruct (Nat.ltb_spec (nat_of_ascii (lowerChar z))
                           (nat_of_ascii (lowerChar y)));
    destruct (Nat.ltb_spec (nat_of_ascii (lowerChar x))
                           (nat_of_ascii (lowerChar z)));
    destruct (Nat.ltb_spec (nat_of_ascii (lowerChar z))
                           (nat_of_ascii (lowerChar x)));
    try lia.
  apply IH.
Qed.

Lemma compareChars_consistent : consistent compareChars.
Proof.
  split; [exact compareChars_total|exact compareChars_trans].
Qed.

(** ** [endsWith] *)

Lemma substring_skip_split (s : string) (n : nat) :
  n <= String.length s ->
  s = substring 0 n s ++ substring n (String.length s - n) s.
Proof.
  revert n. induction s as [|c s IH]; intros n Hn.
  - destruct n; reflexivity.
  - destruct n as [|n]; cbn [String.length] in *.
    + cbn. rewrite substring_all. reflexivity.
    + cbn. f_equal. apply IH. lia.
Qed.

Lemma endsWith_split (s suffix : string) :
  endsWith s suffix = true -> exists pre, s = pre ++ suffix.
Proof.
  unfold endsWith, sliceFrom. intros H. apply andb_true_iff in H.
  destruct H as [Hlen Heq]. apply Nat.leb_le in Hlen.
  apply String.eqb_eq in Heq.
  exists (substring 0 (String.length s - String.length suffix) s).
  pose proof (substring_skip_split s
                (String.length s - String.length suffix)) as Hsplit.
  rewrite Heq in Hsplit. apply Hsplit. lia.
Qed.

(** ** The language enumerator *)

Lemma json_entry_name (nm x : string) :
  Path.slashFree nm = true -> endsWith nm ".json" = true ->
  Path.basename nm (Some ".json") = x ->
  test languageCodeRegex x = true ->
  nm = x ++ ".json".
Proof.
  intros Hs Hends Hbase Htest.
  destruct (endsWith_split nm ".json" Hends) as [pre ->].
  rewrite slashFree_append in Hs. apply andb_true_iff in Hs.
  destruct Hs as [Hs _].
  destruct pre as [|c pre].
  - cbn in Hbase. subst x. discriminate Htest.
  - rewrite basename_json_name in Hbase
      by (unfold Path.isFileName; rewrite Hs; reflexivity).
    congruence.
Qed.

Lemma scan_directories (entries : list Dirent) (acc : StringSet.t)
      (x : string) :
  In x (fold_left addLanguageDirectory entries acc) ->
  In x acc \/
  (test languageCodeRegex x = true /\
   exists entry,
     In entry entries /\ isDirectory entry = true /\ name entry = x).
Proof.
  revert acc. induction entries as [|e entries IH]; intros acc; cbn.
  - auto.
  - intros Hx. destruct (IH _ Hx) as [Hacc|(Ht & e' & Hin & Hd & Hn)].
    + unfold addLanguageDirectory in Hacc.
      destruct (isDirectory e && test languageCodeRegex (name e)) eqn:E;
        [|left; exact Hacc].
      apply In_add in Hacc. destruct Hacc as [Hacc| ->]; [left; exact Hacc|].
      apply andb_true_iff in E. destruct E as [Ed Et].
      right. split; [exact Et|]. exists e. auto.
    + right. split; [exact Ht|]. exists e'. auto.
Qed.

Lemma scan_files (entries : list Dirent) (acc : StringSet.t) (x : string) :
  In x (fold_left addLanguageFile entries acc) ->
  In x acc \/
  (test languageCodeRegex x = true /\
   exists entry,
     In entry entries /\ isFile entry = true /\
     endsWith (name entry) ".json" = true /\
     Path.basename (name entry) (Some ".json") = x).
Proof.
  revert acc. induction entries as [|e entries IH]; intros acc; cbn.
  - auto.
  - intros Hx. destruct (IH _ Hx) as [Hacc|(Ht & e' & Hin & Hrest)].
    + unfold addLanguageFile in Hacc.
      destruct (isFile e && endsWith (name e) ".json") eqn:E;
        [|left; exact Hacc].
      destruct (test languageCodeRegex (Path.basename (name e) (Some ".json")))
        eqn:Et; [|left; exact Hacc].
      apply In_add in Hacc. destruct Hacc as [Hacc| ->]; [left; exact Hacc|].
      apply andb_true_iff in E. destruct E as [Ef Ee].
      right. split; [exact Et|]. exists e. auto.
    + right. split; [exact Ht|]. exists e'. auto.
Qed.

Section Enumerator.

Context {FS : Type} {fsOps : FileSystem FS} {collator : Collator}.

(** Every scanned code matches the pattern and comes from an entry of
    the listing of the base path. *)
Lemma scanned (fs : FS) (info : ProjectStructureInfo) (x : string) :
  In x (fst (scanLanguages fs info)) ->
  test languageCodeRegex x = true /\
  exists entries,
    readdirSync fs (basePath info) = Normal entries /\
    exists entry,
      In entry entries /\
      match type info with
      | FolderBased => isDirectory entry = true /\ name entry = x
      | FileBased =>
          isFile entry = true /\ endsWith (name entry) ".json" = true /\
          Path.basename (name entry) (Some ".json") = x
      | Unknown => False
      end.
Proof.
  unfold scanLanguages.
  destruct (type info);
    try (destruct (readdirSync fs (basePath info)) as [entries|e]);
    cbn [fst]; try (intros []).
  - intros Hx. apply scan_directories in Hx.
    destruct Hx as [[]|(Ht & e & Hin & Hd & Hn)].
    split; [exact Ht|]. exists entries. split; [reflexivity|].
    exists e. auto.
  - intros Hx. apply scan_files in Hx.
    destruct Hx as [[]|(Ht & e & Hin & Hf & He & Hb)].
    split; [exact Ht|]. exists entries. split; [reflexivity|].
    exists e. auto.
Qed.

(** The enumerator returns normally; its result is the scanned set
    without the source language, sorted. *)
Lemma enumerated (fs : FS) (p : string) :
  exists l,
    fst (detectLanguagesFromProject fs p) = Normal l /\
    forall x,
      In x l <->
      In x (fst (scanLanguages fs (detectProjectStructure p))) /\
      sourceLanguage (detectProjectStructure p) <> Some x.
Proof.
  unfold detectLanguagesFromProject.
  destruct (scanLanguages fs (detectProjectStructure p)) as [codes warnings].
  cbn [fst]. eexists. split; [reflexivity|]. intros x.
  rewrite In_sortWith. unfold StringSet.toArray.
  destruct (sourceLanguage (detectProjectStructure p)) as [lang|] eqn:E.
  - cbn [whenTruthy].
    rewrite (test_truthy lang (detect_sourceLanguage p lang E)).
    rewrite In_delete. intuition congruence.
  - cbn [whenTruthy]. intuition congruence.
Qed.

(** C8: when the listing of the base path fails, the enumerator does not
    throw: it returns the empty sequence (and prints the warning of the
    [catch] block). *)
Theorem enumerator_survives_scan_failure (fs : FS) (p : string)
        (e : JSError) :
  readdirSync fs (basePath (detectProjectStructure p)) = Throw e ->
  fst (detectLanguagesFromProject fs p) = Normal [] /\
  snd (detectLanguagesFromProject fs p) =
  match type (detectProjectStructure p) with
  | FolderBased => [("Error scanning for language directories:", e)]
  | FileBased => [("Error scanning for language files:", e)]
  | Unknown => []
  end.
Proof.
  intros Hfail. unfold detectLanguagesFromProject, scanLanguages.
  rewrite Hfail.
  destruct (type (detectProjectStructure p));
    destruct (whenTruthy (sourceLanguage (detectProjectStructure p)));
    split; reflexivity.
Qed.

(** C10: every string that the enumerator returns is accepted by
    [validateLanguageCode]. *)
Theorem enumerator_returns_valid_codes (fs : FS) (p : string)
        (l : list string) (x : string) :
  fst (detectLanguagesFromProject fs p) = Normal l ->
  In x l ->
  validateLanguageCode x = true.
Proof.
  intros Hl Hx. destruct (enumerated fs p) as (l' & Hl' & Hiff).
  assert (l' = l) by congruence. subst l'.
  apply Hiff in Hx. destruct Hx as [Hx _].
  apply scanned in Hx. destruct Hx as [Ht _].
  unfold validateLanguageCode. rewrite Ht, (test_truthy x Ht). reflexivity.
Qed.

(** C4, as the code has it: the enumerator removes the source language
    as it is written, so the returned sequence never contains the very
    string that the detector reports as the source language. *)
Theorem enumerator_excludes_source (fs : FS) (p lang : string)
        (l : list string) :
  sourceLanguage (detectProjectStructure p) = Some lang ->
  fst (detectLanguagesFromProject fs p) = Normal l ->
  ~ In lang l.
Proof.
  intros Hlang Hl Hin. destruct (enumerated fs p) as (l' & Hl' & Hiff).
  assert (l' = l) by congruence. subst l'.
  apply Hiff in Hin. destruct Hin as [_ Hne]. contradiction.
Qed.

(** C5: with a consistent comparator the returned sequence is sorted by
    it, and every entry is on the disk as it is written: it is the name
    of a listed directory, or the name of a listed file without its
    [.json]. *)
Theorem enumerator_sorted_case_preserving (fs : FS) (p : string)
        (l : list string) :
  consistent localeCompare ->
  (forall entries entry,
      readdirSync fs (basePath (detectProjectStructure p)) = Normal entries ->
      In entry entries -> Path.slashFree (name entry) = true) ->
  fst (detectLanguagesFromProject fs p) = Normal l ->
  StronglySorted (ordered localeCompare) l /\
  forall x,
    In x l ->
    exists entries,
      readdirSync fs (basePath (detectProjectStructure p)) = Normal entries
      /\ onDisk entries (type (detectProjectStructure p)) x.
Proof.
  intros Hcmp Hnames Hl. split.
  - unfold detectLanguagesFromProject in Hl.
    destruct (scanLanguages fs (detectProjectStructure p)) as [codes ws].
    cbn [fst] in Hl. injection Hl as <-.
    apply sortWith_sorted, Hcmp.
  - intros x Hx. destruct (enumerated fs p) as (l' & Hl' & Hiff).
    assert (l' = l) by congruence. subst l'.
    apply Hiff in Hx. destruct Hx as [Hx _].
    apply scanned in Hx.
    destruct Hx as (Ht & entries & Hread & entry & Hin & Hentry).
    exists entries. split; [exact Hread|]. exists entry.
    split; [exact Hin|].
    destruct (type (detectProjectStructure p)); [exact Hentry| |exact Hentry].
    destruct Hentry as (Hf & Hends & Hbase). split; [exact Hf|].
    apply json_entry_name; try assumption.
    apply (Hnames entries entry Hread Hin).
Qed.

End Enumerator.

Lemma enumerator_survives_scan_failure_witness :
  fst (detectLanguagesFromProject (collator := rootCollator)
         ([] : MemFS) "i18n/en.json") = Normal [] /\
  snd (detectLanguagesFromProject (collator := rootCollator)
         ([] : MemFS) "i18n/en.json") =
  [("Error scanning for language files:", SystemError "ENOENT")].
Proof.
  pose proof (enumerator_survives_scan_failure (collator := rootCollator)
                ([] : MemFS) "i18n/en.json" (SystemError "ENOENT")) as W.
  vm_compute in W. vm_compute. apply W. reflexivity.
Defined.

Lemma enumerator_returns_valid_codes_witness :
  validateLanguageCode "zh-Hans-CN" = true.
Proof.
  apply (enumerator_returns_valid_codes (collator := rootCollator)
           [("locales", true); ("locales/en", true);
            ("locales/zh-Hans-CN", true)]
           "locales/en/common.json" ["zh-Hans-CN"] "zh-Hans-CN").
  - vm_compute. reflexivity.
  - simpl. left. reflexivity.
Defined.

Lemma enumerator_excludes_source_witness :
  fst (detectLanguagesFromProject (collator := rootCollator)
         localesDisk "locales/en/common.json") = Normal ["de"; "fr"] /\
  ~ In "en" ["de"; "fr"].
Proof.
  split; [vm_compute; reflexivity|].
  apply (enumerator_excludes_source (collator := rootCollator)
           localesDisk "locales/en/common.json" "en" ["de"; "fr"]);
    vm_compute; reflexivity.
Defined.

(** C4 as it is stated fails: on a disk that holds [EN.json] and
    [en.json], the enumeration from [EN.json] returns ["en"], which equals
    the source language [EN] when case is ignored. *)
Lemma enumerator_keeps_other_casing :
  sourceLanguage (detectProjectStructure "i18n/EN.json") = Some "EN" /\
  fst (detectLanguagesFromProject (collator := rootCollator)
         twoCasings "i18n/EN.json") = Normal ["de"; "en"] /\
  In "en" ["de"; "en"] /\
  equalsIgnoreCase "en" "EN" = true.
Proof.
  split; [vm_compute; reflexivity|]. split; [vm_compute; reflexivity|].
  split; [simpl; auto|reflexivity].
Qed.

Lemma enumerator_sorted_case_preserving_witness :
  fst (detectLanguagesFromProject (collator := rootCollator)
         mixedCase "i18n/EN.json") = Normal ["de"; "Fr"; "RU"] /\
  StronglySorted (ordered compareChars) ["de"; "Fr"; "RU"] /\
  forall x,
    In x ["de"; "Fr"; "RU"] ->
    exists entries,
      readdirSync mixedCase "i18n" = Normal entries /\
      onDisk entries FileBased x.
Proof.
  split; [vm_compute; reflexivity|].
  apply (enumerator_sorted_case_preserving (collator := rootCollator)
           mixedCase "i18n/EN.json" ["de"; "Fr"; "RU"]).
  - exact compareChars_consistent.
  - intros entries entry Hread Hin. vm_compute in Hread.
    injection Hread as <-.
    repeat (destruct Hin as [<-|Hin]; [reflexivity|]). destruct Hin.
  - vm_compute. reflexivity.
Defined.

(** ** The collision resolver *)

Section Resolver.

Context {FS : Type} {fsOps : FileSystem FS}.

Lemma probe_first_free (fs : FS) (dir baseName ext : string) (m : N) :
  let candidate c :=
    Path.join
      [dir; baseName ++ " (" ++ numberToString c ++ ")" ++ ext] in
  (m <= maxExact)%N ->
  existsSync fs (candidate m) = false ->
  forall fuel c,
    (c <= m)%N ->
    (forall k, (c <= k < m)%N -> existsSync fs (candidate k) = true) ->
    N.to_nat (m - c) < fuel ->
    probeUniquePath fs dir baseName ext fuel c = Some (candidate m).
Proof.
  intros candidate Hmax Hfree.
  induction fuel as [|fuel IH]; intros c Hc Htaken Hfuel; [lia|].
  cbn [probeUniquePath]. fold (candidate c).
  destruct (N.eq_dec c m) as [->|Hne].
  - rewrite Hfree. reflexivity.
  - rewrite Htaken by lia.
    assert (Hinc : increment c = (c + 1)%N).
    { unfold increment.
      destruct (N.ltb_spec c maxExact); [reflexivity|lia]. }
    rewrite Hinc. apply IH; [lia| |lia].
    intros k Hk. apply Htaken. lia.
Qed.

(** C2: a path at which no file exists is returned unchanged.  When a
    file exists at it, the resolver probes the numbered paths from (1)
    on, one by one, and returns the first at which no file exists: if
    the paths numbered 1 to [m - 1] exist and the path numbered [m] does
    not, the result is the path numbered [m], as soon as the loop is
    given [m] rounds.  In the numbered paths of [x/nm.json] the counter
    stands in parentheses right before the extension. *)
Theorem getUniqueFilePath_first_free (fs : FS) (filePath : string)
        (m : N) (fuel : nat) :
  (existsSync fs filePath = false ->
   getUniqueFilePath fuel fs filePath = Some filePath) /\
  (existsSync fs filePath = true ->
   (1 <= m <= maxExact)%N ->
   (forall k, (1 <= k < m)%N ->
              existsSync fs (numberedPath filePath k) = true) ->
   existsSync fs (numberedPath filePath m) = false ->
   N.to_nat m <= fuel ->
   getUniqueFilePath fuel fs filePath = Some (numberedPath filePath m)) /\
  (forall x nm,
      filePath = x ++ "/" ++ nm ++ ".json" ->
      x <> "" -> Path.isFileName nm = true ->
      forall k,
        numberedPath filePath k =
        Path.dirPrefix x ++ nm ++ " (" ++ numberToString k ++ ").json").
Proof.
  unfold getUniqueFilePath. split; [|split].
  - intros ->. reflexivity.
  - intros -> Hm Htaken Hfree Hfuel. cbn [negb].
    apply (probe_first_free fs (Path.dirname filePath)
             (Path.basename filePath (Some (Path.extname filePath)))
             (Path.extname filePath) m); try assumption; lia.
  - intros x nm -> Hx Hnm k. apply numberedPath_literal; assumption.
Qed.

End Resolver.

Lemma getUniqueFilePath_first_free_witness :
  getUniqueFilePath 2 numbered "i18n/de.json" = Some "i18n/de.json" /\
  numberedPath "i18n/fr.json" 1 = "i18n/fr (1).json" /\
  numberedPath "i18n/fr.json" 2 = "i18n/fr (2).json" /\
  getUniqueFilePath 2 numbered "i18n/fr.json" = Some "i18n/fr (2).json".
Proof.
  split; [|split; [vm_compute; reflexivity|split; [vm_compute; reflexivity|]]].
  - apply (proj1 (getUniqueFilePath_first_free numbered "i18n/de.json" 1 2)).
    vm_compute. reflexivity.
  - change "i18n/fr (2).json" with (numberedPath "i18n/fr.json" 2).
    apply (proj1 (proj2 (getUniqueFilePath_first_free
                           numbered "i18n/fr.json" 2 2))).
    + vm_compute. reflexivity.
    + vm_compute. split; discriminate.
    + intros k Hk. assert (k = 1%N) by lia. subst k. vm_compute. reflexivity.
    + vm_compute. reflexivity.
    + vm_compute. lia.
Defined.

(** ** The path generator *)

Lemma detect_basePath_nonempty (p : string) :
  basePath (detectProjectStructure p) <> "".
Proof.
  unfold detectProjectStructure.
  destruct (test languageCodeRegex (Path.basename (Path.dirname p) None));
    [|destruct (test languageCodeRegex (Path.basename p (Some ".json")))];
    apply dirname_nonempty.
Qed.

Lemma detect_unknown_basePath (p : string) :
  type (detectProjectStructure p) = Unknown ->
  basePath (detectProjectStructure p) = Path.dirname p.
Proof.
  unfold detectProjectStructure.
  destruct (test languageCodeRegex (Path.basename (Path.dirname p) None));
    [discriminate|].
  destruct (test languageCodeRegex (Path.basename p (Some ".json")));
    [discriminate|reflexivity].
Qed.

Lemma targetFilePath_literal (src lang : string) :
  Path.isSegment lang = true ->
  (type (detectProjectStructure src) <> FileBased ->
   Path.slashFree (Path.basename src (Some ".json")) = true) ->
  targetFilePath src lang = literalPath src lang.
Proof.
  intros Hseg Hstem. destruct (isSegment_inv lang Hseg) as [Hs Hlen].
  pose proof (detect_basePath_nonempty src) as Hbase.
  pose proof (detect_unknown_basePath src) as Hunknown.
  unfold targetFilePath, literalPath.
  destruct (type (detectProjectStructure src)).
  - apply join_two_segments; [exact Hbase|exact Hseg|].
    set (stem := Path.basename src (Some ".json")) in *.
    apply isSegment_long.
    + unfold Path.isFileName.
      rewrite slashFree_append, (Hstem ltac:(discriminate)).
      destruct stem; reflexivity.
    + rewrite length_append. cbn. lia.
  - rewrite join_segment; [reflexivity|exact Hbase|].
    apply isSegment_long.
    + unfold Path.isFileName. rewrite slashFree_append, Hs.
      destruct lang; [cbn in Hlen; lia|reflexivity].
    + rewrite length_append. cbn. lia.
  - rewrite <- (Hunknown eq_refl).
    rewrite join_segment; [reflexivity|exact Hbase|].
    set (stem := Path.basename src (Some ".json")) in *.
    apply isSegment_long.
    + unfold Path.isFileName.
      rewrite !slashFree_append, (Hstem ltac:(discriminate)), Hs.
      destruct stem; reflexivity.
    + rewrite !length_append. cbn. lia.
Qed.

Section Generator.

Context {FS : Type} {fsOps : FileSystem FS}.

(** [generateTargetFilePath] hands [targetFilePath] to the collision
    resolver, on the disk as it is after the target directory has been
    created. *)
Lemma generate_resolves (fuel : nat) (fs fs' : FS) (src lang : string)
      (r : option string) :
  generateTargetFilePath fuel fs src lang = Normal (fs', r) ->
  r = getUniqueFilePath fuel fs' (targetFilePath src lang).
Proof.
  unfold generateTargetFilePath.
  destruct (match targetDirectory src lang with
            | Some targetDir =>
                if negb (existsSync fs targetDir)
                then mkdirSync fs targetDir
                else Normal fs
            | None => Normal fs
            end) as [fs0|e]; cbn [bindC]; [|discriminate].
  intros [= <- <-]. reflexivity.
Qed.

(** C1, as the code has it: the path that [generateTargetFilePath] hands
    to the collision resolver follows the scheme of the detected kind
    for every source file whose extension is [.json]; for every source
    file the extension it appends is [.json] itself and the stem is the
    base name without a trailing [.json].  The target language enters
    the path as it is given: when it is a path segment, the result holds
    it literally, behind the normalised base path. *)
Theorem targetFilePath_scheme (src lang : string) :
  (Path.extname src = ".json" ->
   targetFilePath src lang = schemePath src lang) /\
  (forall fuel (fs fs' : FS) r,
      generateTargetFilePath fuel fs src lang = Normal (fs', r) ->
      r = getUniqueFilePath fuel fs' (targetFilePath src lang)) /\
  (Path.isSegment lang = true ->
   (type (detectProjectStructure src) <> FileBased ->
    Path.slashFree (Path.basename src (Some ".json")) = true) ->
   targetFilePath src lang = literalPath src lang /\
   (type (detectProjectStructure src) = FolderBased ->
    targetDirectory src lang
    = Some (Path.dirPrefix (basePath (detectProjectStructure src))
            ++ lang))).
Proof.
  split; [|split].
  - intros Hext.
    unfold targetFilePath, schemePath, sourceStem, sourceExtension.
    rewrite Hext.
    destruct (type (detectProjectStructure src)) eqn:E; try reflexivity.
    rewrite (detect_unknown_basePath src E). reflexivity.
  - intros fuel fs fs' r. apply generate_resolves.
  - intros Hseg Hstem. split.
    + apply targetFilePath_literal; assumption.
    + intros E. unfold targetDirectory. rewrite E.
      rewrite (join_segment _ lang (detect_basePath_nonempty src) Hseg).
      reflexivity.
Qed.

End Generator.

Lemma targetFilePath_scheme_witness :
  targetFilePath "locales/zh-Hans-CN/app.json" "JA-jp"
  = schemePath "locales/zh-Hans-CN/app.json" "JA-jp" /\
  targetFilePath "locales/zh-Hans-CN/app.json" "JA-jp"
  = "locales/JA-jp/app.json" /\
  targetDirectory "locales/zh-Hans-CN/app.json" "JA-jp"
  = Some "locales/JA-jp".
Proof.
  destruct (targetFilePath_scheme (FS := MemFS)
              "locales/zh-Hans-CN/app.json" "JA-jp") as (H1 & _ & H3).
  split; [apply H1; vm_compute; reflexivity|].
  destruct H3 as [H3 H4].
  - vm_compute. reflexivity.
  - intros _. vm_compute. reflexivity.
  - split.
    + rewrite H3. vm_compute. reflexivity.
    + rewrite H4 by (vm_compute; reflexivity). vm_compute. reflexivity.
Defined.

(** C1 as it is stated fails on a source file whose extension is not
    [.json]: the code appends [.json] to the whole file name, where the
    scheme keeps the source's stem and extension. *)
Lemma targetFilePath_not_source_extension :
  targetFilePath "locales/en/common.yaml" "fr" = "locales/fr/common.yaml.json"
  /\ schemePath "locales/en/common.yaml" "fr" = "locales/fr/common.yaml"
  /\ targetFilePath "i18n/en" "fr" = "i18n/fr.json"
  /\ schemePath "i18n/en" "fr" = "i18n/fr"
  /\ targetFilePath "locales/en/common.yaml" "fr"
     <> schemePath "locales/en/common.yaml" "fr".
Proof.
  repeat split; try (vm_compute; reflexivity).
  vm_compute. discriminate.
Qed.

(** ** The cases of the test suite *)

Example suite_detects_folder_based :
  detectProjectStructure "/tmp/t/locales/en/common.json" =
  {| type := FolderBased;
     basePath := "/tmp/t/locales";
     sourceLanguage := Some "en" |}.
Proof. vm_compute. reflexivity. Qed.

Example suite_detects_file_based :
  detectProjectStructure "/tmp/t/i18n/en.json" =
  {| type := FileBased;
     basePath := "/tmp/t/i18n";
     sourceLanguage := Some "en" |}.
Proof. vm_compute. reflexivity. Qed.

Example suite_detects_complex_codes :
  detectProjectStructure "/tmp/t/locales/zh-Hans-CN/app.json" =
  {| type := FolderBased;
     basePath := "/tmp/t/locales";
     sourceLanguage := Some "zh-Hans-CN" |}.
Proof. vm_compute. reflexivity. Qed.

Example suite_detects_unknown :
  detectProjectStructure "/tmp/t/translations/messages.json" =
  {| type := Unknown;
     basePath := "/tmp/t/translations";
     sourceLanguage := None |}.
Proof. vm_compute. reflexivity. Qed.

Example suite_generates_folder_based :
  returnedPath
    (generateTargetFilePath 1 folderDisk "/tmp/t/locales/en/common.json" "fr")
  = Some "/tmp/t/locales/fr/common.json".
Proof. vm_compute. reflexivity. Qed.

Example suite_generates_file_based :
  returnedPath (generateTargetFilePath 1 fileDisk "/tmp/t/i18n/en.json" "fr")
  = Some "/tmp/t/i18n/fr.json".
Proof. vm_compute. reflexivity. Qed.

Example suite_generates_unknown :
  returnedPath
    (generateTargetFilePath 1 unknownDisk
       "/tmp/t/translations/messages.json" "fr")
  = Some "/tmp/t/translations/messages.fr.json".
Proof. vm_compute. reflexivity. Qed.

Example suite_numbers_conflicts :
  returnedPath
    (generateTargetFilePath 2 conflictDisk "/tmp/t/i18n/en.json" "fr")
  = Some "/tmp/t/i18n/fr (2).json".
Proof. vm_compute. reflexivity. Qed.

Example suite_preserves_case :
  returnedPath
    (generateTargetFilePath 1 scriptDisk
       "/tmp/t/locales/zh-Hans-CN/app.json" "JA-jp")
  = Some "/tmp/t/locales/JA-jp/app.json".
Proof. vm_compute. reflexivity. Qed.

Example suite_normalizes :
  map normalizeLanguageCode ["EN"; "ZH-hans-CN"; "zh-HANS-cn"; "invalid-code"]
  = [Normal "en"; Normal "zh-Hans-CN"; Normal "zh-Hans-CN";
     Normal "invalid-code"].
Proof. vm_compute. reflexivity. Qed.

Example suite_validates :
  map validateLanguageCode ["en"; "zh-Hans-CN"; "fr-FR"; ""; "invalid"; "x"]
  = [true; true; true; false; false; false].
Proof. vm_compute. reflexivity. Qed.

Example suite_enumerates_folders :
  fst (detectLanguagesFromProject (collator := rootCollator)
         foldersDisk "/tmp/t/locales/en/common.json")
  = Normal ["de"; "fr"; "zh-Hans-CN"].
Proof. vm_compute. reflexivity. Qed.

Example suite_enumerates_files :
  fst (detectLanguagesFromProject (collator := rootCollator)
         filesDisk "/tmp/t/i18n/en.json")
  = Normal ["de"; "fr"; "ja"].
Proof. vm_compute. reflexivity. Qed.

Example suite_enumerates_nothing_for_unknown :
  fst (detectLanguagesFromProject (collator := rootCollator)
         unknownDisk "/tmp/t/translations/messages.json")
  = Normal [].
Proof. vm_compute. reflexivity. Qed.

(** * Further properties *)

(** ** Language codes and letter case *)

Lemma isDigit_lowerChar (c : ascii) : isDigit (lowerChar c) = isDigit c.
Proof. each_ascii c. Qed.

Lemma upperChar_lowerChar (c : ascii) : upperChar (lowerChar c) = upperChar c.
Proof. each_ascii c. Qed.

Lemma lowerChar_upperChar (c : ascii) : lowerChar (upperChar c) = lowerChar c.
Proof. each_ascii c. Qed.

Lemma lowerChar_hyphen (c : ascii) : lowerChar c = "-"%char -> c = "-"%char.
Proof.
  destruct c as [[] [] [] [] [] [] [] []]; vm_compute; congruence.
Qed.

Lemma mapChars_append (f : ascii -> ascii) (a b : string) :
  mapChars f (a ++ b) = mapChars f a ++ mapChars f b.
Proof. induction a as [|c a IH]; cbn; congruence. Qed.

Lemma mapChars_compose (f g h : ascii -> ascii) :
  (forall c, f (g c) = h c) ->
  forall s, mapChars f (mapChars g s) = mapChars h s.
Proof.
  intros Hfg s. induction s as [|c s IH]; cbn; [reflexivity|].
  rewrite Hfg, IH. reflexivity.
Qed.

Lemma mapChars_split (f : ascii -> ascii) (a b s : string) :
  mapChars f s = a ++ b ->
  exists a' b', s = a' ++ b' /\ mapChars f a' = a /\ mapChars f b' = b.
Proof.
  revert s. induction a as [|c a IH]; intros s H.
  - exists "", s. repeat split. exact H.
  - destruct s as [|d s]; [discriminate H|].
    cbn in H. injection H as Hc Hs.
    destruct (IH s Hs) as (a' & b' & -> & <- & <-).
    exists (String d a'), b'. cbn. rewrite Hc. repeat split.
Qed.

Lemma toLowerCase_subtag (o : option string) :
  toLowerCase (subtag o) = subtag (option_map toLowerCase o).
Proof. destruct o; reflexivity. Qed.

Lemma toLowerCase_assemble (l : string) (sc rg : option string) :
  toLowerCase (assemble l sc rg) =
  assemble (toLowerCase l) (option_map toLowerCase sc)
           (option_map toLowerCase rg).
Proof.
  unfold assemble, toLowerCase. rewrite !mapChars_append.
  fold (toLowerCase (subtag sc)). fold (toLowerCase (subtag rg)).
  rewrite !toLowerCase_subtag. reflexivity.
Qed.

Lemma subtag_split (s : string) (o : option string) :
  toLowerCase s = subtag o ->
  exists o', s = subtag o' /\ option_map toLowerCase o' = o.
Proof.
  destruct o as [x|]; cbn [subtag]; intros H.
  - destruct s as [|c s]; [discriminate H|].
    cbn in H. injection H as Hc Hs.
    apply lowerChar_hyphen in Hc. subst c.
    exists (Some s). split; [reflexivity|]. cbn. f_equal. exact Hs.
  - destruct s; [|discriminate H]. exists None. split; reflexivity.
Qed.

Lemma isLanguage_lower (l : string) :
  isLanguage (toLowerCase l) = isLanguage l.
Proof. apply isLanguage_canon. Qed.

Lemma isScript_lower (sc : string) : isScript (toLowerCase sc) = isScript sc.
Proof.
  unfold isScript, toLowerCase.
  rewrite length_mapChars, (forallChars_mapChars _ _ isLetter_lowerChar).
  reflexivity.
Qed.

Lemma isRegion_lower (rg : string) : isRegion (toLowerCase rg) = isRegion rg.
Proof.
  unfold isRegion, toLowerCase.
  rewrite length_mapChars, (forallChars_mapChars _ _ isLetter_lowerChar),
    (forallChars_mapChars _ _ isDigit_lowerChar).
  reflexivity.
Qed.

Lemma wellFormed_lower (l : string) (sc rg : option string) :
  wellFormed (toLowerCase l) (option_map toLowerCase sc)
             (option_map toLowerCase rg) = wellFormed l sc rg.
Proof.
  unfold wellFormed. rewrite isLanguage_lower.
  destruct sc as [sc|], rg as [rg|]; cbn [option_map optional];
    rewrite ?isScript_lower, ?isRegion_lower; reflexivity.
Qed.

(** The pattern has the [i] flag: a string matches when its lower-case
    form does. *)
Lemma test_toLowerCase (s : string) :
  test languageCodeRegex (toLowerCase s) = test languageCodeRegex s.
Proof.
  destruct (test languageCodeRegex s) eqn:E.
  - apply test_true_iff in E. destruct E as (l & sc & rg & -> & Hwf).
    apply test_true_iff. rewrite toLowerCase_assemble.
    do 3 eexists. split; [reflexivity|]. rewrite wellFormed_lower. exact Hwf.
  - destruct (test languageCodeRegex (toLowerCase s)) eqn:E'; [|reflexivity].
    apply test_true_iff in E'. destruct E' as (l & sc & rg & Hs & Hwf).
    unfold assemble, toLowerCase in Hs.
    apply mapChars_split in Hs. destruct Hs as (l' & t & -> & Hl & Ht).
    apply mapChars_split in Ht. destruct Ht as (sc' & rg' & -> & Hsc & Hrg).
    apply subtag_split in Hsc. destruct Hsc as (sc'' & -> & Hsc).
    apply subtag_split in Hrg. destruct Hrg as (rg'' & -> & Hrg).
    subst l sc rg. rewrite wellFormed_lower in Hwf.
    assert (T : test languageCodeRegex (assemble l' sc'' rg'') = true).
    { apply test_true_iff. do 3 eexists. split; [reflexivity|exact Hwf]. }
    unfold assemble in T. congruence.
Qed.

Lemma validate_test (s : string) :
  validateLanguageCode s = test languageCodeRegex s.
Proof.
  unfold validateLanguageCode.
  destruct (test languageCodeRegex s) eqn:E.
  - rewrite (test_truthy s E). reflexivity.
  - apply andb_false_r.
Qed.

Lemma equalsIgnoreCase_eq (a b : string) :
  equalsIgnoreCase a b = true <-> toLowerCase a = toLowerCase b.
Proof. unfold equalsIgnoreCase. apply String.eqb_eq. Qed.

Lemma canonScript_lower (sc : string) :
  canonScript (toLowerCase sc) = canonScript sc.
Proof.
  destruct sc as [|c s]; [reflexivity|].
  change (toLowerCase (String c s)) with (String (lowerChar c) (toLowerCase s)).
  rewrite !canonScript_cons, upperChar_lowerChar. unfold toLowerCase.
  rewrite (mapChars_idem _ lowerChar_idem). reflexivity.
Qed.

Lemma canonical_lower (l : string) (sc rg : option string) :
  canonical (toLowerCase l) (option_map toLowerCase sc)
            (option_map toLowerCase rg) = canonical l sc rg.
Proof.
  unfold canonical, canonLanguage.
  replace (toLowerCase (toLowerCase l)) with (toLowerCase l)
    by (symmetry; apply (mapChars_idem _ lowerChar_idem)).
  destruct sc as [sc|], rg as [rg|]; cbn [option_map];
    rewrite ?canonScript_lower; unfold canonRegion, toUpperCase, toLowerCase;
    rewrite ?(mapChars_compose _ _ _ upperChar_lowerChar);
    reflexivity.
Qed.

(** A valid code and its lower-case form have the same normal form. *)
Lemma normalize_toLowerCase (s : string) :
  test languageCodeRegex s = true ->
  normalizeLanguageCode (toLowerCase s) = normalizeLanguageCode s.
Proof.
  intros H. apply test_true_iff in H. destruct H as (l & sc & rg & -> & Hwf).
  rewrite toLowerCase_assemble.
  rewrite !normalize_wellFormed by (rewrite ?wellFormed_lower; exact Hwf).
  rewrite canonical_lower. reflexivity.
Qed.

Lemma toLowerCase_canonScript (sc : string) :
  toLowerCase (canonScript sc) = toLowerCase sc.
Proof.
  destruct sc as [|c s]; [reflexivity|].
  rewrite canonScript_cons. unfold toLowerCase. cbn [mapChars].
  rewrite lowerChar_upperChar, (mapChars_idem _ lowerChar_idem). reflexivity.
Qed.

Lemma toLowerCase_canonical (l : string) (sc rg : option string) :
  toLowerCase (canonical l sc rg) = toLowerCase (assemble l sc rg).
Proof.
  unfold canonical. rewrite !toLowerCase_assemble.
  unfold canonLanguage, canonRegion.
  f_equal.
  - unfold toLowerCase. apply (mapChars_idem _ lowerChar_idem).
  - destruct sc as [sc|]; cbn [option_map]; [|reflexivity].
    rewrite toLowerCase_canonScript. reflexivity.
  - destruct rg as [rg|]; cbn [option_map]; [|reflexivity].
    unfold toLowerCase, toUpperCase.
    rewrite (mapChars_compose _ _ _ lowerChar_upperChar). reflexivity.
Qed.

(** The result of [normalizeLanguageCode] differs from its argument by
    the case of letters only. *)
Lemma normalize_lower (code n : string) :
  normalizeLanguageCode code = Normal n ->
  toLowerCase n = toLowerCase code.
Proof.
  destruct (test languageCodeRegex code) eqn:E.
  - apply test_true_iff in E. destruct E as (l & sc & rg & -> & Hwf).
    rewrite (normalize_wellFormed _ _ _ Hwf). intros [= <-].
    apply toLowerCase_canonical.
  - unfold normalizeLanguageCode. unfold test in E.
    destruct (exec languageCodeRegex code); [discriminate E|].
    intros [= <-]. reflexivity.
Qed.

Lemma normalize_total (code : string) :
  exists n, normalizeLanguageCode code = Normal n.
Proof.
  destruct (test languageCodeRegex code) eqn:E.
  - apply test_true_iff in E. destruct E as (l & sc & rg & -> & Hwf).
    rewrite (normalize_wellFormed _ _ _ Hwf). eexists. reflexivity.
  - unfold normalizeLanguageCode. unfold test in E.
    destruct (exec languageCodeRegex code); [discriminate E|].
    eexists. reflexivity.
Qed.

Lemma forallChars_append (p : ascii -> bool) (a b : string) :
  forallChars p (a ++ b) = (forallChars p a && forallChars p b)%bool.
Proof.
  induction a as [|c a IH]; cbn; [reflexivity|].
  rewrite IH, andb_assoc. reflexivity.
Qed.

Lemma letters_tagChars (s : string) :
  forallChars isLetter s = true -> forallChars tagChar s = true.
Proof.
  apply forallChars_impl. intros c H. unfold tagChar. rewrite H. reflexivity.
Qed.

Lemma digits_tagChars (s : string) :
  forallChars isDigit s = true -> forallChars tagChar s = true.
Proof.
  apply forallChars_impl. intros c H. unfold tagChar. rewrite H.
  rewrite orb_true_r. reflexivity.
Qed.

Lemma subtag_length (o : option string) :
  String.length (subtag o) =
  match o with Some s => S (String.length s) | None => 0 end.
Proof. destruct o; reflexivity. Qed.

Lemma wellFormed_shape (l : string) (sc rg : option string) :
  wellFormed l sc rg = true ->
  2 <= String.length (assemble l sc rg) <= 12 /\
  forallChars tagChar (assemble l sc rg) = true.
Proof.
  unfold wellFormed. intros H.
  apply andb_true_iff in H. destruct H as [H Hrg].
  apply andb_true_iff in H. destruct H as [Hl Hsc].
  unfold isLanguage in Hl.
  apply andb_true_iff in Hl. destruct Hl as [Hlen Hl].
  apply andb_true_iff in Hlen. destruct Hlen as [Hlo Hhi].
  apply Nat.leb_le in Hlo, Hhi.
  assert (Esc : String.length (subtag sc) <= 5 /\
                forallChars tagChar (subtag sc) = true).
  { destruct sc as [sc|]; cbn [subtag optional] in *; [|split; [cbn; lia|reflexivity]].
    unfold isScript in Hsc. apply andb_true_iff in Hsc.
    destruct Hsc as [Hn Hsc]. apply Nat.eqb_eq in Hn.
    split; [cbn; lia|]. cbn [append forallChars].
    rewrite (letters_tagChars _ Hsc). reflexivity. }
  assert (Erg : String.length (subtag rg) <= 4 /\
                forallChars tagChar (subtag rg) = true).
  { destruct rg as [rg|]; cbn [subtag optional] in *; [|split; [cbn; lia|reflexivity]].
    unfold isRegion in Hrg. apply orb_true_iff in Hrg.
    destruct Hrg as [Hrg|Hrg]; apply andb_true_iff in Hrg;
      destruct Hrg as [Hn Hrg].
    - apply andb_true_iff in Hn. destruct Hn as [_ Hn].
      apply Nat.leb_le in Hn.
      split; [cbn; lia|]. cbn [append forallChars].
      rewrite (letters_tagChars _ Hrg). reflexivity.
    - apply Nat.eqb_eq in Hn.
      split; [cbn; lia|]. cbn [append forallChars].
      rewrite (digits_tagChars _ Hrg). reflexivity. }
  destruct Esc as [Lsc Csc], Erg as [Lrg Crg].
  unfold assemble. rewrite !length_append, !forallChars_append.
  rewrite (letters_tagChars _ Hl), Csc, Crg. split; [lia|reflexivity].
Qed.

Lemma test_shape (s : string) :
  test languageCodeRegex s = true ->
  2 <= String.length s <= 12 /\ forallChars tagChar s = true.
Proof.
  intros H. apply test_true_iff in H. destruct H as (l & sc & rg & -> & Hwf).
  apply wellFormed_shape, Hwf.
Qed.

Lemma test_isSegment (s : string) :
  test languageCodeRegex s = true -> Path.isSegment s = true.
Proof.
  intros H. unfold Path.isSegment.
  rewrite (test_isFileName s H).
  destruct (test_shape s H) as [_ Hc].
  destruct s as [|a [|b [|c s]]]; try reflexivity.
  - cbn in Hc. destruct (Ascii.eqb_spec a "."); [subst a; discriminate Hc|].
    cbn. destruct (Ascii.eqb_spec a "."); [contradiction|reflexivity].
  - cbn in Hc. destruct (Ascii.eqb_spec a "."); [subst a; discriminate Hc|].
    cbn. destruct (Ascii.eqb_spec a "."); [contradiction|reflexivity].
  - cbn. destruct (Ascii.eqb a "."); [|reflexivity].
    destruct (Ascii.eqb b "."); reflexivity.
Qed.

(** X1: [validateLanguageCode] accepts exactly the strings of the grammar of
    language tags, in any letter case; the truthiness test in front of
    the pattern never decides. *)
Theorem validateLanguageCode_grammar (code : string) :
  (validateLanguageCode code = true <->
   exists l sc rg, code = assemble l sc rg /\ wellFormed l sc rg = true) /\
  validateLanguageCode code = test languageCodeRegex code.
Proof.
  split.
  - rewrite validate_test. apply test_true_iff.
  - apply validate_test.
Qed.

(** X2: validity does not depend on letter case. *)
Theorem validateLanguageCode_ignores_case (a b : string) :
  equalsIgnoreCase a b = true ->
  validateLanguageCode a = validateLanguageCode b.
Proof.
  intros H. apply equalsIgnoreCase_eq in H.
  rewrite !validate_test, <- (test_toLowerCase a), <- (test_toLowerCase b), H.
  reflexivity.
Qed.

Lemma validateLanguageCode_ignores_case_witness :
  equalsIgnoreCase "ZH-HANS-cn" "zh-Hans-CN" = true /\
  validateLanguageCode "ZH-HANS-cn" = validateLanguageCode "zh-Hans-CN".
Proof.
  split; [vm_compute; reflexivity|].
  apply (validateLanguageCode_ignores_case "ZH-HANS-cn" "zh-Hans-CN").
  vm_compute. reflexivity.
Defined.

(** X3: [normalizeLanguageCode] changes nothing but the case of letters: the
    result has the length of the argument, equals it when case is
    ignored, and is valid exactly when the argument is. *)
Theorem normalize_changes_case_only (code n : string) :
  normalizeLanguageCode code = Normal n ->
  equalsIgnoreCase n code = true /\
  String.length n = String.length code /\
  validateLanguageCode n = validateLanguageCode code.
Proof.
  intros H. pose proof (normalize_lower code n H) as E.
  split; [apply equalsIgnoreCase_eq, E|]. split.
  - rewrite <- (length_mapChars lowerChar n), <- (length_mapChars lowerChar code).
    exact (f_equal String.length E).
  - rewrite !validate_test, <- (test_toLowerCase n), <- (test_toLowerCase code).
    unfold toLowerCase in E. unfold toLowerCase. rewrite E. reflexivity.
Qed.

Lemma normalize_changes_case_only_witness :
  normalizeLanguageCode "ZH-hans-cn" = Normal "zh-Hans-CN" /\
  equalsIgnoreCase "zh-Hans-CN" "ZH-hans-cn" = true /\
  String.length "zh-Hans-CN" = String.length "ZH-hans-cn" /\
  validateLanguageCode "zh-Hans-CN" = validateLanguageCode "ZH-hans-cn".
Proof.
  split; [vm_compute; reflexivity|].
  apply (normalize_changes_case_only "ZH-hans-cn" "zh-Hans-CN").
  vm_compute. reflexivity.
Defined.

(** X4: two valid codes have the same normal form exactly when they differ
    by letter case only. *)
Theorem normalize_identifies_casings (a b : string) :
  validateLanguageCode a = true -> validateLanguageCode b = true ->
  (normalizeLanguageCode a = normalizeLanguageCode b <->
   equalsIgnoreCase a b = true).
Proof.
  rewrite !validate_test. intros Ha Hb. split.
  - intros E. destruct (normalize_total a) as [n Hn].
    pose proof (normalize_lower a n Hn) as La.
    rewrite E in Hn. pose proof (normalize_lower b n Hn) as Lb.
    apply equalsIgnoreCase_eq. congruence.
  - intros E. apply equalsIgnoreCase_eq in E.
    rewrite <- (normalize_toLowerCase a Ha), <- (normalize_toLowerCase b Hb), E.
    reflexivity.
Qed.

Lemma normalize_identifies_casings_witness :
  normalizeLanguageCode "EN-us" = normalizeLanguageCode "en-US" <->
  equalsIgnoreCase "EN-us" "en-US" = true.
Proof.
  apply (normalize_identifies_casings "EN-us" "en-US");
    vm_compute; reflexivity.
Defined.

(** X5: a valid code has between 2 and 12 characters, all of them letters,
    digits or hyphens; it is a path segment. *)
Theorem valid_code_shape (code : string) :
  validateLanguageCode code = true ->
  2 <= String.length code <= 12 /\
  forallChars tagChar code = true /\
  Path.isSegment code = true.
Proof.
  rewrite validate_test. intros H.
  destruct (test_shape code H) as [Hlen Hc].
  split; [exact Hlen|]. split; [exact Hc|]. apply test_isSegment, H.
Qed.

Lemma valid_code_shape_witness :
  2 <= String.length "zh-Hans-CN" <= 12 /\
  forallChars tagChar "zh-Hans-CN" = true /\
  Path.isSegment "zh-Hans-CN" = true.
Proof.
  apply (valid_code_shape "zh-Hans-CN"). vm_compute. reflexivity.
Defined.
(** ** The detection result *)

(** X6: whatever the path, the detection result is well formed: the base path
    is not empty, a source language is reported exactly when the kind is
    not [Unknown], and a reported source language is a valid code. *)
Theorem detect_result_wellformed (p : string) :
  basePath (detectProjectStructure p) <> "" /\
  (sourceLanguage (detectProjectStructure p) = None <->
   type (detectProjectStructure p) = Unknown) /\
  (forall lang,
      sourceLanguage (detectProjectStructure p) = Some lang ->
      validateLanguageCode lang = true).
Proof.
  split; [|split].
  - unfold detectProjectStructure.
    destruct (test languageCodeRegex (Path.basename (Path.dirname p) None));
      [|destruct (test languageCodeRegex (Path.basename p (Some ".json")))];
      apply dirname_nonempty.
  - unfold detectProjectStructure.
    destruct (test languageCodeRegex (Path.basename (Path.dirname p) None));
      [|destruct (test languageCodeRegex (Path.basename p (Some ".json")))];
      cbn; split; intros H; try discriminate H; reflexivity.
  - intros lang H. rewrite validate_test.
    apply (detect_sourceLanguage p lang H).
Qed.

(** ** The enumerated languages *)

Lemma NoDup_add (s : StringSet.t) (x : string) :
  NoDup s -> NoDup (StringSet.add s x).
Proof.
  intros H. unfold StringSet.add, StringSet.has.
  destruct (existsb (String.eqb x) s) eqn:E; [exact H|].
  apply NoDup_app; [exact H|repeat constructor; intros []|].
  intros y Hy [Exy|[]]. subst y.
  assert (existsb (String.eqb x) s = true); [|congruence].
  apply existsb_exists. exists x. split; [exact Hy|apply String.eqb_refl].
Qed.

Lemma NoDup_insertSorted (cmp : string -> string -> Z) (x : string)
      (l : list string) :
  ~ In x l -> NoDup l -> NoDup (insertSorted cmp x l).
Proof.
  induction l as [|y l IH]; intros Hx Hl; cbn.
  - repeat constructor. intros [].
  - destruct (cmp x y <=? 0)%Z.
    + constructor; assumption.
    + inversion Hl as [|? ? Hy Hl']; subst.
      constructor.
      * rewrite In_insertSorted. intros [->|H]; [|contradiction].
        apply Hx. left. reflexivity.
      * apply IH; [|exact Hl']. intros H. apply Hx. right. exact H.
Qed.

Lemma NoDup_sortWith (cmp : string -> string -> Z) (l : list string) :
  NoDup l -> NoDup (sortWith cmp l).
Proof.
  induction l as [|x l IH]; intros H; cbn; [constructor|].
  inversion H as [|? ? Hx Hl]; subst.
  apply NoDup_insertSorted; [|apply IH, Hl].
  rewrite In_sortWith. exact Hx.
Qed.

Lemma NoDup_scan (f : StringSet.t -> Dirent -> StringSet.t)
      (entries : list Dirent) :
  (forall acc e, NoDup acc -> NoDup (f acc e)) ->
  forall acc, NoDup acc -> NoDup (fold_left f entries acc).
Proof.
  intros Hf. induction entries as [|e entries IH]; intros acc H; cbn.
  - exact H.
  - apply IH, Hf, H.
Qed.

Lemma NoDup_addLanguageDirectory (acc : StringSet.t) (e : Dirent) :
  NoDup acc -> NoDup (addLanguageDirectory acc e).
Proof.
  intros H. unfold addLanguageDirectory.
  destruct (isDirectory e && test languageCodeRegex (name e));
    [apply NoDup_add|]; exact H.
Qed.

Lemma NoDup_addLanguageFile (acc : StringSet.t) (e : Dirent) :
  NoDup acc -> NoDup (addLanguageFile acc e).
Proof.
  intros H. unfold addLanguageFile.
  destruct (isFile e && endsWith (name e) ".json"); [|exact H].
  destruct (test languageCodeRegex (Path.basename (name e) (Some ".json")));
    [apply NoDup_add|]; exact H.
Qed.

Lemma scan_keeps (f : StringSet.t -> Dirent -> StringSet.t)
      (entries : list Dirent) (x : string) :
  (forall acc e, In x acc -> In x (f acc e)) ->
  forall acc, In x acc -> In x (fold_left f entries acc).
Proof.
  intros Hf. induction entries as [|e entries IH]; intros acc H; cbn.
  - exact H.
  - apply IH, Hf, H.
Qed.

Lemma addLanguageDirectory_keeps (x : string) (acc : StringSet.t)
      (e : Dirent) :
  In x acc -> In x (addLanguageDirectory acc e).
Proof.
  intros H. unfold addLanguageDirectory.
  destruct (isDirectory e && test languageCodeRegex (name e));
    [apply In_add; left|]; exact H.
Qed.

Lemma addLanguageFile_keeps (x : string) (acc : StringSet.t) (e : Dirent) :
  In x acc -> In x (addLanguageFile acc e).
Proof.
  intros H. unfold addLanguageFile.
  destruct (isFile e && endsWith (name e) ".json"); [|exact H].
  destruct (test languageCodeRegex (Path.basename (name e) (Some ".json")));
    [apply In_add; left|]; exact H.
Qed.

Lemma scan_directories_complete (entries : list Dirent) (acc : StringSet.t)
      (e : Dirent) :
  In e entries -> isDirectory e = true ->
  test languageCodeRegex (name e) = true ->
  In (name e) (fold_left addLanguageDirectory entries acc).
Proof.
  intros Hin Hd Ht. revert acc.
  induction entries as [|e' entries IH]; intros acc; [destruct Hin|].
  cbn. destruct Hin as [->|Hin]; [|apply IH, Hin].
  apply scan_keeps; [intros; apply addLanguageDirectory_keeps; assumption|].
  unfold addLanguageDirectory. rewrite Hd, Ht. apply In_add. right. reflexivity.
Qed.

Lemma endsWith_append (a suffix : string) : endsWith (a ++ suffix) suffix = true.
Proof.
  unfold endsWith, sliceFrom. rewrite length_append.
  apply andb_true_iff. split; [apply Nat.leb_le; lia|].
  replace (String.length a + String.length suffix - String.length suffix)
    with (String.length a + 0) by lia.
  replace (String.length a + String.length suffix - (String.length a + 0))
    with (String.length suffix) by lia.
  rewrite substring_append_r, substring_all. apply String.eqb_refl.
Qed.

Lemma scan_files_complete (entries : list Dirent) (acc : StringSet.t)
      (e : Dirent) (x : string) :
  In e entries -> isFile e = true -> name e = x ++ ".json" ->
  test languageCodeRegex x = true ->
  In x (fold_left addLanguageFile entries acc).
Proof.
  intros Hin Hf Hn Ht. revert acc.
  induction entries as [|e' entries IH]; intros acc; [destruct Hin|].
  cbn. destruct Hin as [->|Hin]; [|apply IH, Hin].
  apply scan_keeps; [intros; apply addLanguageFile_keeps; assumption|].
  unfold addLanguageFile.
  rewrite Hf, Hn, endsWith_append, (basename_json_name x (test_isFileName x Ht)), Ht.
  apply In_add. right. reflexivity.
Qed.

Section EnumeratedLanguages.

Context {FS : Type} {fsOps : FileSystem FS} {collator : Collator}.

Lemma NoDup_scanLanguages (fs : FS) (info : ProjectStructureInfo) :
  NoDup (fst (scanLanguages fs info)).
Proof.
  unfold scanLanguages.
  destruct (type info);
    try (destruct (readdirSync fs (basePath info)) as [entries|e]);
    cbn [fst]; try constructor.
  - apply NoDup_scan; [apply NoDup_addLanguageDirectory|constructor].
  - apply NoDup_scan; [apply NoDup_addLanguageFile|constructor].
Qed.

(** X7: the enumerator never reports a language twice. *)
Theorem enumerator_no_duplicates (fs : FS) (p : string) (l : list string) :
  fst (detectLanguagesFromProject fs p) = Normal l -> NoDup l.
Proof.
  unfold detectLanguagesFromProject.
  pose proof (NoDup_scanLanguages fs (detectProjectStructure p)) as H.
  destruct (scanLanguages fs (detectProjectStructure p)) as [codes warnings].
  cbn [fst] in *. intros [= <-].
  apply NoDup_sortWith. unfold StringSet.toArray.
  destruct (whenTruthy (sourceLanguage (detectProjectStructure p)));
    [apply NoDup_filter|]; exact H.
Qed.

(** X8: the enumerator misses nothing: every valid code on the disk, other
    than the source language as it is written, is in the result. *)
Theorem enumerator_complete (fs : FS) (p : string) (entries : list Dirent)
        (l : list string) (x : string) :
  readdirSync fs (basePath (detectProjectStructure p)) = Normal entries ->
  fst (detectLanguagesFromProject fs p) = Normal l ->
  onDisk entries (type (detectProjectStructure p)) x ->
  validateLanguageCode x = true ->
  sourceLanguage (detectProjectStructure p) <> Some x ->
  In x l.
Proof.
  intros Hread Hl (e & Hin & He) Hvalid Hsrc.
  rewrite validate_test in Hvalid.
  destruct (enumerated fs p) as (l' & Hl' & Hiff).
  rewrite Hl in Hl'. injection Hl' as <-.
  apply Hiff. split; [|exact Hsrc].
  unfold scanLanguages. rewrite Hread.
  destruct (type (detectProjectStructure p)); cbn [fst].
  - destruct He as [Hd <-]. apply scan_directories_complete; assumption.
  - destruct He as [Hf Hn]. apply (scan_files_complete _ _ e); assumption.
  - destruct He.
Qed.

End EnumeratedLanguages.

Lemma enumerator_no_duplicates_witness :
  NoDup ["de"; "fr"; "zh-Hans-CN"].
Proof.
  apply (enumerator_no_duplicates (collator := rootCollator)
           foldersDisk "/tmp/t/locales/en/common.json").
  vm_compute. reflexivity.
Defined.

Lemma enumerator_complete_witness :
  In "Fr" ["de"; "Fr"; "RU"].
Proof.
  apply (enumerator_complete (collator := rootCollator)
           mixedCase "i18n/EN.json"
           (memEntries mixedCase "i18n") ["de"; "Fr"; "RU"] "Fr").
  - vm_compute. reflexivity.
  - vm_compute. reflexivity.
  - exists (mkDirent "Fr.json" false true).
    split; [vm_compute; auto|]. vm_compute. auto.
  - vm_compute. reflexivity.
  - vm_compute. discriminate.
Defined.
Lemma validateLanguageCode_grammar_witness :
  validateLanguageCode "sr-Cyrl-RS" = true /\
  exists l sc rg,
    "sr-Cyrl-RS" = assemble l sc rg /\ wellFormed l sc rg = true.
Proof.
  assert (H : validateLanguageCode "sr-Cyrl-RS" = true)
    by (vm_compute; reflexivity).
  split; [exact H|].
  apply (proj1 (validateLanguageCode_grammar "sr-Cyrl-RS")), H.
Defined.

Lemma detect_result_wellformed_witness :
  sourceLanguage (detectProjectStructure "locales/pt-BR/app.json")
  = Some "pt-BR" /\
  validateLanguageCode "pt-BR" = true.
Proof.
  assert (H : sourceLanguage (detectProjectStructure "locales/pt-BR/app.json")
              = Some "pt-BR") by (vm_compute; reflexivity).
  split; [exact H|].
  apply (proj2 (proj2 (detect_result_wellformed "locales/pt-BR/app.json"))), H.
Defined.

(** ** The path returned by the collision resolver *)

Section ResolvedPath.

Context {FS : Type} {fsOps : FileSystem FS}.

Lemma probe_result (fs : FS) (dir baseName ext : string) :
  let candidate c :=
    Path.join
      [dir; baseName ++ " (" ++ numberToString c ++ ")" ++ ext] in
  forall fuel c r,
    (c <= maxExact)%N ->
    probeUniquePath fs dir baseName ext fuel c = Some r ->
    exists k,
      (c <= k <= maxExact)%N /\ r = candidate k /\
      existsSync fs r = false /\
      forall j, (c <= j < k)%N -> existsSync fs (candidate j) = true.
Proof.
  intros candidate.
  induction fuel as [|fuel IH]; intros c r Hc; [discriminate|].
  cbn [probeUniquePath]. fold (candidate c).
  destruct (existsSync fs (candidate c)) eqn:E.
  - intros H. apply IH in H.
    + destruct H as (k & Hk & -> & Hfree & Htaken).
      unfold increment in Hk, Htaken.
      destruct (N.ltb_spec c maxExact) as [Hlt|Hge].
      * exists k. split; [lia|]. split; [reflexivity|]. split; [exact Hfree|].
        intros j Hj. destruct (N.eq_dec j c) as [->|Hne]; [exact E|].
        apply Htaken. lia.
      * assert (k = c) by lia. subst k. congruence.
    + unfold increment. destruct (N.ltb_spec c maxExact); lia.
  - intros [= <-]. exists c. split; [lia|]. split; [reflexivity|].
    split; [exact E|]. intros j Hj. lia.
Qed.

Lemma resolved_free (fuel : nat) (fs : FS) (filePath r : string) :
  getUniqueFilePath fuel fs filePath = Some r -> existsSync fs r = false.
Proof.
  unfold getUniqueFilePath.
  destruct (existsSync fs filePath) eqn:E; cbn [negb].
  - intros H. apply probe_result in H; [|unfold maxExact; lia].
    destruct H as (k & _ & _ & Hfree & _). exact Hfree.
  - intros [= <-]. exact E.
Qed.

(** X9: the path that the resolver returns does not exist.  It is the path
    asked for, or a numbered path such that the path asked for and all
    the paths with a smaller number exist. *)
Theorem getUniqueFilePath_returns_free (fuel : nat) (fs : FS)
        (filePath r : string) :
  getUniqueFilePath fuel fs filePath = Some r ->
  existsSync fs r = false /\
  (r = filePath \/
   exists k,
     (1 <= k <= maxExact)%N /\ r = numberedPath filePath k /\
     existsSync fs filePath = true /\
     forall j, (1 <= j < k)%N ->
               existsSync fs (numberedPath filePath j) = true).
Proof.
  unfold getUniqueFilePath.
  destruct (existsSync fs filePath) eqn:E; cbn [negb].
  - intros H. apply probe_result in H; [|unfold maxExact; lia].
    destruct H as (k & Hk & -> & Hfree & Htaken).
    split; [exact Hfree|]. right. exists k. repeat split; try lia.
    exact Htaken.
  - intros [= <-]. split; [exact E|]. left. reflexivity.
Qed.

(** X10: the path that [generateTargetFilePath] returns does not exist on the
    disk as the call leaves it.  The call changes the disk only to create
    the missing target directory of a folder-based project, and it
    throws only when that creation does. *)
Theorem generateTargetFilePath_effects (fuel : nat) (fs : FS)
        (src lang : string) :
  (forall fs' r,
      generateTargetFilePath fuel fs src lang = Normal (fs', Some r) ->
      existsSync fs' r = false) /\
  (forall fs' r,
      generateTargetFilePath fuel fs src lang = Normal (fs', r) ->
      fs' = fs \/
      exists d,
        targetDirectory src lang = Some d /\ existsSync fs d = false /\
        mkdirSync fs d = Normal fs') /\
  (forall e,
      generateTargetFilePath fuel fs src lang = Throw e ->
      exists d,
        targetDirectory src lang = Some d /\ existsSync fs d = false /\
        mkdirSync fs d = Throw e) /\
  (type (detectProjectStructure src) <> FolderBased ->
   generateTargetFilePath fuel fs src lang =
   Normal (fs, getUniqueFilePath fuel fs (targetFilePath src lang))).
Proof.
  unfold generateTargetFilePath.
  repeat split.
  - intros fs' r.
    destruct (match targetDirectory src lang with
              | Some targetDir =>
                  if negb (existsSync fs targetDir)
                  then mkdirSync fs targetDir
                  else Normal fs
              | None => Normal fs
              end) as [fs0|e]; cbn [bindC]; [|discriminate].
    intros [= <- H]. apply (resolved_free _ _ _ _ H).
  - intros fs' r.
    destruct (targetDirectory src lang) as [d|]; cbn [bindC].
    + destruct (existsSync fs d) eqn:E; cbn [negb bindC].
      * intros [= <- _]. left. reflexivity.
      * destruct (mkdirSync fs d) as [fs0|e] eqn:M; cbn [bindC];
          [|discriminate].
        intros [= <- _]. right. exists d. auto.
    + intros [= <- _]. left. reflexivity.
  - intros e.
    destruct (targetDirectory src lang) as [d|]; cbn [bindC]; [|discriminate].
    destruct (existsSync fs d) eqn:E; cbn [negb bindC]; [discriminate|].
    destruct (mkdirSync fs d) as [fs0|e'] eqn:M; cbn [bindC]; [discriminate|].
    intros [= <-]. exists d. auto.
  - intros Hkind. unfold targetDirectory.
    destruct (type (detectProjectStructure src)); [contradiction| |];
      reflexivity.
Qed.

End ResolvedPath.

Lemma getUniqueFilePath_returns_free_witness :
  existsSync conflictDisk "/tmp/t/i18n/fr (2).json" = false /\
  ("/tmp/t/i18n/fr (2).json" = "/tmp/t/i18n/fr.json" \/
   exists k,
     (1 <= k <= maxExact)%N /\
     "/tmp/t/i18n/fr (2).json" = numberedPath "/tmp/t/i18n/fr.json" k /\
     existsSync conflictDisk "/tmp/t/i18n/fr.json" = true /\
     forall j, (1 <= j < k)%N ->
               existsSync conflictDisk (numberedPath "/tmp/t/i18n/fr.json" j)
               = true).
Proof.
  apply (getUniqueFilePath_returns_free 2 conflictDisk "/tmp/t/i18n/fr.json").
  vm_compute. reflexivity.
Defined.

Lemma generateTargetFilePath_effects_witness :
  existsSync
    ((folderDisk ++ [("/tmp/t/locales/fr", true)])%list)
    "/tmp/t/locales/fr/common.json" = false.
Proof.
  apply (proj1 (generateTargetFilePath_effects
                  1 folderDisk "/tmp/t/locales/en/common.json" "fr")).
  vm_compute. reflexivity.
Defined.

(** ** Numbered copies *)

Lemma space_not_tagChar : tagChar " " = false.
Proof. reflexivity. Qed.

Lemma numbered_not_valid (nm tail : string) :
  test languageCodeRegex (nm ++ " " ++ tail) = false.
Proof.
  destruct (test languageCodeRegex (nm ++ " " ++ tail)) eqn:E; [|reflexivity].
  destruct (test_shape _ E) as [_ H].
  rewrite forallChars_append in H. apply andb_true_iff in H.
  destruct H as [_ H]. cbn in H. discriminate H.
Qed.

Lemma dirPrefix_form (d : string) :
  Path.dirPrefix d = "" \/ exists y, Path.dirPrefix d = y ++ "/".
Proof.
  unfold Path.dirPrefix.
  set (abs := Path.codeIs (Path.charCodeAt d 0) Path.slash).
  set (r := Path.normalizeString (d ++ "/") (negb abs)).
  destruct abs, (String.length r =? 0)%nat.
  - right. exists "". reflexivity.
  - right. exists ("/" ++ r). rewrite append_assoc. reflexivity.
  - left. reflexivity.
  - right. exists r. reflexivity.
Qed.

(** X11: a numbered copy made by the collision resolver is not taken for a
    language: its stem is not a valid code, so that it is never
    classified as the language file of a file-based project. *)
Theorem numbered_copy_not_language (x nm : string) (k : N) :
  x <> "" -> Path.isFileName nm = true ->
  validateLanguageCode (nm ++ " (" ++ numberToString k ++ ")") = false /\
  Path.basename (numberedPath (x ++ "/" ++ nm ++ ".json") k) (Some ".json")
  = nm ++ " (" ++ numberToString k ++ ")" /\
  type (detectProjectStructure (numberedPath (x ++ "/" ++ nm ++ ".json") k))
  <> FileBased.
Proof.
  intros Hx Hnm.
  assert (Hinvalid : test languageCodeRegex
                       (nm ++ " (" ++ numberToString k ++ ")") = false)
    by apply numbered_not_valid.
  assert (Hname : Path.isFileName (nm ++ " (" ++ numberToString k ++ ")")
                  = true).
  { destruct (isFileName_inv nm Hnm) as [Hs Hlen].
    unfold Path.isFileName. rewrite !slashFree_append, Hs.
    rewrite numberToString_slashFree.
    destruct nm; [cbn in Hlen; lia|reflexivity]. }
  assert (Hstem : Path.basename (numberedPath (x ++ "/" ++ nm ++ ".json") k)
                                (Some ".json")
                  = nm ++ " (" ++ numberToString k ++ ")").
  { rewrite (numberedPath_literal x nm k Hx Hnm).
    replace (nm ++ " (" ++ numberToString k ++ ").json")
      with ((nm ++ " (" ++ numberToString k ++ ")") ++ ".json")
      by (rewrite !append_assoc; reflexivity).
    destruct (dirPrefix_form x) as [->|[y ->]].
    - apply basename_json_name, Hname.
    - rewrite append_assoc.
      apply (basename_json_append y _ Hname). }
  split; [rewrite validate_test; exact Hinvalid|].
  split; [exact Hstem|].
  intros Hkind. apply detect_file_inv in Hkind. destruct Hkind as [_ Ht].
  rewrite Hstem in Ht. congruence.
Qed.

Lemma numbered_copy_not_language_witness :
  validateLanguageCode "fr (1)" = false /\
  Path.basename (numberedPath "i18n/fr.json" 1) (Some ".json") = "fr (1)" /\
  type (detectProjectStructure (numberedPath "i18n/fr.json" 1)) <> FileBased.
Proof.
  apply (numbered_copy_not_language "i18n" "fr" 1).
  - discriminate.
  - vm_compute. reflexivity.
Defined.
(** ** Detection on a generated path *)

Lemma test_rejects (a t : string) (c : ascii) :
  tagChar c = false -> test languageCodeRegex (a ++ String c t) = false.
Proof.
  intros Hc.
  destruct (test languageCodeRegex (a ++ String c t)) eqn:E; [|reflexivity].
  destruct (test_shape _ E) as [_ H].
  rewrite forallChars_append in H. apply andb_true_iff in H.
  destruct H as [_ H]. cbn [forallChars] in H. rewrite Hc in H.
  discriminate H.
Qed.

(** A directory written in normal form, other than the current
    directory, is its own prefix. *)
Lemma dirPrefix_normal (d : string) :
  d <> "" -> d <> "." ->
  Path.normalize (d ++ "/") = d ++ "/" ->
  Path.dirPrefix d = d ++ "/".
Proof.
  intros Hd Hdot. unfold Path.normalize, Path.dirPrefix.
  replace (String.length (d ++ "/") =? 0)%nat with false
    by (symmetry; apply Nat.eqb_neq; rewrite length_append; cbn; lia).
  assert (Hroot : Path.charCodeAt (d ++ "/") 0 = Path.charCodeAt d 0).
  { unfold Path.charCodeAt. apply get_append_l.
    destruct d; [congruence|cbn; lia]. }
  rewrite Hroot.
  assert (Hlast : Path.codeIs
                    (Path.charCodeAt (d ++ "/") (String.length (d ++ "/") - 1))
                    Path.slash = true).
  { rewrite length_append. cbn [String.length].
    replace (String.length d + 1 - 1) with (String.length d + 0) by lia.
    unfold Path.charCodeAt. rewrite get_append_r. reflexivity. }
  rewrite Hlast.
  set (abs := Path.codeIs (Path.charCodeAt d 0) Path.slash).
  set (r := Path.normalizeString (d ++ "/") (negb abs)).
  destruct (String.length r =? 0)%nat eqn:Er.
  - destruct abs eqn:Eabs; intros H.
    + exfalso. apply (f_equal String.length) in H.
      rewrite length_append in H. cbn [String.length] in H.
      destruct d; [congruence|cbn [String.length] in H; lia].
    + exfalso. destruct d as [|c [|c' d]]; [congruence| |].
      * cbn [append] in H. inversion H. subst c. apply Hdot. reflexivity.
      * apply (f_equal String.length) in H.
        rewrite length_append in H. cbn [String.length] in H. lia.
  - destruct abs; intros H; exact H.
Qed.

Lemma detect_unknown_inv (p : string) :
  type (detectProjectStructure p) = Unknown ->
  test languageCodeRegex (Path.basename (Path.dirname p) None) = false /\
  test languageCodeRegex (Path.basename p (Some ".json")) = false.
Proof.
  unfold detectProjectStructure.
  destruct (test languageCodeRegex (Path.basename (Path.dirname p) None));
    [discriminate|].
  destruct (test languageCodeRegex (Path.basename p (Some ".json")));
    [discriminate|].
  auto.
Qed.

Lemma detect_file_basePath (p : string) :
  type (detectProjectStructure p) = FileBased ->
  basePath (detectProjectStructure p) = Path.dirname p.
Proof.
  unfold detectProjectStructure.
  destruct (test languageCodeRegex (Path.basename (Path.dirname p) None));
    [discriminate|].
  destruct (test languageCodeRegex (Path.basename p (Some ".json")));
    [reflexivity|discriminate].
Qed.

(** A path laid out as [base/nm.json], where the name of [base] is not a
    language code. *)
Lemma detect_file_layout (base nm : string) :
  base <> "" -> base <> "/" -> Path.isFileName nm = true ->
  test languageCodeRegex (Path.basename base None) = false ->
  detectProjectStructure (base ++ "/" ++ nm ++ ".json") =
  if test languageCodeRegex nm
  then {| type := FileBased; basePath := base; sourceLanguage := Some nm |}
  else {| type := Unknown; basePath := base; sourceLanguage := None |}.
Proof.
  intros Hbase Hroot Hnm Hparent.
  assert (Hdir : Path.dirname (base ++ "/" ++ nm ++ ".json") = base).
  { apply (dirname_append base (nm ++ ".json"));
      [apply isFileName_json, Hnm|exact Hbase|exact Hroot]. }
  assert (Hstem : Path.basename (base ++ "/" ++ nm ++ ".json") (Some ".json")
                  = nm) by apply (basename_json_append base nm Hnm).
  unfold detectProjectStructure. rewrite Hdir, Hstem, Hparent. reflexivity.
Qed.


(** ** The resolver and the enumerator again *)

Section Idempotence.

Context {FS : Type} {fsOps : FileSystem FS}.

(** X13: the resolver leaves its own results alone: a path that it has
    returned is returned unchanged when it is asked for again on the
    same disk. *)
Theorem getUniqueFilePath_idempotent (fuel fuel' : nat) (fs : FS)
        (filePath r : string) :
  getUniqueFilePath fuel fs filePath = Some r ->
  getUniqueFilePath fuel' fs r = Some r.
Proof.
  intros H. unfold getUniqueFilePath.
  rewrite (resolved_free _ _ _ _ H). reflexivity.
Qed.

End Idempotence.

Lemma getUniqueFilePath_idempotent_witness :
  getUniqueFilePath 0 conflictDisk "/tmp/t/i18n/fr (2).json"
  = Some "/tmp/t/i18n/fr (2).json".
Proof.
  apply (getUniqueFilePath_idempotent 2 0 conflictDisk "/tmp/t/i18n/fr.json").
  vm_compute. reflexivity.
Defined.

Section OpenFile.

Context {FS : Type} {fsOps : FileSystem FS} {collator : Collator}.

(** X14: in a folder-based project the enumeration does not depend on the
    file of the language folder that is open: two files of the folder
    [base/dir] give the same languages and the same warnings. *)
Theorem enumeration_same_for_folder (fs : FS) (base dir file file' : string) :
  base <> "" -> base <> "/" ->
  validateLanguageCode dir = true ->
  Path.isFileName file = true -> Path.isFileName file' = true ->
  detectLanguagesFromProject fs (folderBasedPath base dir file)
  = detectLanguagesFromProject fs (folderBasedPath base dir file').
Proof.
  intros Hbase Hroot Hdir Hfile Hfile'. rewrite validate_test in Hdir.
  unfold detectLanguagesFromProject.
  rewrite !detect_folder_layout by assumption. reflexivity.
Qed.

End OpenFile.

Lemma enumeration_same_for_folder_witness :
  detectLanguagesFromProject (collator := rootCollator) foldersDisk
    "/tmp/t/locales/en/common.json"
  = detectLanguagesFromProject (collator := rootCollator) foldersDisk
      "/tmp/t/locales/en/errors.json".
Proof.
  apply (enumeration_same_for_folder (collator := rootCollator) foldersDisk
           "/tmp/t/locales" "en" "common.json" "errors.json").
  - discriminate.
  - discriminate.
  - vm_compute. reflexivity.
  - vm_compute. reflexivity.
  - vm_compute. reflexivity.
Defined.

(** ** The classification of a path written out *)

(** X15: on a path written [base/dir/nm.json] the detection is decided by
    [dir] first and by [nm] next: folder-based under [base] when [dir] is
    a valid code; otherwise file-based in [base/dir] when [nm] is one;
    otherwise unknown, in [base/dir]. *)
Theorem detect_classification (base dir nm : string) :
  base <> "" -> base <> "/" ->
  Path.isFileName dir = true -> Path.isFileName nm = true ->
  detectProjectStructure (base ++ "/" ++ dir ++ "/" ++ nm ++ ".json") =
  if validateLanguageCode dir then
    {| type := FolderBased; basePath := base; sourceLanguage := Some dir |}
  else if validateLanguageCode nm then
    {| type := FileBased;
       basePath := base ++ "/" ++ dir;
       sourceLanguage := Some nm |}
  else
    {| type := Unknown; basePath := base ++ "/" ++ dir;
       sourceLanguage := None |}.
Proof.
  intros Hbase Hroot Hdir Hnm. rewrite !validate_test.
  destruct (test languageCodeRegex dir) eqn:Edir.
  - apply (detect_folder_layout base dir (nm ++ ".json") Hbase Hroot Edir).
    apply isFileName_json, Hnm.
  - replace (base ++ "/" ++ dir ++ "/" ++ nm ++ ".json")
      with ((base ++ "/" ++ dir) ++ "/" ++ nm ++ ".json")
      by (rewrite !append_assoc; reflexivity).
    apply detect_file_layout.
    + destruct base; [congruence|discriminate].
    + intros E. apply (f_equal String.length) in E.
      rewrite !length_append in E. cbn [String.length] in E.
      destruct base; [congruence|cbn [String.length] in E; lia].
    + exact Hnm.
    + change (base ++ "/" ++ dir) with (base ++ String "/" dir).
      rewrite (basename_append base dir Hdir). exact Edir.
Qed.

Lemma detect_classification_witness :
  detectProjectStructure "/tmp/t/i18n/pt-BR.json" =
  {| type := FileBased;
     basePath := "/tmp/t/i18n";
     sourceLanguage := Some "pt-BR" |}.
Proof.
  apply (detect_classification "/tmp/t" "i18n" "pt-BR").
  - discriminate.
  - discriminate.
  - vm_compute. reflexivity.
  - vm_compute. reflexivity.
Defined.

(** * Properties of the extension *)

(** ** Tasks *)

Lemma bind_returned {W A B : Type} (t : Task W A) (k : A -> Task W B)
      (w w' : W) (b : B) :
  bind t k w = (Returned b, w') ->
  exists a w1, t w = (Returned a, w1) /\ k a w1 = (Returned b, w').
Proof.
  unfold bind. destruct (t w) as [[a|e|] w1]; try discriminate.
  intros H. exists a, w1. auto.
Qed.

Lemma bind_step {W A B : Type} (t : Task W A) (k : A -> Task W B)
      (w w1 : W) (a : A) :
  t w = (Returned a, w1) -> bind t k w = k a w1.
Proof. intros H. unfold bind. rewrite H. reflexivity. Qed.

Lemma keepsSecrets_unawaited {W R : Type}
      (stored : W -> string -> option string) (t : Task W R) :
  keepsSecrets stored t -> keepsSecrets stored (unawaited t).
Proof. intros H w k. apply H. Qed.

(** ** The key manager *)

Lemma usable_some (configApiKey : option string) (key : string) :
  ApiKeyManager.usable configApiKey = Some key ->
  configApiKey = Some key /\ truthy key = true.
Proof.
  unfold ApiKeyManager.usable. destruct configApiKey as [c|]; [|discriminate].
  destruct (truthy c) eqn:E; cbn [andb]; [|discriminate].
  destruct (negb (blank c)); [|discriminate].
  intros [= <-]. auto.
Qed.

Lemma differs_false (key : string) (secureApiKey : option string) :
  ApiKeyManager.differs key secureApiKey = false -> secureApiKey = Some key.
Proof.
  unfold ApiKeyManager.differs. destruct secureApiKey as [s|]; [|discriminate].
  intros H. apply negb_false_iff, String.eqb_eq in H. congruence.
Qed.

Lemma truthyOption_some (o : option string) :
  truthyOption o = true -> exists s, o = Some s /\ truthy s = true.
Proof.
  destruct o as [s|]; [|discriminate]. intros H. exists s. auto.
Qed.

Lemma whenTruthy_some (o : option string) (s : string) :
  whenTruthy o = Some s -> o = Some s /\ truthy s = true.
Proof.
  unfold whenTruthy. destruct o as [x|]; [|discriminate].
  destruct (truthy x) eqn:E; [|discriminate]. intros [= <-]. auto.
Qed.

Section KeyManager.

Context {W : Type} {editor : Editor W}.
Variable stored : W -> string -> option string.
Hypothesis laws : SecretStorage stored.

Lemma getApiKey_stored (w w' : W) (r : option string) :
  ApiKeyManager.getApiKey w = (Returned r, w') ->
  (forall key, ApiKeyManager.usable
                 (configGet CONFIG.SECTION CONFIG.KEYS.API_KEY
                            (snd (secretsGet ApiKeyManager.SECRET_KEY w)))
               = Some key -> r = Some key) /\
  (truthyOption r = true -> stored w' ApiKeyManager.SECRET_KEY = r).
Proof.
  unfold ApiKeyManager.getApiKey. intros H.
  apply bind_returned in H. destruct H as (secure & w1 & Hget & H).
  pose proof (get_reads stored laws _ _ _ _ Hget) as Hsecure.
  pose proof (get_keeps stored laws ApiKeyManager.SECRET_KEY w
                ApiKeyManager.SECRET_KEY) as Hkeep.
  rewrite Hget in *. cbn [snd] in *.
  unfold bind at 1, reading at 1 in H.
  destruct (ApiKeyManager.usable
              (configGet CONFIG.SECTION CONFIG.KEYS.API_KEY w1))
    as [key|] eqn:Eusable.
  - destruct (usable_some _ _ Eusable) as [Econfig Etruthy].
    apply bind_returned in H. destruct H as (u & w2 & Hblock & H); destruct u.
    unfold ret in H. injection H as <- <-.
    split; [intros key' [= <-]; exact Econfig|]. intros _. rewrite Econfig.
    destruct (ApiKeyManager.differs key secure) eqn:Ediff.
    + apply bind_returned in Hblock.
      destruct Hblock as (u & w3 & Hstore & Hblock); destruct u.
      apply bind_returned in Hblock.
      destruct Hblock as (u & w4 & Hremove & Hblock); destruct u.
      pose proof (store_writes stored laws _ _ _ _ Hstore) as Hw3.
      pose proof (remove_keeps stored laws CONFIG.SECTION CONFIG.KEYS.API_KEY
                    w3 ApiKeyManager.SECRET_KEY) as Hw4.
      rewrite Hremove in Hw4. cbn [snd] in Hw4.
      destruct (truthyOption secure); unfold unawaited in Hblock;
        injection Hblock as <-;
        rewrite (information_keeps stored laws); congruence.
    + unfold ret in Hblock. injection Hblock as <-.
      apply differs_false in Ediff. congruence.
  - unfold ret in H. injection H as <- <-.
    split; [discriminate|]. intros _. congruence.
Qed.

Lemma setApiKey_stored (w w' : W) (key : string) :
  ApiKeyManager.setApiKey w = (Returned (Some key), w') ->
  truthy key = true ->
  stored w' ApiKeyManager.SECRET_KEY = Some key.
Proof.
  unfold ApiKeyManager.setApiKey. intros H Hkey.
  apply bind_returned in H. destruct H as (apiKey & w1 & Hinput & H).
  destruct (whenTruthy apiKey) as [k|] eqn:E.
  - destruct (whenTruthy_some _ _ E) as [-> _].
    apply bind_returned in H. destruct H as (u & w2 & Hstore & H); destruct u.
    apply bind_returned in H. destruct H as (u & w3 & Hinfo & H); destruct u.
    unfold ret in H. injection H as -> <-.
    unfold unawaited in Hinfo. injection Hinfo as <-.
    rewrite (information_keeps stored laws).
    apply (store_writes stored laws _ _ _ _ Hstore).
  - unfold ret in H. injection H as -> <-.
    cbn [whenTruthy] in E. rewrite Hkey in E. discriminate E.
Qed.

(** X16: a key that [ensureApiKey] returns is the key in the secret storage
    when the call ends, whether it was there, came from the setting or
    was typed by the user. *)
Theorem ensureApiKey_key_is_stored (w w' : W) (key : string) :
  ApiKeyManager.ensureApiKey w = (Returned (Some key), w') ->
  truthy key = true ->
  stored w' ApiKeyManager.SECRET_KEY = Some key.
Proof.
  unfold ApiKeyManager.ensureApiKey. intros H Hkey.
  apply bind_returned in H. destruct H as (apiKey & w1 & Hget & H).
  destruct (truthyOption apiKey) eqn:E; cbn [negb] in H.
  - unfold ret in H. injection H as -> <-.
    apply (getApiKey_stored _ _ _ Hget). exact E.
  - apply bind_returned in H. destruct H as (action & w2 & Hwarn & H).
    destruct (chose action "Set API Key").
    + apply (setApiKey_stored _ _ _ H Hkey).
    + destruct (chose action "Get API Key").
      * apply bind_returned in H. destruct H as (u & w3 & _ & H); destruct u.
        unfold ret in H. injection H as -> <-.
        cbn [truthyOption] in E. congruence.
      * unfold ret in H. injection H as -> <-.
        cbn [truthyOption] in E. congruence.
Qed.

End KeyManager.

Lemma deskMessage_vault (m : string) (items : list string) (d : Desk) :
  vault (snd (deskMessage m items d)) = vault d.
Proof.
  unfold deskMessage, answered, written.
  destruct items; cbn; [reflexivity|]. destruct (answers d); reflexivity.
Qed.

Lemma desk_secret_storage : SecretStorage deskStored.
Proof.
  split; unfold keepsSecrets, deskStored; cbn.
  - intros k w r w' [= <- <-]. reflexivity.
  - reflexivity.
  - intros k v w w' [= <-]. cbn. unfold deskLookup. cbn.
    rewrite String.eqb_refl. reflexivity.
  - reflexivity.
  - intros m items w k. rewrite deskMessage_vault. reflexivity.
  - intros m items w k. rewrite deskMessage_vault. reflexivity.
  - intros options w k. unfold answered, written. cbn.
    destruct (answers w); reflexivity.
  - reflexivity.
Qed.

Lemma ensureApiKey_key_is_stored_witness :
  let d := {| disk := []; texts := []; vault := [];
              setting := Some "key-2"; answers := []; journal := [] |} in
  fst (ApiKeyManager.ensureApiKey d) = Returned (Some "key-2") /\
  deskStored (snd (ApiKeyManager.ensureApiKey d)) ApiKeyManager.SECRET_KEY
  = Some "key-2".
Proof.
  intros d. split; [vm_compute; reflexivity|].
  apply (ensureApiKey_key_is_stored deskStored desk_secret_storage d).
  - vm_compute. reflexivity.
  - vm_compute. reflexivity.
Defined.

(** ** The language selector *)

Lemma valid_not_search (lang : string) :
  test languageCodeRegex lang = true -> startsWith lang "$(search)" = false.
Proof.
  intros H. destruct (test_shape lang H) as [Hlen Hc].
  destruct lang as [|c lang]; [cbn in Hlen; lia|].
  cbn [forallChars] in Hc. apply andb_true_iff in Hc. destruct Hc as [Hc _].
  unfold startsWith. cbn [String.length substring String.eqb].
  destruct (Ascii.eqb_spec c "$"); [subst c; discriminate Hc|reflexivity].
Qed.

Section Selector.

Context {W : Type} {editor : Editor W}.
Variable predictLanguages : string -> Task W (list Service.Language).

Lemma select_valid_label (detected : list string) (w w1 : W)
      (item : QuickPickItem) :
  detected <> [] ->
  showQuickPick (LanguageSelector.detectedOptions detected) detectedPick w
  = (Returned (Some item), w1) ->
  test languageCodeRegex (label item) = true ->
  LanguageSelector.selectTargetLanguage predictLanguages detected w
  = (Returned (Some (label item)), w1).
Proof.
  intros Hne Hpick Hvalid.
  unfold LanguageSelector.selectTargetLanguage.
  replace (0 <? List.length detected)%nat with true
    by (destruct detected; [congruence|reflexivity]).
  unfold LanguageSelector.showDetectedLanguagesQuickPick.
  change {| pickPlaceHolder := "Select target language";
            matchOnDescription := true |} with detectedPick.
  unfold bind. rewrite Hpick.
  rewrite (valid_not_search _ Hvalid).
  unfold ret. cbn [LanguageSelector.chosen].
  unfold LanguageSelector.searchStep, LanguageSelector.manualStep.
  cbn [truthyOption]. rewrite (test_truthy _ Hvalid). reflexivity.
Qed.

(** X17: a valid code picked among the detected languages is the result of
    the selection, without any further prompt; a dismissed quick pick
    ends the selection without a language. *)
Theorem selectTargetLanguage_quick_pick (detected : list string) (w w1 : W) :
  detected <> [] ->
  (forall item,
      showQuickPick (LanguageSelector.detectedOptions detected) detectedPick w
      = (Returned (Some item), w1) ->
      validateLanguageCode (label item) = true ->
      LanguageSelector.selectTargetLanguage predictLanguages detected w
      = (Returned (Some (label item)), w1)) /\
  (showQuickPick (LanguageSelector.detectedOptions detected) detectedPick w
   = (Returned None, w1) ->
   LanguageSelector.selectTargetLanguage predictLanguages detected w
   = (Returned None, w1)).
Proof.
  intros Hne. split.
  - intros item Hpick Hvalid. rewrite validate_test in Hvalid.
    apply select_valid_label; assumption.
  - intros Hpick. unfold LanguageSelector.selectTargetLanguage.
    replace (0 <? List.length detected)%nat with true
      by (destruct detected; [congruence|reflexivity]).
    unfold LanguageSelector.showDetectedLanguagesQuickPick.
    change {| pickPlaceHolder := "Select target language";
              matchOnDescription := true |} with detectedPick.
    unfold bind. rewrite Hpick. reflexivity.
Qed.


End Selector.

Lemma selectTargetLanguage_quick_pick_witness :
  deskSelect ["de"; "fr"] (office [Some "fr"])
  = (Returned (Some "fr"),
     written (office []) "Select target language").
Proof.
  pose proof (proj1 (selectTargetLanguage_quick_pick
                       (fun _ => ret []) ["de"; "fr"] (office [Some "fr"])
                       (written (office []) "Select target language")
                       ltac:(discriminate))
                    {| label := "fr"; description := "Detected in project" |})
    as W.
  apply W.
  - vm_compute. reflexivity.
  - vm_compute. reflexivity.
Defined.


(** ** The translate command *)

Section Command.

Context {W : Type} {fsOps : FileSystem W} {files : FileContents W}
        {editor : Editor W} {collator : Collator} {errors : ErrorMessages}.
Context {JsonRecord : Type}.
Variable stringify : JsonRecord -> string.
Variable ensureApiKey : Task W (option string).
Variable translateJson :
  Service.TranslationRequest JsonRecord ->
  Task W (Service.TranslationResult JsonRecord).

(** Every detected language is a valid code. *)
Lemma detecting_valid (fsPath : string) (w w' : W) (detected : list string)
      (x : string) :
  TranslationCommand.detecting fsPath w = (Returned detected, w') ->
  In x detected -> test languageCodeRegex x = true.
Proof.
  unfold TranslationCommand.detecting.
  destruct (enumerated w fsPath) as (l & Hl & Hiff).
  destruct (detectLanguagesFromProject w fsPath) as [languages warnings].
  cbn [fst] in Hl. subst languages. unfold fromCompletion.
  intros [= <- _] Hx. apply Hiff in Hx. destruct Hx as [Hx _].
  apply (scanned w _ x Hx).
Qed.

Section Selection.

Variable selectTargetLanguage : list string -> Task W (option string).

(** The command up to the choice of the target language. *)
Lemma handle_selected (fuel : nat) (uri : option string) (w w1 w1' w2 : W)
      (apiKey fsPath targetLanguage : string) (detected : list string) :
  ensureApiKey w = (Returned (Some apiKey), w1) -> truthy apiKey = true ->
  TranslationCommand.fileUri uri w1 = Some fsPath ->
  endsWith fsPath ".json" = true ->
  TranslationCommand.detecting fsPath w1 = (Returned detected, w1') ->
  selectTargetLanguage detected w1' = (Returned (Some targetLanguage), w2) ->
  truthy targetLanguage = true ->
  TranslationCommand.handleTranslateCommand
    stringify ensureApiKey selectTargetLanguage translateJson fuel uri w
  = tryCatch
      (TranslationCommand.translateTo stringify translateJson fuel fsPath
                                      targetLanguage)
      (fun error =>
         unawaited (showErrorMessage ("Error: " ++ errorText error) []))
      w2.
Proof.
  intros Hkey Htruthy Huri Hjson Hdetect Hselect Hlang.
  unfold TranslationCommand.handleTranslateCommand, tryCatch.
  unfold bind at 1. rewrite Hkey. cbn [truthyOption]. rewrite Htruthy.
  cbn [negb]. unfold bind at 1, reading at 1. rewrite Huri, Hjson.
  unfold bind at 1. rewrite Hdetect.
  unfold bind at 1. rewrite Hselect.
  cbn [whenTruthy]. rewrite Hlang. reflexivity.
Qed.

(** X19: the command tests the target language the other way round: for a
    code that [validateLanguageCode] accepts it shows the message about
    an invalid code and does nothing else; it translates exactly when
    the code is rejected. *)
Theorem handleTranslateCommand_language_check
        (fuel : nat) (uri : option string) (w w1 w1' w2 : W)
        (apiKey fsPath targetLanguage : string) (detected : list string) :
  ensureApiKey w = (Returned (Some apiKey), w1) -> truthy apiKey = true ->
  TranslationCommand.fileUri uri w1 = Some fsPath ->
  endsWith fsPath ".json" = true ->
  TranslationCommand.detecting fsPath w1 = (Returned detected, w1') ->
  selectTargetLanguage detected w1' = (Returned (Some targetLanguage), w2) ->
  truthy targetLanguage = true ->
  (validateLanguageCode targetLanguage = true ->
   TranslationCommand.handleTranslateCommand
     stringify ensureApiKey selectTargetLanguage translateJson fuel uri w
   = (Returned tt,
      snd (showErrorMessage
             "Invalid language code format. Please use BCP-47 format." []
             w2))) /\
  (validateLanguageCode targetLanguage = false ->
   TranslationCommand.handleTranslateCommand
     stringify ensureApiKey selectTargetLanguage translateJson fuel uri w
   = tryCatch
       (TranslationCommand.performTranslation stringify translateJson fuel
                                              fsPath targetLanguage)
       (fun error =>
          unawaited (showErrorMessage ("Error: " ++ errorText error) []))
       w2).
Proof.
  intros Hkey Htruthy Huri Hjson Hdetect Hselect Hlang.
  rewrite (handle_selected fuel uri w w1 w1' w2 apiKey fsPath targetLanguage
             detected Hkey Htruthy Huri Hjson Hdetect Hselect Hlang).
  unfold TranslationCommand.translateTo.
  split; intros ->; reflexivity.
Qed.


End Selection.

Variable predictLanguages : string -> Task W (list Service.Language).

(** X21: a language found in the project and picked in the quick pick is a
    valid code, so that the command answers with the message about an
    invalid code and translates nothing. *)
Theorem detected_language_is_rejected
        (fuel : nat) (uri : option string) (w w1 w1' w2 : W)
        (apiKey fsPath : string) (detected : list string)
        (item : QuickPickItem) :
  ensureApiKey w = (Returned (Some apiKey), w1) -> truthy apiKey = true ->
  TranslationCommand.fileUri uri w1 = Some fsPath ->
  endsWith fsPath ".json" = true ->
  TranslationCommand.detecting fsPath w1 = (Returned detected, w1') ->
  showQuickPick (LanguageSelector.detectedOptions detected) detectedPick w1'
  = (Returned (Some item), w2) ->
  In (label item) detected ->
  TranslationCommand.handleTranslateCommand
    stringify ensureApiKey
    (LanguageSelector.selectTargetLanguage predictLanguages)
    translateJson fuel uri w
  = (Returned tt,
     snd (showErrorMessage
            "Invalid language code format. Please use BCP-47 format." []
            w2)).
Proof.
  intros Hkey Htruthy Huri Hjson Hdetect Hpick Hin.
  pose proof (detecting_valid _ _ _ _ _ Hdetect Hin) as Hvalid.
  assert (Hne : detected <> []) by (destruct detected; [destruct Hin|discriminate]).
  pose proof (select_valid_label predictLanguages detected w1' w2 item
                Hne Hpick Hvalid) as Hselect.
  rewrite (handle_selected _ fuel uri w w1 w1' w2 apiKey fsPath (label item)
             detected Hkey Htruthy Huri Hjson Hdetect Hselect
             (test_truthy _ Hvalid)).
  unfold TranslationCommand.translateTo.
  rewrite validate_test, Hvalid. reflexivity.
Qed.

End Command.

Lemma handleTranslateCommand_language_check_witness :
  journal (snd (deskCommand 2 (Some "/tmp/t/locales/en/common.json")
                            (office [Some "fr"])))
  = ["Select target language";
     "Invalid language code format. Please use BCP-47 format."].
Proof.
  destruct (handleTranslateCommand_language_check
              (collator := rootCollator) (errors := deskErrors)
              (fun translations : string => translations)
              ApiKeyManager.ensureApiKey (fixedService "{}") deskSelect
              2 (Some "/tmp/t/locales/en/common.json")
              (office [Some "fr"]) (office [Some "fr"]) (office [Some "fr"])
              (written (office []) "Select target language")
              "key-1" "/tmp/t/locales/en/common.json" "fr"
              ["de"; "fr"; "zh-Hans-CN"]) as [W _].
  all: match goal with
       | W : _ |- _ =>
           unfold deskCommand; rewrite W by (vm_compute; reflexivity)
       | |- _ => idtac
       end.
  all: vm_compute; reflexivity.
Defined.

Lemma detected_language_is_rejected_witness :
  deskCommand 2 (Some "/tmp/t/locales/en/common.json") (office [Some "de"])
  = (Returned tt,
     written (written (office []) "Select target language")
             "Invalid language code format. Please use BCP-47 format.").
Proof.
  unfold deskCommand, deskSelect.
  rewrite (detected_language_is_rejected
             (collator := rootCollator) (errors := deskErrors)
             (fun translations : string => translations)
             ApiKeyManager.ensureApiKey (fixedService "{}") (fun _ => ret [])
             2 (Some "/tmp/t/locales/en/common.json")
             (office [Some "de"]) (office [Some "de"]) (office [Some "de"])
             (written (office []) "Select target language")
             "key-1" "/tmp/t/locales/en/common.json"
             ["de"; "fr"; "zh-Hans-CN"]
             {| label := "de"; description := "Detected in project" |}).
  all: try (vm_compute; reflexivity).
  vm_compute. auto.
Defined.

(** ** The translated file *)

Section TranslatedFile.

Context {W : Type} {fsOps : FileSystem W} {files : FileContents W}
        {editor : Editor W} {errors : ErrorMessages}.
Context {JsonRecord : Type}.
Variable stringify : JsonRecord -> string.
Variable translateJson :
  Service.TranslationRequest JsonRecord ->
  Task W (Service.TranslationResult JsonRecord).

Lemma generating_free (fuel : nat) (fsPath targetLanguage : string)
      (w w' : W) (outputPath : string) :
  generateTargetFilePath fuel w fsPath targetLanguage
  = Normal (w', Some outputPath) ->
  existsSync w' outputPath = false /\
  TranslationCommand.generating fuel fsPath targetLanguage w
  = (Returned outputPath, w').
Proof.
  intros H. split.
  - revert H. unfold generateTargetFilePath.
    destruct (match targetDirectory fsPath targetLanguage with
              | Some targetDir =>
                  if negb (existsSync w targetDir)
                  then mkdirSync w targetDir
                  else Normal w
              | None => Normal w
              end) as [w0|e]; cbn [bindC]; [|discriminate].
    intros [= <- H]. apply (resolved_free _ _ _ _ H).
  - unfold TranslationCommand.generating. rewrite H. reflexivity.
Qed.

(** X22: the translation is written once, at the path that
    [generateTargetFilePath] has just returned, which does not exist at
    that time: the command does not write over a file.  The request
    carries the content of the source file and the normalised target
    language. *)
Theorem translation_written_to_free_path
        (fuel : nat) (fsPath targetLanguage fileContent normalized : string)
        (w w2 w3 : W) (result : Service.TranslationResult JsonRecord)
        (translations : JsonRecord) (outputPath : string) :
  let w1 := progressReport "Sending translation request..." w in
  readFileSync w1 fsPath = Normal fileContent ->
  normalizeLanguageCode targetLanguage = Normal normalized ->
  translateJson
    {| Service.sourceStrings := Service.Text fileContent;
       Service.targetLanguageCode := normalized;
       Service.useContractions :=
         Some (configGetBoolean CONFIG.SECTION CONFIG.KEYS.USE_CONTRACTIONS
                                true w1);
       Service.useShortening :=
         Some (configGetBoolean CONFIG.SECTION CONFIG.KEYS.USE_SHORTENING
                                false w1) |} w1
  = (Returned result, w2) ->
  Service.translations result = Some translations ->
  generateTargetFilePath fuel (progressReport "Saving translated file..." w2)
                         fsPath targetLanguage
  = Normal (w3, Some outputPath) ->
  existsSync w3 outputPath = false /\
  TranslationCommand.translationTask stringify translateJson fuel fsPath
                                     targetLanguage w
  = match writeFileSync w3 outputPath (stringify translations) with
    | Normal w4 =>
        (Returned tt,
         setTimeout
           (TranslationCommand.successCallback result outputPath) 100 w4)
    | Throw e =>
        (Returned tt,
         snd (showErrorMessage ("Translation failed: " ++ messageOf e) [] w3))
    end.
Proof.
  intros w1 Hread Hnormal Htranslate Htranslations Hgenerate.
  destruct (generating_free _ _ _ _ _ _ Hgenerate) as [Hfree Hgenerating].
  split; [exact Hfree|].
  unfold TranslationCommand.translationTask, tryCatch.
  unfold bind at 1, effect at 1. fold w1.
  unfold bind at 1. rewrite Hread. cbn [fromCompletion].
  unfold bind at 1. rewrite Hnormal. cbn [fromCompletion].
  unfold bind at 1, reading at 1.
  unfold bind at 1, reading at 1.
  unfold bind at 1. rewrite Htranslate, Htranslations.
  unfold bind at 1, effect at 1.
  unfold bind at 1. rewrite Hgenerating.
  unfold bind at 1.
  destruct (writeFileSync w3 outputPath (stringify translations)) as [w4|e].
  - reflexivity.
  - reflexivity.
Qed.

End TranslatedFile.

Lemma translation_written_to_free_path_witness :
  let d := office [] in
  existsSync
    (written (written (written d "Sending translation request...") "sent")
             "Saving translated file...")
    "/tmp/t/locales/en/common (1).json" = false.
Proof.
  intros d.
  apply (translation_written_to_free_path
           (errors := deskErrors)
           (fun translations : string => translations)
           (fun request => fun w => fixedService "{}" request (written w "sent"))
           1 "/tmp/t/locales/en/common.json" "en" "{}" "en" d
           (written (written d "Sending translation request...") "sent")
           (written (written (written d "Sending translation request...")
                             "sent")
                    "Saving translated file...")
           {| Service.resultLanguageCode := "en";
              Service.translations := Some "{}";
              Service.usage := {| Service.charsUsed := Some 42%N |};
              Service.finishReason := Some Service.stop;
              Service.completedChunks := 1;
              Service.totalChunks := 1 |}
           "{}" "/tmp/t/locales/en/common (1).json").
  all: vm_compute; reflexivity.
Defined.

(** ** The translation service *)

Lemma join_texts {Num : Type} {numbers : Numbers Num} (sep : string)
      (messages : list string) :
  Json.join sep (map (Json.Text (Num := Num)) messages)
  = Normal (String.concat sep messages).
Proof.
  unfold Json.join.
  induction messages as [|m messages IH]; [reflexivity|].
  cbn [map Json.joinWith Json.toText bindC String.concat].
  destruct messages as [|m' messages]; [reflexivity|].
  cbn [map] in *. rewrite IH. reflexivity.
Qed.

Lemma joinInner_arrays {Num : Type} {numbers : Numbers Num}
      (lists : list (list string)) :
  Json.joinInner
    (map (fun messages => Json.Array (map (Json.Text (Num := Num)) messages))
         lists)
  = Normal (map (fun messages => Json.Text (String.concat " " messages))
                lists).
Proof.
  induction lists as [|l lists IH]; [reflexivity|].
  cbn [map Json.joinInner]. rewrite join_texts, IH. reflexivity.
Qed.

Section FailedResponse.

Context {W Num : Type} {numbers : Numbers Num}
        {network : TranslationService.Network W Num}
        {errors : ErrorMessages}.
Context {JsonRecord : Type}.
Variable stringifyRequest : Service.TranslationRequest JsonRecord -> string.
Variable getApiKey : Task W (option string).

Lemma translateJson_failed (request : Service.TranslationRequest JsonRecord)
      (w w1 w2 : W) (apiKey : string)
      (response : TranslationService.Response W Num) :
  getApiKey w = (Returned (Some apiKey), w1) -> truthy apiKey = true ->
  TranslationService.fetch
    (TranslationService.posted stringifyRequest apiKey request) w1
  = (Returned response, w2) ->
  TranslationService.ok response = false ->
  TranslationService.translateJson stringifyRequest getApiKey request w
  = match TranslationService.json response w2 with
    | (Returned errorData, w3) =>
        match TranslationService.errorMessage
                (TranslationService.status response) errorData with
        | Normal message => (Thrown (ErrorObject message), w3)
        | Throw e => (Thrown (ErrorObject (messageOf e)), w3)
        end
    | (Thrown _, w3) =>
        match TranslationService.errorMessage
                (TranslationService.status response) Json.Null with
        | Normal message => (Thrown (ErrorObject message), w3)
        | Throw e => (Thrown (ErrorObject (messageOf e)), w3)
        end
    | (Unfinished, w3) => (Unfinished, w3)
    end.
Proof.
  intros Hkey Htruthy Hfetch Hok.
  unfold TranslationService.translateJson.
  unfold bind at 1. rewrite Hkey. cbn [whenTruthy]. rewrite Htruthy.
  unfold bind at 1. rewrite Hfetch, Hok.
  cbn [negb]. unfold bind, tryCatch, fromCompletion, ret,
    TranslationService.throwError.
  destruct (TranslationService.json response w2) as [[errorData|e|] w3].
  - destruct (TranslationService.errorMessage _ errorData); reflexivity.
  - destruct (TranslationService.errorMessage _ Json.Null); reflexivity.
  - reflexivity.
Qed.

(** X23: a response that is not [ok] never gives a result.  For a status
    other than 400, 402 and 500 the error thrown depends on the status
    alone, whatever the body holds and even when it cannot be read. *)
Theorem translateJson_rejects_failed_response
        (request : Service.TranslationRequest JsonRecord)
        (w w1 w2 : W) (apiKey : string)
        (response : TranslationService.Response W Num) :
  getApiKey w = (Returned (Some apiKey), w1) -> truthy apiKey = true ->
  TranslationService.fetch
    (TranslationService.posted stringifyRequest apiKey request) w1
  = (Returned response, w2) ->
  TranslationService.ok response = false ->
  (forall result,
      fst (TranslationService.translateJson stringifyRequest getApiKey
                                            request w)
      <> Returned result) /\
  (TranslationService.status response <> 400%N ->
   TranslationService.status response <> 402%N ->
   TranslationService.status response <> 500%N ->
   fst (TranslationService.json response w2) <> Unfinished ->
   TranslationService.translateJson stringifyRequest getApiKey request w
   = (Thrown
        (ErrorObject
           (if (TranslationService.status response =? 401)%N then
              "Invalid API Key. Please check your API Key."
            else if (TranslationService.status response =? 413)%N then
              "Request too large. Maximum request size is 10 MB."
            else
              "Failed to translate. Please check your connection and try again.")),
      snd (TranslationService.json response w2))).
Proof.
  intros Hkey Htruthy Hfetch Hok.
  rewrite (translateJson_failed request w w1 w2 apiKey response
             Hkey Htruthy Hfetch Hok).
  split.
  - intros result.
    destruct (TranslationService.json response w2) as [[errorData|e|] w3];
      try destruct (TranslationService.errorMessage _ _);
      cbn; discriminate.
  - intros H400 H402 H500 Hdone.
    unfold TranslationService.errorMessage.
    apply N.eqb_neq in H400, H402, H500. rewrite H400, H402, H500.
    destruct (TranslationService.json response w2) as [[errorData|e|] w3];
      [| |contradiction Hdone; reflexivity];
      cbn [snd];
      destruct (TranslationService.status response =? 401)%N;
      try reflexivity;
      destruct (TranslationService.status response =? 413)%N; reflexivity.
Qed.

(** X24: for the status 400 the messages of the body are joined with spaces:
    those of the array [errors], or those of all the arrays that the
    object [errors] holds, field after field. *)
Theorem validation_messages_are_joined
        (request : Service.TranslationRequest JsonRecord)
        (w w1 w2 w3 : W) (apiKey : string)
        (response : TranslationService.Response W Num)
        (properties : list (string * Json.Value Num)) :
  getApiKey w = (Returned (Some apiKey), w1) -> truthy apiKey = true ->
  TranslationService.fetch
    (TranslationService.posted stringifyRequest apiKey request) w1
  = (Returned response, w2) ->
  TranslationService.ok response = false ->
  TranslationService.status response = 400%N ->
  TranslationService.json response w2
  = (Returned (Json.Object properties), w3) ->
  (forall messages,
      Json.own "errors" properties
      = Some (Json.Array (map Json.Text messages)) ->
      TranslationService.translateJson stringifyRequest getApiKey request w
      = (Thrown (ErrorObject (String.concat " " messages)), w3)) /\
  (forall fields lists,
      Json.own "errors" properties = Some (Json.Object fields) ->
      Json.values fields
      = map (fun messages => Json.Array (map Json.Text messages)) lists ->
      TranslationService.translateJson stringifyRequest getApiKey request w
      = (Thrown
           (ErrorObject
              (String.concat " " (map (String.concat " ") lists))),
         w3)).
Proof.
  intros Hkey Htruthy Hfetch Hok Hstatus Hjson.
  rewrite (translateJson_failed request w w1 w2 apiKey response
             Hkey Htruthy Hfetch Hok).
  rewrite Hjson, Hstatus.
  unfold TranslationService.errorMessage. cbn [N.eqb Pos.eqb].
  unfold TranslationService.validationMessage.
  cbn [Json.truthyValue Json.get Json.getOptional bindC].
  split.
  - intros messages ->. cbn [Json.truthyValue].
    rewrite join_texts. reflexivity.
  - intros fields lists -> Hvalues. cbn [Json.truthyValue].
    rewrite Hvalues, joinInner_arrays. cbn [bindC].
    rewrite <- (map_map (String.concat " ") Json.Text), join_texts.
    reflexivity.
Qed.

End FailedResponse.

Lemma translateJson_rejects_failed_response_witness :
  let response :=
    {| TranslationService.ok := false;
       TranslationService.status := 401;
       TranslationService.statusText := "Unauthorized";
       TranslationService.json :=
         fun w => (Thrown OtherValue, w) |} in
  TranslationService.translateJson
    (numbers := plainNumbers) (network := answering response)
    (errors := deskErrors)
    (fun request : Service.TranslationRequest string => "{}")
    (ret (Some "key-1"))
    {| Service.sourceStrings := Service.Text "{}";
       Service.targetLanguageCode := "fr";
       Service.useContractions := Some true;
       Service.useShortening := Some false |} tt
  = (Thrown (ErrorObject "Invalid API Key. Please check your API Key."), tt).
Proof.
  intros response.
  apply (proj2 (translateJson_rejects_failed_response
                  (numbers := plainNumbers) (network := answering response)
                  (errors := deskErrors)
                  (fun request : Service.TranslationRequest string => "{}")
                  (ret (Some "key-1")) _ tt tt tt "key-1" response
                  eq_refl eq_refl eq_refl eq_refl)).
  all: vm_compute; discriminate.
Defined.

Lemma validation_messages_are_joined_witness :
  let body :=
    Json.Object
      [("errors",
        Json.Object
          [("targetLanguageCode",
            Json.Array [Json.Text "Unknown language."]);
           ("sourceStrings",
            Json.Array [Json.Text "Too long."; Json.Text "Not JSON."])])] in
  TranslationService.translateJson
    (numbers := plainNumbers) (network := answering (badRequest body))
    (errors := deskErrors)
    (fun request : Service.TranslationRequest string => "{}")
    (ret (Some "key-1"))
    {| Service.sourceStrings := Service.Text "{}";
       Service.targetLanguageCode := "xx";
       Service.useContractions := Some true;
       Service.useShortening := Some false |} tt
  = (Thrown (ErrorObject "Unknown language. Too long. Not JSON."), tt).
Proof.
  intros body.
  apply (proj2 (validation_messages_are_joined
                  (numbers := plainNumbers)
                  (network := answering (badRequest body))
                  (errors := deskErrors)
                  (fun request : Service.TranslationRequest string => "{}")
                  (ret (Some "key-1")) _ tt tt tt tt "key-1"
                  (badRequest body) _
                  eq_refl eq_refl eq_refl eq_refl eq_refl eq_refl)
               [("targetLanguageCode",
                 Json.Array [Json.Text "Unknown language."]);
                ("sourceStrings",
                 Json.Array [Json.Text "Too long."; Json.Text "Not JSON."])]
               [["Unknown language."]; ["Too long."; "Not JSON."]]).
  all: reflexivity.
Defined.

Section ReturnedBody.

Context {W Num : Type} {numbers : Numbers Num}
        {network : TranslationService.Network W Num}
        {errors : ErrorMessages}.
Context {JsonRecord : Type}.
Variable stringifyRequest : Service.TranslationRequest JsonRecord -> string.
Variable getApiKey : Task W (option string).

Lemma finishError_none (finishReason : Json.Value Num) (reason : string) :
  TranslationService.finishError finishReason = None ->
  finishReason = Json.Text reason ->
  reason <> "insufficientBalance" /\ reason <> "contentFilter" /\
  reason <> "error".
Proof.
  intros H ->. unfold TranslationService.finishError in H.
  cbn [Json.truthyValue] in H.
  destruct (truthy reason) eqn:Et.
  - destruct (String.eqb_spec reason "insufficientBalance");
      [discriminate H|].
    destruct (String.eqb_spec reason "contentFilter"); [discriminate H|].
    destruct (String.eqb_spec reason "error"); [discriminate H|].
    auto.
  - destruct reason; [|discriminate Et]. repeat split; discriminate.
Qed.

(** X25: what [translateJson] returns is the body of a response, as it was
    parsed: there was a key, the response was [ok], and the finish reason
    of the body is none of [insufficientBalance], [contentFilter] and
    [error]. *)
Theorem translateJson_returns_body
        (request : Service.TranslationRequest JsonRecord) (w w' : W)
        (result : Json.Value Num) :
  TranslationService.translateJson stringifyRequest getApiKey request w
  = (Returned result, w') ->
  exists apiKey w1 response w2,
    getApiKey w = (Returned (Some apiKey), w1) /\ truthy apiKey = true /\
    TranslationService.fetch
      (TranslationService.posted stringifyRequest apiKey request) w1
    = (Returned response, w2) /\
    TranslationService.ok response = true /\
    TranslationService.json response w2 = (Returned result, w') /\
    forall reason,
      Json.getOptional result "finishReason" = Json.Text reason ->
      reason <> "insufficientBalance" /\ reason <> "contentFilter" /\
      reason <> "error".
Proof.
  unfold TranslationService.translateJson. intros H.
  apply bind_returned in H. destruct H as (key & w1 & Hkey & H).
  destruct (whenTruthy key) as [apiKey|] eqn:Ekey;
    [|unfold TranslationService.throwError in H; discriminate H].
  destruct (whenTruthy_some _ _ Ekey) as [-> Htruthy].
  apply bind_returned in H. destruct H as (response & w2 & Hfetch & H).
  destruct (TranslationService.ok response) eqn:Hok; cbn [negb] in H.
  - apply bind_returned in H. destruct H as (body & w3 & Hjson & H).
    apply bind_returned in H. destruct H as (finishReason & w4 & Hget & H).
    unfold fromCompletion in Hget.
    destruct (Json.get body "finishReason") as [v|e] eqn:Eget;
      [|discriminate Hget].
    injection Hget as -> <-.
    destruct (TranslationService.finishError finishReason) eqn:Efinish;
      [unfold TranslationService.throwError in H; discriminate H|].
    unfold ret in H. injection H as -> <-.
    exists apiKey, w1, response, w2. repeat split; try assumption.
    + apply (finishError_none _ reason Efinish).
      destruct result; try discriminate Eget; cbn in Eget;
        injection Eget as <-; assumption.
    + apply (finishError_none _ reason Efinish).
      destruct result; try discriminate Eget; cbn in Eget;
        injection Eget as <-; assumption.
    + apply (finishError_none _ reason Efinish).
      destruct result; try discriminate Eget; cbn in Eget;
        injection Eget as <-; assumption.
  - apply bind_returned in H. destruct H as (errorData & w3 & _ & H).
    apply bind_returned in H. destruct H as (message & w4 & _ & H).
    unfold TranslationService.throwError in H. discriminate H.
Qed.

End ReturnedBody.

Lemma translateJson_returns_body_witness :
  let body : Json.Value N :=
    Json.Object [("targetLanguageCode", Json.Text "fr");
                 ("finishReason", Json.Text "length")] in
  let response : TranslationService.Response unit N :=
    {| TranslationService.ok := true;
       TranslationService.status := 200;
       TranslationService.statusText := "OK";
       TranslationService.json := ret body |} in
  exists apiKey w1 response' w2,
    ret (Some "key-1") tt = (Returned (Some apiKey), w1) /\
    truthy apiKey = true /\
    TranslationService.fetch
      (Network := answering response)
      (TranslationService.posted
         (fun request : Service.TranslationRequest string => "{}") apiKey
         {| Service.sourceStrings := Service.Text "{}";
            Service.targetLanguageCode := "fr";
            Service.useContractions := Some true;
            Service.useShortening := Some false |}) w1
    = (Returned response', w2) /\
    TranslationService.ok response' = true /\
    TranslationService.json response' w2 = (Returned body, tt) /\
    forall reason,
      Json.getOptional body "finishReason" = Json.Text reason ->
      reason <> "insufficientBalance" /\ reason <> "contentFilter" /\
      reason <> "error".
Proof.
  intros body response.
  apply (translateJson_returns_body
           (numbers := plainNumbers) (network := answering response)
           (errors := deskErrors)
           (fun request : Service.TranslationRequest string => "{}")
           (ret (Some "key-1"))
           {| Service.sourceStrings := Service.Text "{}";
              Service.targetLanguageCode := "fr";
              Service.useContractions := Some true;
              Service.useShortening := Some false |} tt tt body).
  vm_compute. reflexivity.
Defined.
